(** * SmartGit: change analysis and commit-message suggestion

    A shallow embedding of [lib/analyzer.js] and [lib/suggester.js].

    - JavaScript strings are modelled by [string]: a character is one code
      unit in the range 0..255 (Latin-1).  Code units above 255 are outside
      the model.
    - A JavaScript value that is either a string or [undefined] is an
      [option string] ([None] is [undefined]).
    - An exception is the message of the thrown [Error].
    - The [simple-git] handle is a record of the answers the tool gives to the
      six queries the analyzer issues; the analyzer runs in a monad that logs
      every query it issues and carries exceptions.
    - [parseDiff] (the [parse-diff] package) is not part of the repository:
      the development is parametric in it. *)

From Stdlib Require Import String Ascii List Bool Arith NArith Lia.
From Stdlib Require Import DecimalString.
Import ListNotations.

#[local] Open Scope string_scope.
#[local] Open Scope list_scope.

(** ** JavaScript string primitives *)

Module JsString.

(** White space of [String.prototype.trim] and of the regular expression
    class [\s], in the Latin-1 range: TAB, LF, VT, FF, CR, SPACE, NBSP. *)
Definition is_white (c : ascii) : bool :=
  match nat_of_ascii c with
  | 9 | 10 | 11 | 12 | 13 | 32 | 160 => true
  | _ => false
  end.

Definition newline : string := String "010"%char "".

Definition is_empty (s : string) : bool :=
  match s with
  | "" => true
  | _ => false
  end.

Fixpoint trimStart (s : string) : string :=
  match s with
  | "" => ""
  | String c r => if is_white c then trimStart r else s
  end.

Fixpoint trimEnd (s : string) : string :=
  match s with
  | "" => ""
  | String c r =>
      let r' := trimEnd r in
      if is_white c && is_empty r' then "" else String c r'
  end.

(** [s.trim()] *)
Definition trim (s : string) : string := trimEnd (trimStart s).

(** [s.includes(pat)] *)
Fixpoint includes (s pat : string) : bool :=
  if prefix pat s then true
  else match s with
       | "" => false
       | String _ r => includes r pat
       end.

(** [s.slice(n)] for a non-negative [n] *)
Fixpoint slice (n : nat) (s : string) : string :=
  match n, s with
  | 0, _ => s
  | S _, "" => ""
  | S k, String _ r => slice k r
  end.

(** [s.split(sep)] for a non-empty separator string: [skip] counts the
    characters of a matched separator that are still to be passed over,
    [cur] is the piece being read. *)
Fixpoint split_go (sep : string) (skip : nat) (cur s : string) : list string :=
  match s with
  | "" => [cur]
  | String c r =>
      match skip with
      | S k => split_go sep k cur r
      | 0 =>
          if prefix sep s
          then cur :: split_go sep (String.length sep - 1) "" r
          else split_go sep 0 (cur ++ String c "") r
      end
  end.

Definition split (sep s : string) : list string := split_go sep 0 "" s.

(** [arr.join(sep)] on an array of strings *)
Fixpoint join (sep : string) (l : list string) : string :=
  match l with
  | [] => ""
  | [x] => x
  | x :: r => x ++ sep ++ join sep r
  end.

(** [c.toLowerCase()] on one Latin-1 code unit: A-Z, and the upper-case
    letters U+00C0..U+00DE except the multiplication sign U+00D7. *)
Definition lower_char (c : ascii) : ascii :=
  let n := nat_of_ascii c in
  if (((65 <=? n) && (n <=? 90))
      || ((192 <=? n) && (n <=? 222) && negb (n =? 215)))%nat
  then ascii_of_nat (n + 32)
  else c.

Fixpoint toLowerCase (s : string) : string :=
  match s with
  | "" => ""
  | String c r => String (lower_char c) (toLowerCase r)
  end.

(** [s[i] === c] : the character at [i] exists and is [c]. *)
Definition char_is (s : string) (i : nat) (c : ascii) : bool :=
  match get i s with
  | Some d => Ascii.eqb d c
  | None => false
  end.

End JsString.

Import JsString.

(** ** Exceptions and the query monad *)

(** The outcome of a JavaScript computation: a value, or a thrown [Error]
    represented by its [message]. *)
Inductive result (A : Type) : Type :=
| Ok (a : A)
| Throw (message : string).

Arguments Ok {A} a.
Arguments Throw {A} message.

(** Node's message for reading property [name] of [undefined]. *)
Definition TypeError_undefined (name : string) : string :=
  "Cannot read properties of undefined (reading '" ++ name ++ "')".

(** [for (const x of l) body] over a state [S], stopping at the first throw. *)
Fixpoint for_of {A S : Type} (body : S -> A -> result S) (l : list A) (s : S)
  : result S :=
  match l with
  | [] => Ok s
  | x :: r =>
      match body s x with
      | Ok s' => for_of body r s'
      | Throw m => Throw m
      end
  end.

(** The queries [analyzeChanges] sends to the version-control tool. *)
Inductive Query : Type :=
| QCheckIsRepo        (* git.checkIsRepo() *)
| QRevParseHead       (* git.raw(['rev-parse', 'HEAD']) *)
| QStatusPorcelain    (* git.raw(['status', '--porcelain']) *)
| QDiffCachedHead     (* git.diff(['--cached', 'HEAD']) *)
| QDiffHead           (* git.diff(['HEAD']) *)
| QDiff.              (* git.diff() *)

(** The tool's answers: each query resolves to a value or rejects. *)
Record SimpleGit : Type := {
  checkIsRepo : result bool;
  raw_rev_parse_HEAD : result string;
  raw_status_porcelain : result string;
  diff_cached_HEAD : result string;
  diff_HEAD : result string;
  diff_plain : result string
}.

(** An [async] computation: it extends the log of issued queries (most recent
    last) and ends in a value or an exception. *)
Definition Async (A : Type) : Type := list Query -> result A * list Query.

Definition ret {A : Type} (a : A) : Async A := fun log => (Ok a, log).

Definition throw {A : Type} (message : string) : Async A :=
  fun log => (Throw message, log).

Definition bind {A B : Type} (m : Async A) (k : A -> Async B) : Async B :=
  fun log =>
    match m log with
    | (Ok a, log') => k a log'
    | (Throw e, log') => (Throw e, log')
    end.

(** [await] of one query: log it, then take the tool's answer. *)
Definition await {A : Type} (q : Query) (answer : result A) : Async A :=
  fun log => (answer, log ++ [q]).

(** A synchronous computation inside an [async] function. *)
Definition lift {A : Type} (r : result A) : Async A := fun log => (r, log).

(** [try { m } catch (error) { handler(error.message) }] *)
Definition try_catch {A : Type} (m : Async A) (handler : string -> Async A)
  : Async A :=
  fun log =>
    match m log with
    | (Ok a, log') => (Ok a, log')
    | (Throw e, log') => handler e log'
    end.

Declare Scope async_scope.
Delimit Scope async_scope with async.
Notation "x <- m ;; k" := (bind m (fun x => k))
  (at level 61, m at next level, right associativity) : async_scope.

(** ** Data model *)

(** A string or [undefined]. *)
Definition jsv : Type := option string.

Definition jsv_eqb (a b : jsv) : bool :=
  match a, b with
  | Some x, Some y => String.eqb x y
  | None, None => true
  | _, _ => false
  end.

(** [a || b] on values that are strings or [undefined]: the empty string and
    [undefined] are falsy. *)
Definition js_or (a b : jsv) : jsv :=
  match a with
  | Some s => if is_empty s then b else a
  | None => b
  end.

(** The part of the output of [parseDiff] the analyzer reads. *)
Record Change : Type := { c_type : string; c_content : string }.

Record Chunk : Type := { changes : list Change }.

Record DiffFile : Type := {
  f_chunks : option (list Chunk);
  f_additions : option nat;
  f_deletions : option nat;
  f_from : jsv;
  f_to : jsv;
  f_new : bool;
  f_deleted : bool;
  f_renamed : bool
}.

(** [{ from, to }] *)
Record Rename : Type := { from : jsv; to : jsv }.

(** The object built by [parsePorcelainStatus]. *)
Record Status : Type := {
  st_modified : list string;
  st_created : list string;
  st_deleted : list string;
  st_renamed : list (string * string);
  st_files : list string
}.

Record ChangeTypes : Type := {
  modified : list jsv;
  created : list jsv;
  deleted : list jsv;
  renamed : list Rename
}.

Record FileChanges : Type := {
  changeTypes : ChangeTypes;
  allFiles : list jsv
}.

Record LineStats : Type := {
  additions : nat;
  deletions : nat;
  total : nat
}.

Record Categorization : Type := {
  docs : list string;
  test : list string;
  config : list string;
  style : list string;
  source : list string
}.

Record Summary : Type := {
  totalFiles : nat;
  sm_modified : nat;
  sm_created : nat;
  sm_deleted : nat;
  sm_renamed : nat;
  linesAdded : nat;
  linesDeleted : nat;
  linesChanged : nat
}.

(** The result object with [hasChanges: true].  [a_isFirstCommit] is [true]
    when the property is present (it is then [true]) and [false] when it is
    absent. *)
Record Changes : Type := {
  a_isFirstCommit : bool;
  a_mode : string;
  a_analysisScope : string;
  a_changeTypes : ChangeTypes;
  a_files : list jsv;
  a_categorization : Categorization;
  a_diff : string;
  a_lineStats : LineStats;
  a_parsedDiff : list DiffFile;
  a_summary : Summary
}.

(** The result object with [hasChanges: false]; [n_mode] is absent in the
    first-commit case. *)
Record NoChanges : Type := {
  n_message : string;
  n_isFirstCommit : bool;
  n_mode : option string;
  n_analysisScope : string
}.

Inductive AnalysisResult : Type :=
| Unchanged (n : NoChanges)
| Changed (a : Changes).

Definition hasChanges (r : AnalysisResult) : bool :=
  match r with
  | Unchanged _ => false
  | Changed _ => true
  end.

Definition isFirstCommit (r : AnalysisResult) : bool :=
  match r with
  | Unchanged n => n_isFirstCommit n
  | Changed a => a_isFirstCommit a
  end.

(** [array.push(x)] *)
Definition push {A : Type} (l : list A) (x : A) : list A := l ++ [x].

(** A [Set] of strings-or-undefined in insertion order. *)
Definition set_has (s : list jsv) (x : jsv) : bool := existsb (jsv_eqb x) s.

Definition set_add (s : list jsv) (x : jsv) : list jsv :=
  if set_has s x then s else push s x.

(** ** lib/config.js *)

Module CONFIG.

(** [CONFIG.filePatterns] *)
Definition filePatterns_docs : list string :=
  [".md"; ".txt"; "readme"; "license"; "changelog"].
Definition filePatterns_test : list string :=
  [".test."; ".spec."; "__tests__"; "test/"; "tests/"].
Definition filePatterns_config : list string :=
  [".json"; ".yml"; ".yaml"; ".toml"; ".config."; "config/"; ".env"].
Definition filePatterns_style : list string :=
  [".css"; ".scss"; ".sass"; ".less"; ".style."].

End CONFIG.

(** ** lib/analyzer.js *)

Module Analyzer.

#[local] Open Scope async_scope.

Definition not_a_repository : string :=
  "Not a git repository. Please run this command inside a git repository.".

Definition failed_prefix : string := "Failed to analyze git changes: ".

Definition no_changes_since : string :=
  "No changes detected since the last commit".

Definition no_changes_repository : string :=
  "No changes detected in the repository".

Definition first_commit_scope : string := "first commit (no HEAD)".

(** [checkHasHead]: the rejection of [rev-parse HEAD] is caught. *)
Definition checkHasHead (git : SimpleGit) : Async bool :=
  try_catch
    (_ <- await QRevParseHead (raw_rev_parse_HEAD git) ;; ret true)
    (fun _ => ret false).

Definition empty_status : Status :=
  {| st_modified := []; st_created := []; st_deleted := [];
     st_renamed := []; st_files := [] |}.

(** The body of the loop of [parsePorcelainStatus] for one line. *)
Definition statusLine (status : Status) (line : string) : result Status :=
  if Nat.ltb (String.length line) 4 then Ok status
  else
    let file := trim (slice 3 line) in
    if includes line " -> " then
      match split " -> " file with
      | oldPath :: newPath :: _ =>
          Ok {| st_modified := st_modified status;
                st_created := st_created status;
                st_deleted := st_deleted status;
                st_renamed := push (st_renamed status) (trim oldPath, trim newPath);
                st_files := push (st_files status) (trim newPath) |}
      | _ => Throw (TypeError_undefined "trim")
      end
    else if char_is line 0 "M" || char_is line 1 "M" then
      Ok {| st_modified := push (st_modified status) file;
            st_created := st_created status;
            st_deleted := st_deleted status;
            st_renamed := st_renamed status;
            st_files := push (st_files status) file |}
    else if char_is line 0 "A" || (char_is line 0 "?" && char_is line 1 "?") then
      Ok {| st_modified := st_modified status;
            st_created := push (st_created status) file;
            st_deleted := st_deleted status;
            st_renamed := st_renamed status;
            st_files := push (st_files status) file |}
    else if char_is line 0 "D" || char_is line 1 "D" then
      Ok {| st_modified := st_modified status;
            st_created := st_created status;
            st_deleted := push (st_deleted status) file;
            st_renamed := st_renamed status;
            st_files := push (st_files status) file |}
    else if char_is line 0 "R" then Ok status
    else
      Ok {| st_modified := st_modified status;
            st_created := st_created status;
            st_deleted := st_deleted status;
            st_renamed := st_renamed status;
            st_files := push (st_files status) file |}.

Definition parsePorcelainStatus (statusOutput : string) : result Status :=
  if is_empty (trim statusOutput) then Ok empty_status
  else for_of statusLine (split newline (trim statusOutput)) empty_status.

(** [extractFileChanges]: the loop over the parsed diff. *)
Definition diffEntry (acc : FileChanges) (file : DiffFile) : FileChanges :=
  let ct := changeTypes acc in
  let filePath := js_or (f_to file) (f_from file) in
  if f_deleted file then
    {| changeTypes := {| modified := modified ct; created := created ct;
                         deleted := push (deleted ct) filePath;
                         renamed := renamed ct |};
       allFiles := set_add (allFiles acc) filePath |}
  else if f_new file then
    {| changeTypes := {| modified := modified ct;
                         created := push (created ct) filePath;
                         deleted := deleted ct; renamed := renamed ct |};
       allFiles := set_add (allFiles acc) filePath |}
  else if f_renamed file then
    {| changeTypes := {| modified := modified ct; created := created ct;
                         deleted := deleted ct;
                         renamed := push (renamed ct)
                                      {| from := f_from file; to := f_to file |} |};
       allFiles := set_add (allFiles acc) (f_to file) |}
  else
    {| changeTypes := {| modified := push (modified ct) filePath;
                         created := created ct;
                         deleted := deleted ct; renamed := renamed ct |};
       allFiles := set_add (allFiles acc) filePath |}.

(** The three loops that merge [status.modified], [status.created] and
    [status.deleted]. *)
Definition mergeModified (acc : FileChanges) (file : string) : FileChanges :=
  let ct := changeTypes acc in
  if negb (set_has (allFiles acc) (Some file)) then
    {| changeTypes := {| modified := push (modified ct) (Some file);
                         created := created ct;
                         deleted := deleted ct; renamed := renamed ct |};
       allFiles := set_add (allFiles acc) (Some file) |}
  else acc.

Definition mergeCreated (acc : FileChanges) (file : string) : FileChanges :=
  let ct := changeTypes acc in
  if negb (set_has (allFiles acc) (Some file)) then
    {| changeTypes := {| modified := modified ct;
                         created := push (created ct) (Some file);
                         deleted := deleted ct; renamed := renamed ct |};
       allFiles := set_add (allFiles acc) (Some file) |}
  else acc.

Definition mergeDeleted (acc : FileChanges) (file : string) : FileChanges :=
  let ct := changeTypes acc in
  if negb (set_has (allFiles acc) (Some file)) then
    {| changeTypes := {| modified := modified ct; created := created ct;
                         deleted := push (deleted ct) (Some file);
                         renamed := renamed ct |};
       allFiles := set_add (allFiles acc) (Some file) |}
  else acc.

(** The loop that merges [status.renamed]: [find] by the [to] path. *)
Definition mergeRenamed (acc : FileChanges) (rename : string * string)
  : FileChanges :=
  let ct := changeTypes acc in
  let rename_to := Some (snd rename) in
  match find (fun r => jsv_eqb (to r) rename_to) (renamed ct) with
  | Some _ => acc
  | None =>
      {| changeTypes := {| modified := modified ct; created := created ct;
                           deleted := deleted ct;
                           renamed := push (renamed ct)
                                        {| from := Some (fst rename);
                                           to := rename_to |} |};
         allFiles := set_add (allFiles acc) rename_to |}
  end.

Definition empty_changes : FileChanges :=
  {| changeTypes := {| modified := []; created := []; deleted := [];
                       renamed := [] |};
     allFiles := [] |}.

Definition extractFileChanges (parsedDiff : list DiffFile) (status : Status)
  : FileChanges :=
  let acc := fold_left diffEntry parsedDiff empty_changes in
  let acc := fold_left mergeModified (st_modified status) acc in
  let acc := fold_left mergeCreated (st_created status) acc in
  let acc := fold_left mergeDeleted (st_deleted status) acc in
  fold_left mergeRenamed (st_renamed status) acc.

(** [calculateLineStats]: the counters are a pair (additions, deletions). *)
Definition countChange (acc : nat * nat) (change : Change) : nat * nat :=
  if String.eqb (c_type change) "add" then (S (fst acc), snd acc)
  else if String.eqb (c_type change) "del" then (fst acc, S (snd acc))
  else acc.

Definition countChunk (acc : nat * nat) (chunk : Chunk) : nat * nat :=
  fold_left countChange (changes chunk) acc.

Definition countFile (acc : nat * nat) (file : DiffFile) : nat * nat :=
  let acc :=
    match f_chunks file with
    | Some chunks => fold_left countChunk chunks acc
    | None => acc
    end in
  let acc :=
    match f_additions file with
    | Some n => (fst acc + n, snd acc)
    | None => acc
    end in
  match f_deletions file with
  | Some n => (fst acc, snd acc + n)
  | None => acc
  end.

Definition calculateLineStats (parsedDiff : list DiffFile) : LineStats :=
  let acc := fold_left countFile parsedDiff (0, 0) in
  {| additions := fst acc; deletions := snd acc;
     total := fst acc + snd acc |}.

(** [patterns.some(pattern => fileLower.includes(pattern))] *)
Definition matches (patterns : list string) (fileLower : string) : bool :=
  existsb (includes fileLower) patterns.

Definition empty_categories : Categorization :=
  {| docs := []; test := []; config := []; style := []; source := [] |}.

(** The body of the loop of [categorizeFiles]; [file.toLowerCase()] throws
    on [undefined]. *)
Definition categorizeFile (categories : Categorization) (file : jsv)
  : result Categorization :=
  match file with
  | None => Throw (TypeError_undefined "toLowerCase")
  | Some file =>
      let fileLower := toLowerCase file in
      if matches CONFIG.filePatterns_docs fileLower then
        Ok {| docs := push (docs categories) file; test := test categories;
              config := config categories; style := style categories;
              source := source categories |}
      else if matches CONFIG.filePatterns_test fileLower then
        Ok {| docs := docs categories; test := push (test categories) file;
              config := config categories; style := style categories;
              source := source categories |}
      else if matches CONFIG.filePatterns_config fileLower then
        Ok {| docs := docs categories; test := test categories;
              config := push (config categories) file;
              style := style categories; source := source categories |}
      else if matches CONFIG.filePatterns_style fileLower then
        Ok {| docs := docs categories; test := test categories;
              config := config categories;
              style := push (style categories) file;
              source := source categories |}
      else
        Ok {| docs := docs categories; test := test categories;
              config := config categories; style := style categories;
              source := push (source categories) file |}
  end.

Definition categorizeFiles (files : list jsv) : result Categorization :=
  for_of categorizeFile files empty_categories.

(** [determinePrimaryType] *)
Definition determinePrimaryType (categorization : Categorization)
  (changeTypes : ChangeTypes) : string :=
  let n_docs := List.length (docs categorization) in
  let n_test := List.length (test categorization) in
  let n_config := List.length (config categorization) in
  let n_style := List.length (style categorization) in
  let n_source := List.length (source categorization) in
  let n_created := List.length (created changeTypes) in
  let n_modified := List.length (modified changeTypes) in
  if (Nat.ltb 0 n_docs) && (Nat.eqb n_source 0) && (Nat.eqb n_test 0) then "docs"
  else if (Nat.ltb 0 n_test) && (Nat.eqb n_source 0) then "test"
  else if (Nat.ltb 0 n_config) && (Nat.eqb n_source 0) && (Nat.eqb n_test 0)
          && (Nat.eqb n_docs 0) then "chore"
  else if (Nat.ltb 0 n_style) && (Nat.eqb n_source 0) then "style"
  else if (Nat.ltb 0 n_created) && (Nat.eqb n_modified 0) then "feat"
  else
    let allFiles :=
      toLowerCase (join " " (source categorization ++ test categorization)) in
    if includes allFiles "fix" || includes allFiles "bug"
       || includes allFiles "patch" then "fix"
    else if includes allFiles "refactor" then "refactor"
    else if Nat.ltb 0 n_source then
      if Nat.ltb n_modified n_created then "feat" else "feat"
    else "chore".

Section WithParseDiff.

(** The default export of the [parse-diff] package. *)
Variable parseDiff : string -> list DiffFile.

(** [analyzeFirstCommit] *)
Definition analyzeFirstCommit (git : SimpleGit) (status : Status)
  : Async AnalysisResult :=
  let allFiles := st_files status in
  if Nat.eqb (List.length allFiles) 0 then
    ret (Unchanged {| n_message := no_changes_repository;
                      n_isFirstCommit := true;
                      n_mode := None;
                      n_analysisScope := first_commit_scope |})
  else
    categorization <- lift (categorizeFiles (map Some allFiles)) ;;
    diffOutput <- await QDiff (diff_plain git) ;;
    let parsedDiff := parseDiff diffOutput in
    let lineStats := calculateLineStats parsedDiff in
    ret (Changed
           {| a_isFirstCommit := true;
              a_mode := "all";
              a_analysisScope := first_commit_scope;
              a_changeTypes := {| modified := [];
                                  created := map Some allFiles;
                                  deleted := [];
                                  renamed := [] |};
              a_files := map Some allFiles;
              a_categorization := categorization;
              a_diff := diffOutput;
              a_lineStats := lineStats;
              a_parsedDiff := parsedDiff;
              a_summary := {| totalFiles := List.length allFiles;
                              sm_modified := 0;
                              sm_created := List.length allFiles;
                              sm_deleted := 0;
                              sm_renamed := 0;
                              linesAdded := additions lineStats;
                              linesDeleted := deletions lineStats;
                              linesChanged := total lineStats |} |}).

(** The [switch (mode)]: the diff text and the analysis scope. *)
Definition diffForMode (git : SimpleGit) (mode : string)
  : Async (string * string) :=
  if String.eqb mode "staged" then
    diffOutput <- await QDiffCachedHead (diff_cached_HEAD git) ;;
    ret (diffOutput, "staged changes")
  else if String.eqb mode "unstaged" then
    diffOutput <- await QDiffHead (diff_HEAD git) ;;
    ret (diffOutput, "unstaged changes")
  else
    stagedDiff <- await QDiffCachedHead (diff_cached_HEAD git) ;;
    unstagedDiff <- await QDiffHead (diff_HEAD git) ;;
    ret ((stagedDiff ++ newline ++ unstagedDiff)%string,
         "all changes since last commit").

(** [analyzeChanges]; [git] is [simpleGit(repoPath)] and [options_mode] is
    [options.mode], [None] when it is not given. *)
Definition analyzeChanges (git : SimpleGit) (options_mode : option string)
  : Async AnalysisResult :=
  let mode := match options_mode with Some m => m | None => "all" end in
  try_catch
    (isRepo <- await QCheckIsRepo (checkIsRepo git) ;;
     if negb isRepo then throw not_a_repository
     else
       hasHead <- checkHasHead git ;;
       statusOutput <- await QStatusPorcelain (raw_status_porcelain git) ;;
       status <- lift (parsePorcelainStatus statusOutput) ;;
       if negb hasHead then analyzeFirstCommit git status
       else
         scoped <- diffForMode git mode ;;
         let diffOutput := fst scoped in
         let analysisScope := snd scoped in
         let parsedDiff := parseDiff diffOutput in
         if Nat.eqb (List.length parsedDiff) 0 && is_empty (trim statusOutput)
         then
           ret (Unchanged {| n_message := no_changes_since;
                             n_isFirstCommit := false;
                             n_mode := Some mode;
                             n_analysisScope := analysisScope |})
         else
           let fileChanges := extractFileChanges parsedDiff status in
           let lineStats := calculateLineStats parsedDiff in
           categorization <- lift (categorizeFiles (allFiles fileChanges)) ;;
           let ct := changeTypes fileChanges in
           ret (Changed
                  {| a_isFirstCommit := false;
                     a_mode := mode;
                     a_analysisScope := analysisScope;
                     a_changeTypes := ct;
                     a_files := allFiles fileChanges;
                     a_categorization := categorization;
                     a_diff := diffOutput;
                     a_lineStats := lineStats;
                     a_parsedDiff := parsedDiff;
                     a_summary :=
                       {| totalFiles := List.length (allFiles fileChanges);
                          sm_modified := List.length (modified ct);
                          sm_created := List.length (created ct);
                          sm_deleted := List.length (deleted ct);
                          sm_renamed := List.length (renamed ct);
                          linesAdded := additions lineStats;
                          linesDeleted := deletions lineStats;
                          linesChanged := total lineStats |} |}))
    (fun message => throw (failed_prefix ++ message)%string).

End WithParseDiff.

End Analyzer.

(** ** lib/suggester.js *)

Module Suggester.

Import Analyzer.

Definition rbind {A B : Type} (r : result A) (k : A -> result B) : result B :=
  match r with
  | Ok a => k a
  | Throw e => Throw e
  end.

Declare Scope result_scope.
Delimit Scope result_scope with result.
Notation "x <- m ;; k" := (rbind m (fun x => k))
  (at level 61, m at next level, right associativity) : result_scope.
#[local] Open Scope result_scope.

(** [f.split(sep)] where [f] may be [undefined]. *)
Definition split_of (sep : string) (f : jsv) : result (list string) :=
  match f with
  | Some s => Ok (split sep s)
  | None => Throw (TypeError_undefined "split")
  end.

(** [files.map(body)] with a body that may throw. *)
Fixpoint map_result {A B : Type} (body : A -> result B) (l : list A)
  : result (list B) :=
  match l with
  | [] => Ok []
  | x :: r =>
      y <- body x ;;
      ys <- map_result body r ;;
      Ok (y :: ys)
  end.

(** [parts.pop()] as a value, on the non-empty result of a [split]. *)
Definition pop (parts : list string) : string := last parts "".

(** [name.split('.')[0]] *)
Definition beforeFirstDot (name : string) : string := hd "" (split "." name).

(** The [for] loop of [findCommonPath]: [parts] are the components of the
    first path still to be compared, from index [i] on. *)
Fixpoint commonParts (paths : list (list string)) (i : nat)
  (parts : list string) : list string :=
  match parts with
  | [] => []
  | part :: rest =>
      if forallb (fun p => match nth_error p i with
                           | Some x => String.eqb x part
                           | None => false
                           end) paths
      then part :: commonParts paths (S i) rest
      else []
  end.

(** [findCommonPath]; [None] is [null]. *)
Definition findCommonPath (files : list jsv) : result (option string) :=
  match files with
  | [] => Ok None
  | [f] =>
      parts <- split_of "/" f ;;
      let joined := join "/" (removelast parts) in
      Ok (Some (if is_empty joined then "." else joined))
  | _ =>
      paths <- map_result (split_of "/") files ;;
      let firstPath := hd [] paths in
      let common := commonParts paths 0 (removelast firstPath) in
      Ok (if Nat.ltb 0 (List.length common) then Some (join "/" common)
          else None)
  end.

(** [determineScope]; [None] is [null]. *)
Definition determineScope (files : list jsv) (categorization : Categorization)
  : result (option string) :=
  match files with
  | [f] =>
      parts <- split_of "/" f ;;
      Ok (Some (toLowerCase (beforeFirstDot (pop parts))))
  | _ =>
      commonPath <- findCommonPath files ;;
      let fromPath :=
        match commonPath with
        | Some c =>
            if negb (is_empty c) && negb (String.eqb c ".") then
              let parts := filter (fun p => negb (is_empty p)) (split "/" c) in
              if Nat.ltb 0 (List.length parts) then Some (pop parts) else None
            else None
        | None => None
        end in
      match fromPath with
      | Some s => Ok (Some s)
      | None =>
          let n := List.length files in
          if Nat.eqb (List.length (docs categorization)) n then Ok (Some "docs")
          else if Nat.eqb (List.length (test categorization)) n
               then Ok (Some "tests")
          else if Nat.eqb (List.length (config categorization)) n
               then Ok (Some "config")
          else Ok None
      end
  end.

(** [name.replace(/([A-Z])/g, ' $1')] *)
Definition is_upper_AZ (c : ascii) : bool :=
  let n := nat_of_ascii c in Nat.leb 65 n && Nat.leb n 90.

Fixpoint spaceBeforeCapitals (s : string) : string :=
  match s with
  | "" => ""
  | String c r =>
      if is_upper_AZ c then String " " (String c (spaceBeforeCapitals r))
      else String c (spaceBeforeCapitals r)
  end.

(** [s.split(/[-_\s]+/)]: [inSep] tells that the previous character was a
    separator, [cur] is the piece being read. *)
Definition is_separator (c : ascii) : bool :=
  Ascii.eqb c "-" || Ascii.eqb c "_" || is_white c.

Fixpoint splitSeparators (inSep : bool) (cur s : string) : list string :=
  match s with
  | "" => [cur]
  | String c r =>
      if is_separator c then
        if inSep then splitSeparators true cur r
        else cur :: splitSeparators true "" r
      else splitSeparators false (cur ++ String c "") r
  end.

Definition wordsOf (name : string) : list string :=
  map toLowerCase
    (filter (fun w => Nat.ltb 2 (String.length w))
       (splitSeparators false "" (spaceBeforeCapitals name))).

(** A value stored in [wordCount]: a number, or the string that [+ 1]
    builds from a value that is not a number. *)
Inductive Count : Type :=
| Num (n : nat)
| Text (s : string).

(** The own properties of [wordCount], in the order of their creation. *)
Definition WordCount : Type := list (string * Count).

Fixpoint own (wordCount : WordCount) (word : string) : option Count :=
  match wordCount with
  | [] => None
  | (w, c) :: r => if String.eqb w word then Some c else own r word
  end.

Fixpoint assign (wordCount : WordCount) (word : string) (c : Count)
  : WordCount :=
  match wordCount with
  | [] => [(word, c)]
  | (w, c') :: r =>
      if String.eqb w word then (w, c) :: r else (w, c') :: assign r word c
  end.

(** [String(Object)], the text of the function that [{}] inherits under
    the name [constructor]. *)
Definition Object_text : string := "function Object() { [native code] }".

(** A word is lower-case and contains no underscore, so [constructor] is
    the only property of [Object.prototype] it can name. *)
Definition inherited (word : string) : option Count :=
  if String.eqb word "constructor" then Some (Text Object_text) else None.

(** [wordCount[word] = (wordCount[word] || 0) + 1] *)
Definition countWord (wordCount : WordCount) (word : string) : WordCount :=
  let current :=
    match own wordCount word with
    | Some c => Some c
    | None => inherited word
    end in
  let next :=
    match current with
    | None => Num 1
    | Some (Num n) => Num (n + 1)
    | Some (Text s) => if is_empty s then Num 1 else Text (s ++ "1")
    end in
  assign wordCount word next.

(** Array indices: canonical decimal numerals below 2^32 - 1.  They come
    first, in ascending order, in [Object.entries]. *)
Definition is_digit (c : ascii) : bool :=
  let n := nat_of_ascii c in Nat.leb 48 n && Nat.leb n 57.

Fixpoint all_digits (s : string) : bool :=
  match s with
  | "" => true
  | String c r => is_digit c && all_digits r
  end.

Fixpoint decimal (acc : N) (s : string) : N :=
  match s with
  | "" => acc
  | String c r => decimal (acc * 10 + (N_of_ascii c - 48))%N r
  end.

Definition arrayIndex (key : string) : option N :=
  match key with
  | "" => None
  | String c r =>
      if all_digits key && (negb (Ascii.eqb c "0") || is_empty r)
         && N.ltb (decimal 0 key) 4294967295
      then Some (decimal 0 key) else None
  end.

Fixpoint insertIndexed (i : N) (e : string * Count)
  (l : list (N * (string * Count))) : list (N * (string * Count)) :=
  match l with
  | [] => [(i, e)]
  | (j, e') :: r =>
      if N.leb i j then (i, e) :: l else (j, e') :: insertIndexed i e r
  end.

Fixpoint indexedEntries (wordCount : WordCount) : list (N * (string * Count)) :=
  match wordCount with
  | [] => []
  | (w, c) :: r =>
      match arrayIndex w with
      | Some i => insertIndexed i (w, c) (indexedEntries r)
      | None => indexedEntries r
      end
  end.

(** [Object.entries(wordCount)] *)
Definition entries (wordCount : WordCount) : list (string * Count) :=
  map snd (indexedEntries wordCount)
  ++ filter (fun e => match arrayIndex (fst e) with
                      | Some _ => false
                      | None => true
                      end) wordCount.

(** The loop that selects the most common word; the state is
    [(maxCount, commonWord)].  A count that is not a number compares false. *)
Definition selectWord (acc : nat * option string) (e : string * Count)
  : nat * option string :=
  match snd e with
  | Num count =>
      if Nat.ltb (fst acc) count && Nat.ltb 1 count
      then (count, Some (fst e)) else acc
  | Text _ => acc
  end.

(** [inferFeatureFromFiles]; [None] is [null]. *)
Definition inferFeatureFromFiles (files : list jsv) : result (option string) :=
  match files with
  | [] => Ok None
  | _ =>
      fileNames <- map_result
                     (fun f => parts <- split_of "/" f ;;
                               Ok (beforeFirstDot (pop parts))) files ;;
      let words := flat_map wordsOf fileNames in
      let wordCount := fold_left countWord words [] in
      Ok (snd (fold_left selectWord (entries wordCount) (0, None)))
  end.

(** [array.includes(x)] *)
Definition array_includes (l : list jsv) (x : jsv) : bool :=
  existsb (jsv_eqb x) l.

(** The part of [generateDescription] after the single-file case. *)
Definition describeMany (categorization : Categorization)
  (changeTypes : ChangeTypes) (files : list jsv) : result string :=
  let n_docs := List.length (docs categorization) in
  let n_test := List.length (test categorization) in
  let n_config := List.length (config categorization) in
  let n_style := List.length (style categorization) in
  let n_source := List.length (source categorization) in
  let n_created := List.length (created changeTypes) in
  let n_modified := List.length (modified changeTypes) in
  let n_deleted := List.length (deleted changeTypes) in
  let mixed :=
    if Nat.leb (List.length files) 3 then "update project files"
    else "update multiple components" in
  if Nat.ltb 0 n_docs && Nat.eqb n_source 0 && Nat.eqb n_test 0
  then Ok "update documentation"
  else if Nat.ltb 0 n_test && Nat.eqb n_source 0 then
    if Nat.ltb 0 n_created then Ok "add tests" else Ok "update tests"
  else if Nat.ltb 0 n_config && Nat.eqb n_source 0 && Nat.eqb n_test 0
  then Ok "update configuration"
  else if Nat.ltb 0 n_style && Nat.eqb n_source 0 then Ok "update styles"
  else if Nat.ltb 0 n_source then
    if Nat.ltb n_modified n_created then
      mainFeature <- inferFeatureFromFiles (created changeTypes) ;;
      match mainFeature with
      | Some w => Ok ("add " ++ w)%string
      | None => Ok "add new features"
      end
    else if Nat.ltb 0 n_modified then
      mainFeature <- inferFeatureFromFiles (modified changeTypes) ;;
      match mainFeature with
      | Some w => Ok ("update " ++ w)%string
      | None => Ok "update implementation"
      end
    else if Nat.ltb 0 n_deleted then Ok "remove deprecated code"
    else Ok mixed
  else Ok mixed.

(** [generateDescription] *)
Definition generateDescription (categorization : Categorization)
  (changeTypes : ChangeTypes) (files : list jsv) : result string :=
  match files with
  | [file] =>
      parts <- split_of "/" file ;;
      let fileName := pop parts in
      if array_includes (created changeTypes) file
      then Ok ("add " ++ fileName)%string
      else if array_includes (deleted changeTypes) file
      then Ok ("remove " ++ fileName)%string
      else if array_includes (modified changeTypes) file
      then Ok ("update " ++ fileName)%string
      else describeMany categorization changeTypes files
  | _ => describeMany categorization changeTypes files
  end.

(** [generateCommitMessage]; [Ok None] is the returned [null]. *)
Definition generateCommitMessage (analysis : AnalysisResult)
  : result (option string) :=
  match analysis with
  | Unchanged _ => Ok None
  | Changed a =>
      let categorization := a_categorization a in
      let changeTypes := a_changeTypes a in
      let files := a_files a in
      let commitType := determinePrimaryType categorization changeTypes in
      scope <- determineScope files categorization ;;
      description <- generateDescription categorization changeTypes files ;;
      let message :=
        match scope with
        | Some s =>
            if is_empty s then commitType
            else (commitType ++ "(" ++ s ++ ")")%string
        | None => commitType
        end in
      Ok (Some (message ++ ": " ++ description)%string)
  end.

End Suggester.

(** ** Quantities and predicates of the statements *)

Module Spec.

Import Analyzer.

(** The number of changes of type [tag] in the chunks of one file. *)
Definition taggedInFile (tag : string) (file : DiffFile) : nat :=
  match f_chunks file with
  | Some chunks =>
      list_sum
        (map (fun chunk =>
                List.length
                  (filter (fun change => String.eqb (c_type change) tag)
                     (changes chunk))) chunks)
  | None => 0
  end.

(** The lines tagged as pure additions, respectively pure deletions, across
    all hunks of a parsed diff. *)
Definition taggedAdditions (parsedDiff : list DiffFile) : nat :=
  list_sum (map (taggedInFile "add") parsedDiff).

Definition taggedDeletions (parsedDiff : list DiffFile) : nat :=
  list_sum (map (taggedInFile "del") parsedDiff).

(** The sum over the files of their per-file additions and deletions. *)
Definition fileLevel (field : DiffFile -> option nat) (parsedDiff : list DiffFile)
  : nat :=
  list_sum (map (fun file => match field file with
                             | Some n => n
                             | None => 0
                             end) parsedDiff).

Definition perFileTotal (parsedDiff : list DiffFile) : nat :=
  fileLevel f_additions parsedDiff + fileLevel f_deletions parsedDiff.

(** A record as [parse-diff] builds it: the per-file counters are the
    numbers of tagged lines of its chunks. *)
Definition consistentFile (file : DiffFile) : Prop :=
  (exists chunks, f_chunks file = Some chunks)
  /\ f_additions file = Some (taggedInFile "add" file)
  /\ f_deletions file = Some (taggedInFile "del" file).

(** Membership of a path in a bucket, and the number of buckets of a
    categorization that hold a path. *)
Definition holds (bucket : list string) (path : string) : bool :=
  existsb (String.eqb path) bucket.

Definition bucketsHolding (c : Categorization) (path : string) : nat :=
  (if holds (docs c) path then 1 else 0)
  + (if holds (test c) path then 1 else 0)
  + (if holds (config c) path then 1 else 0)
  + (if holds (style c) path then 1 else 0)
  + (if holds (source c) path then 1 else 0).

(** The [message] property of the outcome of an analysis, when it has one. *)
Definition messageOf (outcome : result AnalysisResult * list Query)
  : option string :=
  match fst outcome with
  | Ok (Unchanged n) => Some (n_message n)
  | _ => None
  end.

(** The analysis scope that goes with a mode. *)
Definition scopeLabel (mode : string) : string :=
  if String.eqb mode "staged" then "staged changes"
  else if String.eqb mode "unstaged" then "unstaged changes"
  else "all changes since last commit".

(** The queries a run with a HEAD issues for a mode. *)
Definition queriesFor (mode : string) : list Query :=
  [QCheckIsRepo; QRevParseHead; QStatusPorcelain]
  ++ (if String.eqb mode "staged" then [QDiffCachedHead]
      else if String.eqb mode "unstaged" then [QDiffHead]
      else [QDiffCachedHead; QDiffHead]).

(** The five buckets, and the bucket the cascade of [categorizeFiles]
    selects for a path. *)
Inductive Bucket : Type := Docs | Test | Config | Style | Source.

Definition Bucket_eqb (a b : Bucket) : bool :=
  match a, b with
  | Docs, Docs | Test, Test | Config, Config | Style, Style
  | Source, Source => true
  | _, _ => false
  end.

Definition bucket (c : Categorization) (b : Bucket) : list string :=
  match b with
  | Docs => docs c
  | Test => test c
  | Config => config c
  | Style => style c
  | Source => source c
  end.

Definition bucketOf (file : string) : Bucket :=
  let fileLower := toLowerCase file in
  if matches CONFIG.filePatterns_docs fileLower then Docs
  else if matches CONFIG.filePatterns_test fileLower then Test
  else if matches CONFIG.filePatterns_config fileLower then Config
  else if matches CONFIG.filePatterns_style fileLower then Style
  else Source.

(** The strings of a list of strings-or-undefined. *)
Fixpoint strings (l : list jsv) : list string :=
  match l with
  | [] => []
  | Some s :: r => s :: strings r
  | None :: r => strings r
  end.

Definition isString (v : jsv) : Prop := exists s, v = Some s.

(** The path a line of the status listing names: the text after the two
    status characters and the blank, and for a line with a rename arrow the
    new path.  Lines of fewer than four characters name no path. *)
Definition listedPath (line : string) : option string :=
  if Nat.ltb (String.length line) 4 then None
  else if includes line " -> " then
    match split " -> " (trim (slice 3 line)) with
    | _ :: newPath :: _ => Some (trim newPath)
    | _ => None
    end
  else Some (trim (slice 3 line)).

(** A value is listed when one of the lists [modified], [created] and
    [deleted] holds it; the lists are covered when every listed value is in
    [allFiles]. *)
Definition listed (acc : FileChanges) (v : jsv) : Prop :=
  In v (modified (changeTypes acc))
  \/ In v (created (changeTypes acc))
  \/ In v (deleted (changeTypes acc)).

Definition covered (acc : FileChanges) : Prop :=
  forall v, listed acc v -> In v (allFiles acc).

(** Where a result with [hasChanges: true] comes from: the first-commit
    branch, or the merge of a parsed diff with a parsed status. *)
Definition fromFirstCommit (a : Changes) : Prop :=
  exists status,
    a_isFirstCommit a = true
    /\ a_files a = map Some (st_files status)
    /\ a_changeTypes a = {| modified := [];
                            created := map Some (st_files status);
                            deleted := [];
                            renamed := [] |}.

Definition fromDiff (a : Changes) : Prop :=
  exists parsedDiff status,
    a_isFirstCommit a = false
    /\ a_parsedDiff a = parsedDiff
    /\ a_files a = allFiles (extractFileChanges parsedDiff status)
    /\ a_changeTypes a = changeTypes (extractFileChanges parsedDiff status).

(** Every step of [extractFileChanges] keeps the entries of [modified] and
    may add some at the end. *)
Definition extendsModified (acc acc' : FileChanges) : Prop :=
  exists extra,
    modified (changeTypes acc') = modified (changeTypes acc) ++ extra.

(** A record is plain when none of the flags [deleted], [new] and [renamed]
    is set: the diff loop then files its path under [modified]. *)
Definition plain (file : DiffFile) (path : string) : Prop :=
  f_deleted file = false /\ f_new file = false /\ f_renamed file = false
  /\ js_or (f_to file) (f_from file) = Some path.

(** The number of times a path occurs in a list of strings-or-undefined. *)
Definition occurrences (path : string) (l : list jsv) : nat :=
  List.length (filter (jsv_eqb (Some path)) l).

End Spec.

(** ** Sample inputs *)

Module Sample.

(** The answers of [parse-diff] given as a table: a blank text parses to no
    file, a listed text to its records, any other text to no file. *)
Fixpoint lookupText (table : list (string * list DiffFile)) (input : string)
  : list DiffFile :=
  match table with
  | [] => []
  | (text, parsed) :: r =>
      if String.eqb text input then parsed else lookupText r input
  end.

Definition parseDiffTable (table : list (string * list DiffFile))
  (input : string) : list DiffFile :=
  if is_empty (trim input) then [] else lookupText table input.

(** A repository with one commit and a clean working tree. *)
Definition clean : SimpleGit :=
  {| checkIsRepo := Ok true;
     raw_rev_parse_HEAD := Ok "9fceb02d0ae598e95dc970b74767f19372d61af8";
     raw_status_porcelain := Ok "";
     diff_cached_HEAD := Ok "";
     diff_HEAD := Ok "";
     diff_plain := Ok "" |}.

(** A directory that is not a repository: every other query rejects. *)
Definition fatal : string :=
  "fatal: not a git repository (or any of the parent directories): .git".

Definition outside : SimpleGit :=
  {| checkIsRepo := Ok false;
     raw_rev_parse_HEAD := Throw fatal;
     raw_status_porcelain := Throw fatal;
     diff_cached_HEAD := Throw fatal;
     diff_HEAD := Throw fatal;
     diff_plain := Throw fatal |}.

(** One tracked file modified in the working tree, nothing staged. *)
Definition appDiff : string :=
  "diff --git a/src/app.js b/src/app.js" ++ newline
  ++ "index 83db48f..bf269f4 100644" ++ newline
  ++ "--- a/src/app.js" ++ newline
  ++ "+++ b/src/app.js" ++ newline
  ++ "@@ -1,0 +2 @@" ++ newline
  ++ "+const ready = true;" ++ newline.

Definition appFile : DiffFile :=
  {| f_chunks := Some [ {| changes := [ {| c_type := "add";
                                           c_content := "+const ready = true;" |} ] |} ];
     f_additions := Some 1;
     f_deletions := Some 0;
     f_from := Some "src/app.js";
     f_to := Some "src/app.js";
     f_new := false;
     f_deleted := false;
     f_renamed := false |}.

Definition unstagedOnly : SimpleGit :=
  {| checkIsRepo := Ok true;
     raw_rev_parse_HEAD := Ok "9fceb02d0ae598e95dc970b74767f19372d61af8";
     raw_status_porcelain := Ok (" M src/app.js" ++ newline)%string;
     diff_cached_HEAD := Ok "";
     diff_HEAD := Ok appDiff;
     diff_plain := Ok appDiff |}.

(** The same file staged: it shows in the index diff and in the working
    tree diff against HEAD. *)
Definition stagedApp : SimpleGit :=
  {| checkIsRepo := Ok true;
     raw_rev_parse_HEAD := Ok "9fceb02d0ae598e95dc970b74767f19372d61af8";
     raw_status_porcelain := Ok ("M  src/app.js" ++ newline)%string;
     diff_cached_HEAD := Ok appDiff;
     diff_HEAD := Ok appDiff;
     diff_plain := Ok "" |}.

Definition appTable : list (string * list DiffFile) :=
  [ (appDiff, [appFile]);
    ((appDiff ++ newline ++ appDiff)%string, [appFile; appFile]) ].

(** A type change of a tracked file, staged. *)
Definition typeChange : string := "T  src/app.js" ++ newline.

(** A repository without commits: two files added to the index. *)
Definition fresh : SimpleGit :=
  {| checkIsRepo := Ok true;
     raw_rev_parse_HEAD :=
       Throw "fatal: ambiguous argument 'HEAD': unknown revision or path not in the working tree.";
     raw_status_porcelain :=
       Ok ("A  README.md" ++ newline ++ "AM src/app.js" ++ newline)%string;
     diff_cached_HEAD := Throw "fatal: bad revision 'HEAD'";
     diff_HEAD := Throw "fatal: bad revision 'HEAD'";
     diff_plain := Ok appDiff |}.

End Sample.

(** ** lib/analyzer.js: the summary line *)

Module Summarizer.

(** [`${n}`] for a count. *)
Definition decimal (n : nat) : string :=
  DecimalString.NilZero.string_of_uint (Nat.to_uint n).

(** The entries of [parts]: a count is listed when it is positive. *)
Definition countPart (n : nat) (label : string) : list string :=
  if Nat.ltb 0 n then [decimal n ++ " " ++ label]%string else [].

Definition linePart (sign : string) (n : nat) : list string :=
  if Nat.ltb 0 n then [sign ++ decimal n]%string else [].

(** [getChangeSummary]; the line counters of a result object are always
    defined, so the test on [undefined] is passed. *)
Definition getChangeSummary (analysis : AnalysisResult) : string :=
  match analysis with
  | Unchanged n => n_message n
  | Changed a =>
      let summary := a_summary a in
      let parts :=
        countPart (sm_created summary) "created"
        ++ countPart (sm_modified summary) "modified"
        ++ countPart (sm_deleted summary) "deleted"
        ++ countPart (sm_renamed summary) "renamed" in
      let result :=
        (decimal (totalFiles summary) ++ " file(s) changed: "
         ++ join ", " parts)%string in
      let linesParts :=
        linePart "+" (linesAdded summary) ++ linePart "-" (linesDeleted summary) in
      if Nat.ltb 0 (List.length linesParts)
      then (result ++ " (" ++ join ", " linesParts ++ ")")%string
      else result
  end.

End Summarizer.

(** ** lib/suggester.js: the alternatives *)

Module Alternatives.

Import Analyzer Suggester.

#[local] Open Scope result_scope.

(** A [Set] of strings in insertion order, built from an array. *)
Definition string_set_add (s : list string) (x : string) : list string :=
  if existsb (String.eqb x) s then s else push s x.

Definition unique (messages : list string) : list string :=
  fold_left string_set_add messages [].

(** [generateAlternatives]; on a result without changes the destructuring
    is not reached. *)
Definition generateAlternatives (analysis : AnalysisResult)
  : result (list string) :=
  primary <- generateCommitMessage analysis ;;
  match primary, analysis with
  | Some primary, Changed a =>
      if is_empty primary then Ok (unique [])
      else
        let categorization := a_categorization a in
        let changeTypes := a_changeTypes a in
        let files := a_files a in
        let commitType := determinePrimaryType categorization changeTypes in
        desc <- generateDescription categorization changeTypes files ;;
        let messages := [primary; (commitType ++ ": " ++ desc)%string] in
        let messages :=
          if Nat.ltb 1 (List.length files)
          then push messages
                 (commitType ++ ": update "
                  ++ Summarizer.decimal (List.length files) ++ " files")%string
          else messages in
        Ok (unique messages)
  | _, _ => Ok (unique [])
  end.

End Alternatives.

(** ** lib/runner.js *)

Module Runner.

(** The commands the runner sends to the tool, with their arguments. *)
Inductive Command : Type :=
| CCheckIsRepo                         (* git.checkIsRepo() *)
| CAdd                                 (* git.add('.') *)
| CCommit (message : string)           (* git.commit(message) *)
| CStatus                              (* git.status() *)
| CGetRemotes (verbose : bool)         (* git.getRemotes(), git.getRemotes(true) *)
| CPush (branch : option string)       (* git.push('origin', branch) *)
| CPushUpstream (branch : option string). (* git.push(['-u', 'origin', branch]) *)

(** The part of a [StatusResult] the runner reads; [current] is a branch
    name or [null].  [isInMerge] and [isRebasing] are the truthiness of
    the properties of these names as [checkForConflicts] reads them: the
    [StatusResult] of simple-git defines neither, so that both are [false]
    in a status that comes from it. *)
Record StatusResult : Type := {
  current : option string;
  tracking : option string;
  ahead : nat;
  behind : nat;
  conflicted : list string;
  isInMerge : bool;
  isRebasing : bool
}.

Record CommitSummary : Type := {
  cs_changes : nat;
  cs_insertions : nat;
  cs_deletions : nat
}.

Record CommitResult : Type := {
  cr_commit : string;
  cr_summary : CommitSummary
}.

(** A remote with its [refs]; a remote listed without [verbose] has none. *)
Record Remote : Type := {
  rm_name : string;
  rm_refs : option (string * string)      (* (fetch, push) *)
}.

(** The tool: the answer to a command may depend on the commands sent
    before it. *)
Record Git : Type := {
  g_checkIsRepo : list Command -> result bool;
  g_add : list Command -> result unit;
  g_commit : list Command -> string -> result CommitResult;
  g_status : list Command -> result StatusResult;
  g_getRemotes : list Command -> bool -> result (list Remote);
  g_push : list Command -> option string -> result unit;
  g_pushUpstream : list Command -> option string -> result unit
}.

(** An [async] computation of the runner over the log of commands. *)
Definition Flow (A : Type) : Type := list Command -> result A * list Command.

Definition ret {A : Type} (a : A) : Flow A := fun log => (Ok a, log).

Definition throw {A : Type} (message : string) : Flow A :=
  fun log => (Throw message, log).

Definition bind {A B : Type} (m : Flow A) (k : A -> Flow B) : Flow B :=
  fun log =>
    match m log with
    | (Ok a, log') => k a log'
    | (Throw e, log') => (Throw e, log')
    end.

(** [await] of one command: the tool answers from the log so far. *)
Definition await {A : Type} (c : Command) (answer : list Command -> result A)
  : Flow A :=
  fun log => (answer log, log ++ [c]).

Definition try_catch {A : Type} (m : Flow A) (handler : string -> Flow A)
  : Flow A :=
  fun log =>
    match m log with
    | (Ok a, log') => (Ok a, log')
    | (Throw e, log') => handler e log'
    end.

Declare Scope flow_scope.
Delimit Scope flow_scope with flow.
Notation "x <- m ;; k" := (bind m (fun x => k))
  (at level 61, m at next level, right associativity) : flow_scope.
#[local] Open Scope flow_scope.

(** [`${branch}`]: [null] prints as the text null. *)
Definition branchText (branch : option string) : string :=
  match branch with
  | Some b => b
  | None => "null"
  end.

Record AddResult : Type := { ad_success : bool; ad_message : string }.

Record CommitOutcome : Type := {
  co_success : bool;
  co_message : string;
  co_hash : string;
  co_summary : CommitSummary
}.

(** [results.push]; [skipped], [branch] and [error] are present in some of
    the outcomes only ([ps_skipped = false] stands for absent). *)
Record PushOutcome : Type := {
  ps_success : bool;
  ps_skipped : bool;
  ps_message : string;
  ps_branch : option (option string);
  ps_error : option string
}.

(** The [results] object; [None] is [null]. *)
Record Results : Type := {
  r_add : option AddResult;
  r_commit : option CommitOutcome;
  r_push : option PushOutcome;
  r_errors : list string
}.

Definition staged : AddResult :=
  {| ad_success := true; ad_message := "Successfully staged all changes" |}.

Definition committed (commitResult : CommitResult) : CommitOutcome :=
  {| co_success := true;
     co_message := "Successfully created commit";
     co_hash := cr_commit commitResult;
     co_summary := cr_summary commitResult |}.

(** Step 3 of [executeGitWorkflow], the [try] block: the push outcome, or
    the exception the [catch] block receives. *)
Definition tryPush (git : Git) : Flow PushOutcome :=
  status <- await CStatus (g_status git) ;;
  let currentBranch := current status in
  remotes <- await (CGetRemotes false) (fun log => g_getRemotes git log false) ;;
  if Nat.eqb (List.length remotes) 0 then
    ret {| ps_success := false;
           ps_skipped := true;
           ps_message :=
             "No remote repository configured. Commit created but not pushed.";
           ps_branch := None;
           ps_error := None |}
  else
    _ <- await (CPush currentBranch)
           (fun log => g_push git log currentBranch) ;;
    ret {| ps_success := true;
           ps_skipped := false;
           ps_message :=
             ("Successfully pushed to origin/" ++ branchText currentBranch)%string;
           ps_branch := Some currentBranch;
           ps_error := None |}.

(** Step 3, the [catch] block: the push outcome and the entries it adds to
    [results.errors]; a rejected [status] query leaves the block. *)
Definition pushFailed (git : Git) (errorMsg : string)
  : Flow (PushOutcome * list string) :=
  if includes errorMsg "no upstream" || includes errorMsg "set-upstream" then
    status <- await CStatus (g_status git) ;;
    let currentBranch := current status in
    try_catch
      (_ <- await (CPushUpstream currentBranch)
              (fun log => g_pushUpstream git log currentBranch) ;;
       ret ({| ps_success := true;
               ps_skipped := false;
               ps_message :=
                 ("Successfully pushed and set upstream to origin/"
                  ++ branchText currentBranch)%string;
               ps_branch := Some currentBranch;
               ps_error := None |}, []))
      (fun upstreamError =>
         ret ({| ps_success := false;
                 ps_skipped := false;
                 ps_message :=
                   "Commit created but push failed. You may need to set upstream or check authentication.";
                 ps_branch := None;
                 ps_error := Some upstreamError |},
              [("Failed to push: " ++ upstreamError)%string]))
  else
    ret ({| ps_success := false;
            ps_skipped := false;
            ps_message := "Commit created but push failed.";
            ps_branch := None;
            ps_error := Some errorMsg |},
         [("Failed to push: " ++ errorMsg)%string]).

(** [executeGitWorkflow]; [git] is [simpleGit(repoPath)].  The outer
    [catch] rethrows what it receives. *)
Definition executeGitWorkflow (git : Git) (commitMessage : string)
  : Flow Results :=
  try_catch
    (_ <- try_catch (await CAdd (g_add git))
            (fun message => throw ("Failed to stage changes: " ++ message)%string) ;;
     commitResult <-
       try_catch
         (await (CCommit commitMessage)
            (fun log => g_commit git log commitMessage))
         (fun message => throw ("Failed to commit changes: " ++ message)%string) ;;
     pushed <- try_catch
                 (outcome <- tryPush git ;; ret (outcome, []))
                 (pushFailed git) ;;
     ret {| r_add := Some staged;
            r_commit := Some (committed commitResult);
            r_push := Some (fst pushed);
            r_errors := snd pushed |})
    (fun message => throw message).

(** The object returned by [checkForConflicts]; [type] and [files] are
    present in some of the outcomes only. *)
Record ConflictCheck : Type := {
  hasConflicts : bool;
  cc_type : option string;
  cc_files : option (list string);
  cc_message : string
}.

(** [checkForConflicts] *)
Definition checkForConflicts (git : Git) : Flow ConflictCheck :=
  try_catch
    (status <- await CStatus (g_status git) ;;
     if Nat.ltb 0 (List.length (conflicted status)) then
       ret {| hasConflicts := true;
              cc_type := Some "merge";
              cc_files := Some (conflicted status);
              cc_message :=
                "You have unresolved merge conflicts. Please resolve them before committing." |}
     else if isInMerge status then
       ret {| hasConflicts := true;
              cc_type := Some "merge";
              cc_files := None;
              cc_message :=
                "Git merge in progress. Complete or abort the merge before using SmartGit." |}
     else if isRebasing status then
       ret {| hasConflicts := true;
              cc_type := Some "rebase";
              cc_files := None;
              cc_message :=
                "Git rebase in progress. Complete or abort the rebase before using SmartGit." |}
     else
       ret {| hasConflicts := false;
              cc_type := None;
              cc_files := None;
              cc_message := "No conflicts detected." |})
    (fun message => throw ("Failed to check for conflicts: " ++ message)%string).

Record RemoteInfo : Type := { ri_name : string; ri_url : string }.

Record BranchInfo : Type := {
  bi_current : option string;
  bi_tracking : option string;
  bi_ahead : nat;
  bi_behind : nat;
  bi_remotes : list RemoteInfo
}.

(** The body of [remotes.map]: [r.refs.push || r.refs.fetch] throws when
    [r.refs] is [undefined]. *)
Definition remoteInfo (r : Remote) : result RemoteInfo :=
  match rm_refs r with
  | Some (fetch, pushUrl) =>
      Ok {| ri_name := rm_name r;
            ri_url := if is_empty pushUrl then fetch else pushUrl |}
  | None => Throw (TypeError_undefined "push")
  end.

(** [getBranchInfo] *)
Definition getBranchInfo (git : Git) : Flow BranchInfo :=
  try_catch
    (status <- await CStatus (g_status git) ;;
     remotes <- await (CGetRemotes true) (fun log => g_getRemotes git log true) ;;
     infos <- (fun log => (Suggester.map_result remoteInfo remotes, log)) ;;
     ret {| bi_current := current status;
            bi_tracking := tracking status;
            bi_ahead := ahead status;
            bi_behind := behind status;
            bi_remotes := infos |})
    (fun message => throw ("Failed to get branch info: " ++ message)%string).

(** The object returned by [dryRun]. *)
Inductive DryRun : Type :=
| Invalid (error : string)
| Valid (status : StatusResult) (branchInfo : BranchInfo).

(** [dryRun] *)
Definition dryRun (git : Git) : Flow DryRun :=
  try_catch
    (isRepo <- await CCheckIsRepo (g_checkIsRepo git) ;;
     if negb isRepo then ret (Invalid "Not a git repository")
     else
       status <- await CStatus (g_status git) ;;
       conflictCheck <- checkForConflicts git ;;
       if hasConflicts conflictCheck
       then ret (Invalid (cc_message conflictCheck))
       else
         branchInfo <- getBranchInfo git ;;
         ret (Valid status branchInfo))
    (fun message => ret (Invalid message)).

End Runner.

(** ** Sample tools for the runner *)

Module RunnerSample.

Import Runner.

Definition onMain : StatusResult :=
  {| current := Some "main";
     tracking := Some "origin/main";
     ahead := 1;
     behind := 0;
     conflicted := [];
     isInMerge := false;
     isRebasing := false |}.

Definition origin (verbose : bool) : Remote :=
  {| rm_name := "origin";
     rm_refs := if verbose
                then Some ("https://github.com/user/repo.git",
                           "https://github.com/user/repo.git")
                else None |}.

(** A repository in which every command succeeds. *)
Definition working : Git :=
  {| g_checkIsRepo := fun _ => Ok true;
     g_add := fun _ => Ok tt;
     g_commit := fun _ _ =>
       Ok {| cr_commit := "a1b2c3d";
             cr_summary := {| cs_changes := 1; cs_insertions := 1;
                              cs_deletions := 0 |} |};
     g_status := fun _ => Ok onMain;
     g_getRemotes := fun _ verbose => Ok [origin verbose];
     g_push := fun _ _ => Ok tt;
     g_pushUpstream := fun _ _ => Ok tt |}.

(** The same repository with a locked index: [add] is rejected. *)
Definition locked : Git :=
  {| g_checkIsRepo := g_checkIsRepo working;
     g_add := fun _ => Throw "fatal: Unable to create '.git/index.lock': File exists.";
     g_commit := g_commit working;
     g_status := g_status working;
     g_getRemotes := g_getRemotes working;
     g_push := g_push working;
     g_pushUpstream := g_pushUpstream working |}.

End RunnerSample.

(** ** The process: [CONFIG], the tool and two calls in a row *)

(** Between two calls of [analyzeChanges] in one process, two things
    persist: the module-level object [CONFIG], which [categorizeFiles] reads
    and which any code of the process could write, and the tool with the
    history of the queries it has been sent.  This module runs the analyzer
    over both. *)
Module Process.

Import Analyzer.

Record CommitType : Type := {
  keywords : list string;
  description : string
}.

(** The object [CONFIG] of [lib/config.js]. *)
Record Config : Type := {
  commitTypes : list (string * CommitType);
  filePatterns_docs : list string;
  filePatterns_test : list string;
  filePatterns_config : list string;
  filePatterns_style : list string;
  maxFilesToShow : nat;
  defaultCommitType : string;
  defaultCommitMessage : string
}.

(** [CONFIG] as the module defines it. *)
Definition initial : Config :=
  {| commitTypes :=
       [ ("feat", {| keywords := ["add"; "create"; "new"; "implement"; "feature"];
                     description := "A new feature" |});
         ("fix", {| keywords := ["fix"; "bug"; "issue"; "resolve"; "patch";
                                 "correct"];
                    description := "A bug fix" |});
         ("refactor", {| keywords := ["refactor"; "restructure"; "rewrite";
                                      "improve"; "optimize"; "clean"];
                         description := "Code refactoring" |});
         ("docs", {| keywords := ["doc"; "readme"; "comment"; "documentation"];
                     description := "Documentation changes" |});
         ("test", {| keywords := ["test"; "spec"; "jest"; "mocha"; "cypress"];
                     description := "Test files" |});
         ("style", {| keywords := ["style"; "format"; "prettier"; "eslint";
                                   "lint"];
                      description := "Code style changes" |});
         ("chore", {| keywords := ["chore"; "config"; "package"; "dependency";
                                   "build"; "ci"];
                      description := "Build process or auxiliary tool changes" |}) ];
     filePatterns_docs := CONFIG.filePatterns_docs;
     filePatterns_test := CONFIG.filePatterns_test;
     filePatterns_config := CONFIG.filePatterns_config;
     filePatterns_style := CONFIG.filePatterns_style;
     maxFilesToShow := 10;
     defaultCommitType := "chore";
     defaultCommitMessage := "update project files" |}.

(** The tool: the answer to a query may depend on the queries sent
    before it. *)
Record Tool : Type := {
  t_checkIsRepo : list Query -> result bool;
  t_rev_parse_HEAD : list Query -> result string;
  t_status_porcelain : list Query -> result string;
  t_diff_cached_HEAD : list Query -> result string;
  t_diff_HEAD : list Query -> result string;
  t_diff_plain : list Query -> result string
}.

(** What persists from one call to the next. *)
Record World : Type := {
  w_config : Config;
  w_sent : list Query
}.

(** A computation of the process: it may read and write the world, and
    ends in a value or an exception; an exception keeps the changes made
    before it. *)
Definition Run (A : Type) : Type := World -> result A * World.

Definition ret {A : Type} (a : A) : Run A := fun w => (Ok a, w).

Definition throw {A : Type} (message : string) : Run A :=
  fun w => (Throw message, w).

Definition bind {A B : Type} (m : Run A) (k : A -> Run B) : Run B :=
  fun w =>
    match m w with
    | (Ok a, w') => k a w'
    | (Throw e, w') => (Throw e, w')
    end.

Definition try_catch {A : Type} (m : Run A) (handler : string -> Run A)
  : Run A :=
  fun w =>
    match m w with
    | (Ok a, w') => (Ok a, w')
    | (Throw e, w') => handler e w'
    end.

Definition lift {A : Type} (r : result A) : Run A := fun w => (r, w).

(** [await] of one query: the tool answers from the queries sent so far,
    and the query joins them. *)
Definition await {A : Type} (q : Query) (answer : list Query -> result A)
  : Run A :=
  fun w =>
    (answer (w_sent w), {| w_config := w_config w; w_sent := w_sent w ++ [q] |}).

(** A read of [CONFIG]. *)
Definition readConfig : Run Config := fun w => (Ok (w_config w), w).

Declare Scope run_scope.
Delimit Scope run_scope with run.
Notation "x <- m ;; k" := (bind m (fun x => k))
  (at level 61, m at next level, right associativity) : run_scope.
#[local] Open Scope run_scope.

(** [for (const x of l) body] in the process. *)
Fixpoint for_each {A S : Type} (body : S -> A -> Run S) (l : list A) (s : S)
  : Run S :=
  match l with
  | [] => ret s
  | x :: r => s' <- body s x ;; for_each body r s'
  end.

(** The body of the loop of [categorizeFiles]: each test reads the
    patterns from [CONFIG] when it is reached. *)
Definition categorizeFile (categories : Categorization) (file : jsv)
  : Run Categorization :=
  match file with
  | None => throw (TypeError_undefined "toLowerCase")
  | Some file =>
      let fileLower := toLowerCase file in
      cfg <- readConfig ;;
      if matches (filePatterns_docs cfg) fileLower then
        ret {| docs := push (docs categories) file; test := test categories;
               config := config categories; style := style categories;
               source := source categories |}
      else
        cfg <- readConfig ;;
        if matches (filePatterns_test cfg) fileLower then
          ret {| docs := docs categories; test := push (test categories) file;
                 config := config categories; style := style categories;
                 source := source categories |}
        else
          cfg <- readConfig ;;
          if matches (filePatterns_config cfg) fileLower then
            ret {| docs := docs categories; test := test categories;
                   config := push (config categories) file;
                   style := style categories; source := source categories |}
          else
            cfg <- readConfig ;;
            if matches (filePatterns_style cfg) fileLower then
              ret {| docs := docs categories; test := test categories;
                     config := config categories;
                     style := push (style categories) file;
                     source := source categories |}
            else
              ret {| docs := docs categories; test := test categories;
                     config := config categories; style := style categories;
                     source := push (source categories) file |}
  end.

Definition categorizeFiles (files : list jsv) : Run Categorization :=
  for_each categorizeFile files empty_categories.

(** [checkHasHead] *)
Definition checkHasHead (tool : Tool) : Run bool :=
  try_catch
    (_ <- await QRevParseHead (t_rev_parse_HEAD tool) ;; ret true)
    (fun _ => ret false).

Section WithParseDiff.

Variable parseDiff : string -> list DiffFile.

(** [analyzeFirstCommit] *)
Definition analyzeFirstCommit (tool : Tool) (status : Status)
  : Run AnalysisResult :=
  let allFiles := st_files status in
  if Nat.eqb (List.length allFiles) 0 then
    ret (Unchanged {| n_message := no_changes_repository;
                      n_isFirstCommit := true;
                      n_mode := None;
                      n_analysisScope := first_commit_scope |})
  else
    categorization <- categorizeFiles (map Some allFiles) ;;
    diffOutput <- await QDiff (t_diff_plain tool) ;;
    let parsedDiff := parseDiff diffOutput in
    let lineStats := calculateLineStats parsedDiff in
    ret (Changed
           {| a_isFirstCommit := true;
              a_mode := "all";
              a_analysisScope := first_commit_scope;
              a_changeTypes := {| modified := [];
                                  created := map Some allFiles;
                                  deleted := [];
                                  renamed := [] |};
              a_files := map Some allFiles;
              a_categorization := categorization;
              a_diff := diffOutput;
              a_lineStats := lineStats;
              a_parsedDiff := parsedDiff;
              a_summary := {| totalFiles := List.length allFiles;
                              sm_modified := 0;
                              sm_created := List.length allFiles;
                              sm_deleted := 0;
                              sm_renamed := 0;
                              linesAdded := additions lineStats;
                              linesDeleted := deletions lineStats;
                              linesChanged := total lineStats |} |}).

(** The [switch (mode)]. *)
Definition diffForMode (tool : Tool) (mode : string) : Run (string * string) :=
  if String.eqb mode "staged" then
    diffOutput <- await QDiffCachedHead (t_diff_cached_HEAD tool) ;;
    ret (diffOutput, "staged changes")
  else if String.eqb mode "unstaged" then
    diffOutput <- await QDiffHead (t_diff_HEAD tool) ;;
    ret (diffOutput, "unstaged changes")
  else
    stagedDiff <- await QDiffCachedHead (t_diff_cached_HEAD tool) ;;
    unstagedDiff <- await QDiffHead (t_diff_HEAD tool) ;;
    ret ((stagedDiff ++ newline ++ unstagedDiff)%string,
         "all changes since last commit").

(** [analyzeChanges] in the process. *)
Definition analyzeChanges (tool : Tool) (options_mode : option string)
  : Run AnalysisResult :=
  let mode := match options_mode with Some m => m | None => "all" end in
  try_catch
    (isRepo <- await QCheckIsRepo (t_checkIsRepo tool) ;;
     if negb isRepo then throw not_a_repository
     else
       hasHead <- checkHasHead tool ;;
       statusOutput <- await QStatusPorcelain (t_status_porcelain tool) ;;
       status <- lift (parsePorcelainStatus statusOutput) ;;
       if negb hasHead then analyzeFirstCommit tool status
       else
         scoped <- diffForMode tool mode ;;
         let diffOutput := fst scoped in
         let analysisScope := snd scoped in
         let parsedDiff := parseDiff diffOutput in
         if Nat.eqb (List.length parsedDiff) 0 && is_empty (trim statusOutput)
         then
           ret (Unchanged {| n_message := no_changes_since;
                             n_isFirstCommit := false;
                             n_mode := Some mode;
                             n_analysisScope := analysisScope |})
         else
           let fileChanges := extractFileChanges parsedDiff status in
           let lineStats := calculateLineStats parsedDiff in
           categorization <- categorizeFiles (allFiles fileChanges) ;;
           let ct := changeTypes fileChanges in
           ret (Changed
                  {| a_isFirstCommit := false;
                     a_mode := mode;
                     a_analysisScope := analysisScope;
                     a_changeTypes := ct;
                     a_files := allFiles fileChanges;
                     a_categorization := categorization;
                     a_diff := diffOutput;
                     a_lineStats := lineStats;
                     a_parsedDiff := parsedDiff;
                     a_summary :=
                       {| totalFiles := List.length (allFiles fileChanges);
                          sm_modified := List.length (modified ct);
                          sm_created := List.length (created ct);
                          sm_deleted := List.length (deleted ct);
                          sm_renamed := List.length (renamed ct);
                          linesAdded := additions lineStats;
                          linesDeleted := deletions lineStats;
                          linesChanged := total lineStats |} |}))
    (fun message => throw (failed_prefix ++ message)%string).

End WithParseDiff.

(** The responses of the tool are fixed: no answer depends on the queries
    sent before. *)
Definition fixedResponses (tool : Tool) : Prop :=
  forall log1 log2,
    t_checkIsRepo tool log1 = t_checkIsRepo tool log2
    /\ t_rev_parse_HEAD tool log1 = t_rev_parse_HEAD tool log2
    /\ t_status_porcelain tool log1 = t_status_porcelain tool log2
    /\ t_diff_cached_HEAD tool log1 = t_diff_cached_HEAD tool log2
    /\ t_diff_HEAD tool log1 = t_diff_HEAD tool log2
    /\ t_diff_plain tool log1 = t_diff_plain tool log2.

(** The handle that gives the answers of a tool at the start of its
    history, and the tool that always gives the answers of a handle. *)
Definition answersOf (tool : Tool) : SimpleGit :=
  {| checkIsRepo := t_checkIsRepo tool [];
     raw_rev_parse_HEAD := t_rev_parse_HEAD tool [];
     raw_status_porcelain := t_status_porcelain tool [];
     diff_cached_HEAD := t_diff_cached_HEAD tool [];
     diff_HEAD := t_diff_HEAD tool [];
     diff_plain := t_diff_plain tool [] |}.

Definition always (git : SimpleGit) : Tool :=
  {| t_checkIsRepo := fun _ => checkIsRepo git;
     t_rev_parse_HEAD := fun _ => raw_rev_parse_HEAD git;
     t_status_porcelain := fun _ => raw_status_porcelain git;
     t_diff_cached_HEAD := fun _ => diff_cached_HEAD git;
     t_diff_HEAD := fun _ => diff_HEAD git;
     t_diff_plain := fun _ => diff_plain git |}.

(** A computation that leaves [CONFIG] as it finds it and whose outcome
    depends on [CONFIG] only, not on the queries sent before. *)
Definition steady {A : Type} (m : Run A) : Prop :=
  forall w,
    w_config (snd (m w)) = w_config w
    /\ forall w', w_config w' = w_config w -> fst (m w') = fst (m w).

(** A computation of the process does what an [async] computation over
    constant answers does, when [CONFIG] is as the module defines it: the
    same outcome, the same queries sent, [CONFIG] as before. *)
Definition simulates {A : Type} (m : Run A) (a : Async A) : Prop :=
  forall w,
    w_config w = initial ->
    m w = (fst (a (w_sent w)),
           {| w_config := w_config w; w_sent := snd (a (w_sent w)) |}).

End Process.

(** ** The call of [analyzeChanges] and of [dryRun] *)

Module Calls.

(** The second argument of [analyzeChanges] once its default has been
    applied: [null], or a value whose [mode] property is read. *)
Inductive Options : Type :=
| OptionsNull
| OptionsObject (mode : option string).

(** Node's message for the destructuring of [null] at
    [const { mode = 'all' } = options]. *)
Definition TypeError_destructure : string :=
  "Cannot destructure property 'mode' of 'options' as it is null.".

(** [analyzeChanges(repoPath, options)] from its first line: the
    destructuring of [options] and [simpleGit(repoPath)], which builds the
    handle or throws, come before the [try]. *)
Definition analyzeChanges (parseDiff : string -> list DiffFile)
  (options : Options) (simpleGit : result SimpleGit) : Async AnalysisResult :=
  match options with
  | OptionsNull => throw TypeError_destructure
  | OptionsObject mode =>
      match simpleGit with
      | Throw e => throw e
      | Ok git => Analyzer.analyzeChanges parseDiff git mode
      end
  end.

(** [simpleGit(repoPath)] in the runner, where one call of [dryRun]
    evaluates it three times: the handle, or the error thrown, at the
    moment given by the commands sent so far. *)
Definition Construct : Type := list Runner.Command -> result Runner.Git.

(** [const git = simpleGit(repoPath);] followed by the rest of the body. *)
Definition construct {A : Type} (simpleGit : Construct)
  (body : Runner.Git -> Runner.Flow A) : Runner.Flow A :=
  fun log =>
    match simpleGit log with
    | Throw e => (Throw e, log)
    | Ok git => body git log
    end.

(** [checkForConflicts(repoPath)] and [getBranchInfo(repoPath)] from their
    first line. *)
Definition checkForConflicts (simpleGit : Construct)
  : Runner.Flow Runner.ConflictCheck :=
  construct simpleGit Runner.checkForConflicts.

Definition getBranchInfo (simpleGit : Construct)
  : Runner.Flow Runner.BranchInfo :=
  construct simpleGit Runner.getBranchInfo.

(** [dryRun(repoPath)] from its first line: [simpleGit(repoPath)] comes
    before the [try]; the two functions called inside the [try] build
    their own handles. *)
Definition dryRun (simpleGit : Construct) : Runner.Flow Runner.DryRun :=
  construct simpleGit (fun git =>
    Runner.try_catch
      (Runner.bind (Runner.await Runner.CCheckIsRepo (Runner.g_checkIsRepo git))
         (fun isRepo =>
            if negb isRepo then Runner.ret (Runner.Invalid "Not a git repository")
            else
              Runner.bind (Runner.await Runner.CStatus (Runner.g_status git))
                (fun status =>
                   Runner.bind (checkForConflicts simpleGit)
                     (fun conflictCheck =>
                        if Runner.hasConflicts conflictCheck
                        then Runner.ret
                               (Runner.Invalid (Runner.cc_message conflictCheck))
                        else
                          Runner.bind (getBranchInfo simpleGit)
                            (fun branchInfo =>
                               Runner.ret (Runner.Valid status branchInfo))))))
      (fun message => Runner.ret (Runner.Invalid message))).

End Calls.

(** ** Calls on a directory that does not exist, and a changing tool *)

Module CallSample.

(** The message of the error [simpleGit(repoPath)] throws for a directory
    that does not exist. *)
Definition missingDirectory : string :=
  "Cannot use simple-git on a directory that does not exist".

(** The directory is removed after the first handle has been built. *)
Definition vanishing : Calls.Construct :=
  fun log =>
    match log with
    | [] => Ok RunnerSample.working
    | _ => Throw missingDirectory
    end.

(** A tool over a repository that is edited between two calls: the status
    listing is empty until it has been asked for once, and names a modified
    file afterwards. *)
Definition asked (q : Query) : bool :=
  match q with
  | QStatusPorcelain => true
  | _ => false
  end.

Definition editedBetween : Process.Tool :=
  {| Process.t_checkIsRepo := fun _ => Ok true;
     Process.t_rev_parse_HEAD :=
       fun _ => Ok "9fceb02d0ae598e95dc970b74767f19372d61af8";
     Process.t_status_porcelain :=
       fun sent =>
         if existsb asked sent then Ok ("M  src/app.js" ++ newline)%string
         else Ok "";
     Process.t_diff_cached_HEAD := fun _ => Ok "";
     Process.t_diff_HEAD := fun _ => Ok "";
     Process.t_diff_plain := fun _ => Ok "" |}.

Definition start : Process.World :=
  {| Process.w_config := Process.initial; Process.w_sent := [] |}.

End CallSample.

(** ** A repository without commits and an intent-to-add entry *)

Module FirstCommitSample.

(** [git add -N a.js] in a fresh repository: the status line starts with
    a blank. *)
Definition newFileDiff : string :=
  "diff --git a/a.js b/a.js" ++ newline
  ++ "new file mode 100644" ++ newline
  ++ "index 0000000..ce01362" ++ newline
  ++ "--- /dev/null" ++ newline
  ++ "+++ b/a.js" ++ newline
  ++ "@@ -0,0 +1 @@" ++ newline
  ++ "+hello" ++ newline.

Definition newFile : DiffFile :=
  {| f_chunks := Some [ {| changes := [ {| c_type := "add";
                                           c_content := "+hello" |} ] |} ];
     f_additions := Some 1;
     f_deletions := Some 0;
     f_from := Some "/dev/null";
     f_to := Some "a.js";
     f_new := true;
     f_deleted := false;
     f_renamed := false |}.

Definition table : list (string * list DiffFile) := [ (newFileDiff, [newFile]) ].

Definition noHead : result string :=
  Throw "fatal: ambiguous argument 'HEAD': unknown revision or path not in the working tree.".

Definition intentToAdd : SimpleGit :=
  {| checkIsRepo := Ok true;
     raw_rev_parse_HEAD := noHead;
     raw_status_porcelain := Ok (" A a.js" ++ newline)%string;
     diff_cached_HEAD := Throw "fatal: bad revision 'HEAD'";
     diff_HEAD := Throw "fatal: bad revision 'HEAD'";
     diff_plain := Ok newFileDiff |}.

(** The same with a one-letter file name and an untracked file. *)
Definition shortName : SimpleGit :=
  {| checkIsRepo := Ok true;
     raw_rev_parse_HEAD := noHead;
     raw_status_porcelain :=
       Ok (" A a" ++ newline ++ "?? b.txt" ++ newline)%string;
     diff_cached_HEAD := Throw "fatal: bad revision 'HEAD'";
     diff_HEAD := Throw "fatal: bad revision 'HEAD'";
     diff_plain := Ok "" |}.

End FirstCommitSample.

(** ** Notions used by the further properties *)

Module Facts.

Import Analyzer Suggester.

(** A line the status parser cannot handle: it is long enough and includes
    the rename arrow, but the text after the status characters, once
    trimmed, does not. *)
Definition brokenArrow (line : string) : bool :=
  negb (Nat.ltb (String.length line) 4)
  && includes line " -> "
  && negb (includes (trim (slice 3 line)) " -> ").

(** Every path of a kind list is in [files], and the kind lists together
    are no longer than [files]. *)
Definition kindsWithinFiles (status : Status) : Prop :=
  (forall path,
      In path (st_modified status) \/ In path (st_created status)
      \/ In path (st_deleted status)
      \/ (exists oldPath, In (oldPath, path) (st_renamed status)) ->
      In path (st_files status))
  /\ List.length (st_modified status) + List.length (st_created status)
     + List.length (st_deleted status) + List.length (st_renamed status)
     <= List.length (st_files status).

(** The path the diff loop of [extractFileChanges] adds to [allFiles] for a
    record: [file.to] for a rename, [file.to || file.from] otherwise. *)
Definition diffPath (file : DiffFile) : jsv :=
  if f_deleted file then js_or (f_to file) (f_from file)
  else if f_new file then js_or (f_to file) (f_from file)
  else if f_renamed file then f_to file
  else js_or (f_to file) (f_from file).

(** The target of every entry of [renamed] is in [allFiles]. *)
Definition targetsWithinFiles (acc : FileChanges) : Prop :=
  forall r, In r (renamed (changeTypes acc)) -> In (to r) (allFiles acc).

Definition addsKey {B : Type} (step : FileChanges -> B -> FileChanges)
  (key : B -> jsv) : Prop :=
  forall acc x,
    targetsWithinFiles acc ->
    targetsWithinFiles (step acc x)
    /\ forall v, In v (allFiles (step acc x)) <-> In v (allFiles acc) \/ v = key x.

(** The counts of a path in the three lists, and the state the status
    loops keep for a path the diff has named. *)
Definition kindCounts (path : string) (acc : FileChanges) : nat * nat * nat :=
  (Spec.occurrences path (modified (changeTypes acc)),
   Spec.occurrences path (created (changeTypes acc)),
   Spec.occurrences path (deleted (changeTypes acc))).

Definition settled (path : string) (counts : nat * nat * nat)
  (acc : FileChanges) : Prop :=
  In (Some path) (allFiles acc) /\ kindCounts path acc = counts.

(** Every step of the merge that adds a path to [allFiles] adds an entry to
    one of the four kind lists. *)
Definition kindsCoverFiles (acc : FileChanges) : Prop :=
  List.length (allFiles acc)
  <= List.length (modified (changeTypes acc))
     + List.length (created (changeTypes acc))
     + List.length (deleted (changeTypes acc))
     + List.length (renamed (changeTypes acc)).

(** The number of times a word occurs in a list of words. *)
Definition occ (w : string) (ws : list string) : nat :=
  count_occ string_dec ws w.

(** The words [inferFeatureFromFiles] counts for an array of paths. *)
Definition featureWords (files : list string) : list string :=
  flat_map wordsOf
    (map (fun f => beforeFirstDot (pop (split "/" f))) files).

(** The state of [wordCount] after the words [ws] have been counted: one
    own property per word, holding the number of its occurrences, except
    for the word constructor, which holds a non-empty text. *)
Definition counted (ws : list string) (wordCount : WordCount) : Prop :=
  NoDup (map fst wordCount)
  /\ (forall w, In w ws -> In w (map fst wordCount))
  /\ forall w c,
       In (w, c) wordCount ->
       if String.eqb w "constructor"
       then exists s, c = Text s /\ s <> ""
       else c = Num (occ w ws) /\ 1 <= occ w ws.

(** The character [c] occurs in the text. *)
Fixpoint uses (c : ascii) (s : string) : bool :=
  match s with
  | "" => false
  | String x r => Ascii.eqb c x || uses c r
  end.

End Facts.

(** * Properties *)

Import Analyzer Suggester.

(** ** The query monad *)

(** A computation whose outcome does not depend on the queries issued
    before it. *)
Definition oblivious {A : Type} (m : Async A) : Prop :=
  forall log1 log2, fst (m log1) = fst (m log2).

Lemma oblivious_ret {A : Type} (a : A) : oblivious (ret a).
Proof. intros log1 log2. reflexivity. Qed.

Lemma oblivious_throw {A : Type} (e : string) : oblivious (@throw A e).
Proof. intros log1 log2. reflexivity. Qed.

Lemma oblivious_await {A : Type} (q : Query) (answer : result A) :
  oblivious (await q answer).
Proof. intros log1 log2. reflexivity. Qed.

Lemma oblivious_lift {A : Type} (r : result A) : oblivious (lift r).
Proof. intros log1 log2. reflexivity. Qed.

Lemma oblivious_bind {A B : Type} (m : Async A) (k : A -> Async B) :
  oblivious m -> (forall a, oblivious (k a)) -> oblivious (bind m k).
Proof.
  intros Hm Hk log1 log2. unfold bind.
  specialize (Hm log1 log2).
  destruct (m log1) as [r1 l1], (m log2) as [r2 l2]. simpl in Hm. subst r2.
  destruct r1 as [a | e]; [apply Hk | reflexivity].
Qed.

Lemma oblivious_try_catch {A : Type} (m : Async A) (h : string -> Async A) :
  oblivious m -> (forall e, oblivious (h e)) -> oblivious (try_catch m h).
Proof.
  intros Hm Hh log1 log2. unfold try_catch.
  specialize (Hm log1 log2).
  destruct (m log1) as [r1 l1], (m log2) as [r2 l2]. simpl in Hm. subst r2.
  destruct r1 as [a | e]; [reflexivity | apply Hh].
Qed.

Create HintDb oblivious.
#[export] Hint Resolve oblivious_ret oblivious_throw oblivious_await
  oblivious_lift : oblivious.

Ltac oblivious_step :=
  match goal with
  | |- oblivious (bind _ _) => apply oblivious_bind; [| intro]
  | |- oblivious (try_catch _ _) => apply oblivious_try_catch; [| intro]
  | |- oblivious (if ?b then _ else _) => destruct b
  | |- oblivious _ => solve [auto with oblivious]
  end.

Section AnalyzerProperties.

Variable parseDiff : string -> list DiffFile.

Lemma checkHasHead_oblivious git : oblivious (checkHasHead git).
Proof. unfold checkHasHead. repeat oblivious_step. Qed.

Lemma analyzeFirstCommit_oblivious git status :
  oblivious (analyzeFirstCommit parseDiff git status).
Proof. unfold analyzeFirstCommit. repeat oblivious_step. Qed.

Lemma diffForMode_oblivious git mode : oblivious (diffForMode git mode).
Proof. unfold diffForMode. repeat oblivious_step. Qed.

Lemma analyzeChanges_oblivious git options_mode :
  oblivious (analyzeChanges parseDiff git options_mode).
Proof.
  unfold analyzeChanges.
  repeat first
    [ apply checkHasHead_oblivious
    | apply analyzeFirstCommit_oblivious
    | apply diffForMode_oblivious
    | oblivious_step ].
Qed.

(** Against a handle whose answers are given once and for all, a second
    run that starts where the first ended (its query log starts where the
    first ended) has the outcome of the first. *)
Lemma analyzeChanges_deterministic git options_mode log :
  let first := analyzeChanges parseDiff git options_mode log in
  let second := analyzeChanges parseDiff git options_mode (snd first) in
  fst second = fst first.
Proof.
  intros first second. apply analyzeChanges_oblivious.
Qed.

(** C8 (amended). When [checkIsRepo] answers [false], [analyzeChanges]
    fails after that single query, and the error the caller receives is
    the not-a-repository message behind the prefix
    "Failed to analyze git changes: ". *)
Theorem not_a_repository_wrapped git options_mode log
  (HnotRepo : checkIsRepo git = Ok false) :
  analyzeChanges parseDiff git options_mode log
  = (Throw (failed_prefix ++ not_a_repository)%string, log ++ [QCheckIsRepo]).
Proof.
  unfold analyzeChanges, try_catch, bind, await.
  rewrite HnotRepo. reflexivity.
Qed.

(** [parse-diff] returns no file for a text that is empty or blank. *)
Hypothesis parseDiff_blank : forall text, trim text = "" -> parseDiff text = [].

Lemma parsePorcelainStatus_blank status :
  trim status = "" -> parsePorcelainStatus status = Ok empty_status.
Proof. intros H. unfold parsePorcelainStatus. rewrite H. reflexivity. Qed.

(** C7 (amended). In a repository with a HEAD whose status listing and diff
    outputs are empty, the result has [hasChanges = false] and carries the
    message "No changes detected since the last commit" whatever the mode;
    the mode and the scope label of the mode are carried next to it. *)
Theorem no_changes_fixed_message git mode log status
  (HisRepo : checkIsRepo git = Ok true)
  (Hhead : exists id, raw_rev_parse_HEAD git = Ok id)
  (Hstatus : raw_status_porcelain git = Ok status)
  (Hclean : trim status = "")
  (Hstaged : diff_cached_HEAD git = Ok "")
  (Hunstaged : diff_HEAD git = Ok "") :
  analyzeChanges parseDiff git (Some mode) log
  = (Ok (Unchanged {| n_message := "No changes detected since the last commit";
                      n_isFirstCommit := false;
                      n_mode := Some mode;
                      n_analysisScope := Spec.scopeLabel mode |}),
     log ++ Spec.queriesFor mode).
Proof.
  destruct Hhead as [id Hhead].
  unfold analyzeChanges, try_catch, bind, await, checkHasHead, try_catch, bind,
    await, lift, ret, diffForMode, Spec.scopeLabel, Spec.queriesFor.
  rewrite HisRepo, Hhead, Hstatus. simpl.
  rewrite (parsePorcelainStatus_blank status Hclean). simpl.
  rewrite Hclean.
  destruct (String.eqb mode "staged").
  - unfold bind, await, ret. rewrite Hstaged. simpl.
    rewrite (parseDiff_blank "" eq_refl). simpl.
    repeat rewrite <- app_assoc. reflexivity.
  - destruct (String.eqb mode "unstaged").
    + unfold bind, await, ret. rewrite Hunstaged. simpl.
      rewrite (parseDiff_blank "" eq_refl). simpl.
      repeat rewrite <- app_assoc. reflexivity.
    + unfold bind, await, ret. rewrite Hstaged, Hunstaged. simpl.
      rewrite (parseDiff_blank (String "010" "") eq_refl). simpl.
      repeat rewrite <- app_assoc. reflexivity.
Qed.

End AnalyzerProperties.

(** ** File categorization *)

Lemma Bucket_eqb_eq a b : Spec.Bucket_eqb a b = true <-> a = b.
Proof. destruct a, b; simpl; split; intros H; congruence. Qed.

Lemma categorizeFile_bucket c file :
  exists c', categorizeFile c (Some file) = Ok c'
    /\ forall b, Spec.bucket c' b
                 = Spec.bucket c b
                   ++ (if Spec.Bucket_eqb (Spec.bucketOf file) b then [file] else []).
Proof.
  unfold categorizeFile, Spec.bucketOf.
  destruct (matches CONFIG.filePatterns_docs (toLowerCase file));
    [| destruct (matches CONFIG.filePatterns_test (toLowerCase file));
       [| destruct (matches CONFIG.filePatterns_config (toLowerCase file));
          [| destruct (matches CONFIG.filePatterns_style (toLowerCase file))]]];
    eexists; (split; [reflexivity |]);
    intros []; simpl; unfold push; rewrite ?app_nil_r; reflexivity.
Qed.

Lemma for_of_categorizeFile files : forall c0 c,
  for_of categorizeFile files c0 = Ok c ->
  Forall Spec.isString files
  /\ forall b, Spec.bucket c b
               = Spec.bucket c0 b
                 ++ filter (fun f => Spec.Bucket_eqb (Spec.bucketOf f) b)
                      (Spec.strings files).
Proof.
  induction files as [| [file |] files IH]; intros c0 c H.
  - simpl in H. injection H as <-. split; [constructor |].
    intros b. simpl. now rewrite app_nil_r.
  - cbn [for_of] in H.
    destruct (categorizeFile_bucket c0 file) as [c1 [E Hb]].
    rewrite E in H. apply IH in H. destruct H as [Hall Hc]. split.
    + constructor; [now exists file | exact Hall].
    + intros b. rewrite Hc, Hb. rewrite <- app_assoc. f_equal.
      simpl. destruct (Spec.Bucket_eqb (Spec.bucketOf file) b); reflexivity.
  - simpl in H. discriminate.
Qed.

Lemma categorizeFiles_buckets files c :
  categorizeFiles files = Ok c ->
  Forall Spec.isString files
  /\ forall b, Spec.bucket c b
               = filter (fun f => Spec.Bucket_eqb (Spec.bucketOf f) b)
                   (Spec.strings files).
Proof.
  intros H. apply for_of_categorizeFile in H. destruct H as [Hall Hc].
  split; [exact Hall |]. intros b. rewrite Hc. now destruct b.
Qed.

Lemma categorizeFiles_total files :
  Forall Spec.isString files -> exists c, categorizeFiles files = Ok c.
Proof.
  unfold categorizeFiles. generalize empty_categories.
  induction files as [| v files IH]; intros c0 Hall.
  - now exists c0.
  - inversion Hall as [| ? ? [file ->] Hrest]; subst.
    cbn [for_of]. destruct (categorizeFile_bucket c0 file) as [c1 [E _]].
    rewrite E. now apply IH.
Qed.

Lemma holds_filter (keep : string -> bool) l path :
  Spec.holds (filter keep l) path = Spec.holds l path && keep path.
Proof.
  unfold Spec.holds. induction l as [| x l IH]; [reflexivity |].
  simpl. destruct (keep x) eqn:Ek; simpl; rewrite IH;
    destruct (String.eqb_spec path x) as [-> |]; simpl; try reflexivity;
    rewrite Ek; destruct (existsb (String.eqb x) l); reflexivity.
Qed.

Lemma holds_strings l path :
  Spec.holds (Spec.strings l) path = existsb (jsv_eqb (Some path)) l.
Proof.
  unfold Spec.holds. induction l as [| [s |] l IH]; simpl; congruence.
Qed.

(** The number of buckets that hold a path is one when the path is among the
    categorized files and zero otherwise. *)
Lemma categorizeFiles_one_bucket files c path :
  categorizeFiles files = Ok c ->
  Spec.bucketsHolding c path
  = if existsb (jsv_eqb (Some path)) files then 1 else 0.
Proof.
  intros H. apply categorizeFiles_buckets in H. destruct H as [_ Hb].
  unfold Spec.bucketsHolding.
  rewrite <- holds_strings.
  change (docs c) with (Spec.bucket c Spec.Docs).
  change (test c) with (Spec.bucket c Spec.Test).
  change (config c) with (Spec.bucket c Spec.Config).
  change (style c) with (Spec.bucket c Spec.Style).
  change (source c) with (Spec.bucket c Spec.Source).
  rewrite !Hb, !holds_filter.
  destruct (Spec.holds (Spec.strings files) path); simpl; [| reflexivity].
  now destruct (Spec.bucketOf path).
Qed.

(** ** The shape of an analysis result *)

Section AnalysisResults.

Variable parseDiff : string -> list DiffFile.

Lemma analyzeFirstCommit_Changed git status log a log' :
  analyzeFirstCommit parseDiff git status log = (Ok (Changed a), log') ->
  categorizeFiles (a_files a) = Ok (a_categorization a) /\ Spec.fromFirstCommit a.
Proof.
  unfold analyzeFirstCommit, bind, lift, await, ret.
  destruct (Nat.eqb (List.length (st_files status)) 0); [discriminate |].
  destruct (categorizeFiles (map Some (st_files status))) as [c |] eqn:Ec;
    [| discriminate].
  destruct (diff_plain git) as [d |]; [| discriminate].
  intros H. injection H as <- <-. simpl. split; [exact Ec |].
  exists status. simpl. auto.
Qed.

Lemma analyzeChanges_Changed git options_mode log a log' :
  analyzeChanges parseDiff git options_mode log = (Ok (Changed a), log') ->
  categorizeFiles (a_files a) = Ok (a_categorization a)
  /\ (Spec.fromFirstCommit a \/ Spec.fromDiff a).
Proof.
  unfold analyzeChanges, try_catch, bind.
  unfold await at 1.
  destruct (checkIsRepo git) as [[|] |]; simpl; try discriminate.
  unfold checkHasHead, try_catch, bind, await, ret.
  destruct (raw_rev_parse_HEAD git) as [id | e];
    (destruct (raw_status_porcelain git) as [statusOutput |];
     [| discriminate]);
    unfold lift;
    (destruct (parsePorcelainStatus statusOutput) as [status |];
     [| discriminate]); simpl.
  - destruct (diffForMode git _ _) as [[scoped |] log1]; [| discriminate].
    destruct (_ && _); [discriminate |].
    destruct (categorizeFiles _) as [c |] eqn:Ec; [| discriminate].
    intros H. injection H as <- <-. simpl. split; [exact Ec |].
    right. eexists _, status. simpl. auto.
  - destruct (analyzeFirstCommit parseDiff git status _)
      as [[[n | a'] |] log1] eqn:E; try discriminate.
    intros H. injection H as <- <-.
    apply analyzeFirstCommit_Changed in E. destruct E as [Ec Hf]. auto.
Qed.

(** C5. In every analysis result with [hasChanges = true], every entry of
    [files] is a path, a path of [files] is held by exactly one of the five
    buckets docs, test, config, style and source, and a path that is not in
    [files] is held by none. *)
Theorem each_path_in_exactly_one_bucket git options_mode log r log'
  (Hrun : analyzeChanges parseDiff git options_mode log = (Ok r, log'))
  (Hchanges : hasChanges r = true) :
  exists a,
    r = Changed a
    /\ Forall Spec.isString (a_files a)
    /\ forall path,
         Spec.bucketsHolding (a_categorization a) path
         = if existsb (jsv_eqb (Some path)) (a_files a) then 1 else 0.
Proof.
  destruct r as [n | a]; [discriminate |]. exists a.
  apply analyzeChanges_Changed in Hrun. destruct Hrun as [Hc _].
  split; [reflexivity |]. split.
  - apply categorizeFiles_buckets in Hc. tauto.
  - intros path. now apply categorizeFiles_one_bucket.
Qed.

End AnalysisResults.

(** ** The status parser *)

(** A line adds at most one path to [status.files], at its end. *)
Lemma statusLine_files status line status' :
  statusLine status line = Ok status' ->
  st_files status' = st_files status
  \/ exists path, Spec.listedPath line = Some path
                  /\ st_files status' = push (st_files status) path.
Proof.
  unfold statusLine, Spec.listedPath.
  destruct (Nat.ltb (String.length line) 4).
  { intros H. injection H as <-. now left. }
  destruct (includes line " -> ").
  { destruct (split " -> " (trim (slice 3 line))) as [| oldPath [| newPath rest]];
      try discriminate.
    intros H. injection H as <-. right. now exists (trim newPath). }
  destruct (char_is line 0 "M" || char_is line 1 "M");
    [| destruct (char_is line 0 "A" || char_is line 0 "?" && char_is line 1 "?");
       [| destruct (char_is line 0 "D" || char_is line 1 "D");
          [| destruct (char_is line 0 "R")]]];
    intros H; injection H as <-; simpl; eauto.
Qed.

(** A line that names a path adds it, unless it is a line without arrow
    whose index character is [R]. *)
Lemma statusLine_records status line status' path :
  statusLine status line = Ok status' ->
  Spec.listedPath line = Some path ->
  includes line " -> " = true \/ char_is line 0 "R" = false ->
  st_files status' = push (st_files status) path.
Proof.
  unfold statusLine, Spec.listedPath.
  destruct (Nat.ltb (String.length line) 4); [discriminate |].
  destruct (includes line " -> ").
  { destruct (split " -> " (trim (slice 3 line))) as [| oldPath [| newPath rest]];
      try discriminate.
    intros H E _. injection H as <-. injection E as <-. reflexivity. }
  intros H E [Harrow | HR]; [discriminate |]. injection E as <-. rewrite HR in H.
  destruct (char_is line 0 "M" || char_is line 1 "M");
    [| destruct (char_is line 0 "A" || char_is line 0 "?" && char_is line 1 "?");
       [| destruct (char_is line 0 "D" || char_is line 1 "D")]];
    injection H as <-; reflexivity.
Qed.

Lemma for_of_statusLine_keeps lines : forall status0 status path,
  for_of statusLine lines status0 = Ok status ->
  In path (st_files status0) -> In path (st_files status).
Proof.
  induction lines as [| line lines IH]; intros status0 status path H Hin.
  - injection H as <-. exact Hin.
  - cbn [for_of] in H.
    destruct (statusLine status0 line) as [status1 |] eqn:E; [| discriminate].
    apply (IH _ _ _ H).
    destruct (statusLine_files _ _ _ E) as [-> | [p [_ ->]]]; [exact Hin |].
    unfold push. apply in_or_app. now left.
Qed.

Lemma for_of_statusLine_records lines : forall status0 status line path,
  for_of statusLine lines status0 = Ok status ->
  In line lines ->
  Spec.listedPath line = Some path ->
  includes line " -> " = true \/ char_is line 0 "R" = false ->
  In path (st_files status).
Proof.
  induction lines as [| l lines IH]; intros status0 status line path H Hin Hp Hk.
  - destruct Hin.
  - cbn [for_of] in H.
    destruct (statusLine status0 l) as [status1 |] eqn:E; [| discriminate].
    destruct Hin as [-> | Hin].
    + apply (for_of_statusLine_keeps _ _ _ _ H).
      rewrite (statusLine_records _ _ _ _ E Hp Hk).
      unfold push. apply in_or_app. right. now left.
    + exact (IH _ _ _ _ H Hin Hp Hk).
Qed.

Lemma parsePorcelainStatus_records statusOutput status line path :
  parsePorcelainStatus statusOutput = Ok status ->
  In line (split newline (trim statusOutput)) ->
  Spec.listedPath line = Some path ->
  includes line " -> " = true \/ char_is line 0 "R" = false ->
  In path (st_files status).
Proof.
  unfold parsePorcelainStatus. intros H Hin Hp Hk.
  destruct (is_empty (trim statusOutput)) eqn:Eempty.
  - destruct (trim statusOutput); [| discriminate].
    destruct Hin as [<- | []]. discriminate.
  - exact (for_of_statusLine_records _ _ _ _ _ H Hin Hp Hk).
Qed.

Lemma Forall_isString_map_Some (l : list string) :
  Forall Spec.isString (map Some l).
Proof. induction l; constructor; [now eexists | assumption]. Qed.

(** ** The first commit *)

Section FirstCommit.

Variable parseDiff : string -> list DiffFile.

(** The first-commit branch as far as the status parser goes.  When
    [rev-parse HEAD] fails and the parser returns at least one path, the
    analysis returns a result with [isFirstCommit = true] whose [created]
    list is the whole list of paths the parser returned, whatever their
    status characters, and whose [modified], [deleted] and [renamed] lists
    are empty.  The lines are those of the trimmed text, as the parser
    splits it: among them the only ones it does not record are lines
    without a rename arrow whose index character is R. *)
Lemma first_commit_all_created git options_mode log statusOutput status diffOutput
  (HisRepo : checkIsRepo git = Ok true)
  (HnoHead : exists e, raw_rev_parse_HEAD git = Throw e)
  (Hstatus : raw_status_porcelain git = Ok statusOutput)
  (Hparsed : parsePorcelainStatus statusOutput = Ok status)
  (Hlisted : st_files status <> [])
  (Hdiff : diff_plain git = Ok diffOutput) :
  exists a,
    analyzeChanges parseDiff git options_mode log
    = (Ok (Changed a),
       log ++ [QCheckIsRepo; QRevParseHead; QStatusPorcelain; QDiff])
    /\ isFirstCommit (Changed a) = true
    /\ a_files a = map Some (st_files status)
    /\ created (a_changeTypes a) = map Some (st_files status)
    /\ modified (a_changeTypes a) = []
    /\ deleted (a_changeTypes a) = []
    /\ renamed (a_changeTypes a) = []
    /\ sm_created (a_summary a) = totalFiles (a_summary a)
    /\ forall line path,
         In line (split newline (trim statusOutput)) ->
         Spec.listedPath line = Some path ->
         includes line " -> " = true \/ char_is line 0 "R" = false ->
         In (Some path) (created (a_changeTypes a)).
Proof.
  destruct HnoHead as [e HnoHead].
  destruct (categorizeFiles_total (map Some (st_files status))
              (Forall_isString_map_Some _)) as [c Hc].
  assert (Hlen : Nat.eqb (List.length (st_files status)) 0 = false)
    by (destruct (st_files status); [congruence | reflexivity]).
  eexists.
  split.
  - unfold analyzeChanges, try_catch, bind, await, checkHasHead, try_catch,
      bind, await, lift, ret.
    rewrite HisRepo, HnoHead, Hstatus. simpl. rewrite Hparsed. simpl.
    unfold analyzeFirstCommit, bind, lift, await, ret.
    rewrite Hlen, Hc, Hdiff.
    repeat rewrite <- app_assoc. simpl. reflexivity.
  - simpl. repeat (split; [reflexivity |]).
    intros line path Hin Hp Hk. apply in_map.
    exact (parsePorcelainStatus_records _ _ _ _ Hparsed Hin Hp Hk).
Qed.

End FirstCommit.

(** C4. The path of the first line of the status listing is not classified
    when that line starts with a blank.  In a repository without commits
    (the resolution of HEAD fails) whose listing is the single line
    " A a.js" (a file added with intent to add), the listing names the path
    a.js, and the analysis returns [isFirstCommit = true] with
    [created = [".js"]]: the trim of the whole listing removes the blank
    index character of the first line, and the [slice(3)] that skips the
    two status characters and the blank then cuts into the path.  With the
    listing " A a" followed by "?? b.txt" the clipped first line is shorter
    than four characters and is skipped, so that path a is in no list of
    the result. *)
Theorem first_commit_clips_first_path :
  let parseDiff := Sample.parseDiffTable FirstCommitSample.table in
  (exists e, raw_rev_parse_HEAD FirstCommitSample.intentToAdd = Throw e)
  /\ raw_status_porcelain FirstCommitSample.intentToAdd
     = Ok (" A a.js" ++ newline)%string
  /\ Spec.listedPath " A a.js" = Some "a.js"
  /\ (exists a,
        fst (analyzeChanges parseDiff FirstCommitSample.intentToAdd None [])
        = Ok (Changed a)
        /\ a_isFirstCommit a = true
        /\ created (a_changeTypes a) = [Some ".js"]
        /\ a_files a = [Some ".js"]
        /\ ~ In (Some "a.js") (created (a_changeTypes a)))
  /\ raw_status_porcelain FirstCommitSample.shortName
     = Ok (" A a" ++ newline ++ "?? b.txt" ++ newline)%string
  /\ Spec.listedPath " A a" = Some "a"
  /\ (exists a,
        fst (analyzeChanges parseDiff FirstCommitSample.shortName None [])
        = Ok (Changed a)
        /\ a_isFirstCommit a = true
        /\ created (a_changeTypes a) = [Some "b.txt"]
        /\ a_files a = [Some "b.txt"]
        /\ ~ In (Some "a") (a_files a)).
Proof.
  cbv zeta.
  split; [eexists; reflexivity |].
  split; [reflexivity |].
  split; [vm_compute; reflexivity |].
  split.
  - eexists. split; [vm_compute; reflexivity |].
    repeat (split; [reflexivity |]).
    cbn. intros [H | []]. discriminate.
  - split; [reflexivity |].
    split; [vm_compute; reflexivity |].
    eexists. split; [vm_compute; reflexivity |].
    repeat (split; [reflexivity |]).
    cbn. intros [H | []]. discriminate.
Qed.

(** ** The merge of the diff and the status *)

Lemma jsv_eqb_eq a b : jsv_eqb a b = true <-> a = b.
Proof.
  destruct a as [x |], b as [y |]; simpl; split; intros H;
    try discriminate; try reflexivity.
  - apply String.eqb_eq in H. now subst.
  - injection H as ->. apply String.eqb_refl.
Qed.

Lemma set_has_In s x : set_has s x = true <-> In x s.
Proof.
  unfold set_has. rewrite existsb_exists. split.
  - intros [y [Hin E]]. apply jsv_eqb_eq in E. now subst.
  - intros Hin. exists x. split; [exact Hin | now apply jsv_eqb_eq].
Qed.

Lemma set_add_In s x v : In v (set_add s x) <-> In v s \/ v = x.
Proof.
  unfold set_add, push. destruct (set_has s x) eqn:E.
  - apply set_has_In in E. split; [tauto |]. intros [H | ->]; assumption.
  - rewrite in_app_iff. simpl. intuition congruence.
Qed.

Lemma set_add_NoDup s x : NoDup s -> NoDup (set_add s x).
Proof.
  intros Hs. unfold set_add, push. destruct (set_has s x) eqn:E; [exact Hs |].
  apply NoDup_app; [exact Hs | repeat constructor; intros [] |].
  intros v Hv [<- | []].
  apply set_has_In in Hv. congruence.
Qed.

Lemma push_In {A : Type} (l : list A) x v : In v (push l x) <-> In v l \/ v = x.
Proof.
  unfold push. rewrite in_app_iff. simpl. intuition congruence.
Qed.

Ltac covered_step :=
  unfold Spec.covered, Spec.listed; simpl;
  intros Hacc v; rewrite ?push_In, ?set_add_In;
  intros H; specialize (Hacc v); tauto.

Lemma diffEntry_covered acc file :
  Spec.covered acc -> Spec.covered (diffEntry acc file).
Proof.
  unfold diffEntry.
  destruct (f_deleted file); [covered_step |].
  destruct (f_new file); [covered_step |].
  destruct (f_renamed file); covered_step.
Qed.

Lemma mergeModified_covered acc file :
  Spec.covered acc -> Spec.covered (mergeModified acc file).
Proof.
  unfold mergeModified. destruct (negb _); [covered_step | auto].
Qed.

Lemma mergeCreated_covered acc file :
  Spec.covered acc -> Spec.covered (mergeCreated acc file).
Proof.
  unfold mergeCreated. destruct (negb _); [covered_step | auto].
Qed.

Lemma mergeDeleted_covered acc file :
  Spec.covered acc -> Spec.covered (mergeDeleted acc file).
Proof.
  unfold mergeDeleted. destruct (negb _); [covered_step | auto].
Qed.

Lemma mergeRenamed_covered acc rename :
  Spec.covered acc -> Spec.covered (mergeRenamed acc rename).
Proof.
  unfold mergeRenamed. destruct (find _ _); [auto | covered_step].
Qed.

Lemma fold_left_invariant {A B : Type} (P : A -> Prop) (step : A -> B -> A) :
  (forall acc x, P acc -> P (step acc x)) ->
  forall l acc, P acc -> P (fold_left step l acc).
Proof.
  intros Hstep l. induction l as [| x l IH]; intros acc Hacc; simpl; auto.
Qed.

Lemma extractFileChanges_covered parsedDiff status :
  Spec.covered (extractFileChanges parsedDiff status).
Proof.
  unfold extractFileChanges.
  apply fold_left_invariant; [apply mergeRenamed_covered |].
  apply fold_left_invariant; [apply mergeDeleted_covered |].
  apply fold_left_invariant; [apply mergeCreated_covered |].
  apply fold_left_invariant; [apply mergeModified_covered |].
  apply fold_left_invariant; [apply diffEntry_covered |].
  intros v [[] | [[] | []]].
Qed.

(** [allFiles] is a set: no path occurs in it twice. *)
Lemma extractFileChanges_NoDup parsedDiff status :
  NoDup (allFiles (extractFileChanges parsedDiff status)).
Proof.
  unfold extractFileChanges.
  apply (fold_left_invariant (fun acc => NoDup (allFiles acc))).
  { intros acc r H. unfold mergeRenamed. destruct (find _ _); [exact H |].
    now apply set_add_NoDup. }
  apply (fold_left_invariant (fun acc => NoDup (allFiles acc))).
  { intros acc f H. unfold mergeDeleted. destruct (negb _); [| exact H].
    now apply set_add_NoDup. }
  apply (fold_left_invariant (fun acc => NoDup (allFiles acc))).
  { intros acc f H. unfold mergeCreated. destruct (negb _); [| exact H].
    now apply set_add_NoDup. }
  apply (fold_left_invariant (fun acc => NoDup (allFiles acc))).
  { intros acc f H. unfold mergeModified. destruct (negb _); [| exact H].
    now apply set_add_NoDup. }
  apply (fold_left_invariant (fun acc => NoDup (allFiles acc))).
  { intros acc f H. unfold diffEntry.
    destruct (f_deleted f); [now apply set_add_NoDup |].
    destruct (f_new f); [now apply set_add_NoDup |].
    destruct (f_renamed f); now apply set_add_NoDup. }
  constructor.
Qed.

(** In a result with changes, [files] and the lists [modified], [created]
    and [deleted] hold paths only. *)
Lemma Changed_paths parseDiff git options_mode log a log' :
  analyzeChanges parseDiff git options_mode log = (Ok (Changed a), log') ->
  Forall Spec.isString (a_files a)
  /\ Forall Spec.isString (modified (a_changeTypes a))
  /\ Forall Spec.isString (created (a_changeTypes a))
  /\ Forall Spec.isString (deleted (a_changeTypes a)).
Proof.
  intros H. apply analyzeChanges_Changed in H. destruct H as [Hc Hfrom].
  apply categorizeFiles_buckets in Hc. destruct Hc as [Hfiles _].
  split; [exact Hfiles |].
  destruct Hfrom as [[status [_ [Ef Ect]]] | [pd [status [_ [_ [Ef Ect]]]]]].
  - rewrite Ect. simpl. repeat split; try constructor.
    apply Forall_isString_map_Some.
  - pose proof (extractFileChanges_covered pd status) as Hcov.
    rewrite Ef in Hfiles. rewrite Ect. rewrite Forall_forall in Hfiles.
    repeat split; apply Forall_forall; intros v Hv; apply Hfiles, Hcov;
      unfold Spec.listed; tauto.
Qed.

(** ** The suggester returns *)

Lemma map_result_total {A B : Type} (body : A -> result B) (P : A -> Prop) :
  (forall x, P x -> exists y, body x = Ok y) ->
  forall l, Forall P l -> exists ys, map_result body l = Ok ys.
Proof.
  intros Hbody l. induction l as [| x l IH]; intros Hall.
  - now exists [].
  - inversion Hall as [| ? ? Hx Hl]; subst.
    destruct (Hbody x Hx) as [y Ey]. destruct (IH Hl) as [ys Eys].
    exists (y :: ys). simpl. rewrite Ey. simpl. rewrite Eys. reflexivity.
Qed.

Lemma split_of_total sep v :
  Spec.isString v -> exists parts, split_of sep v = Ok parts.
Proof. intros [s ->]. now eexists. Qed.

Lemma findCommonPath_total files :
  Forall Spec.isString files -> exists c, findCommonPath files = Ok c.
Proof.
  intros Hall. unfold findCommonPath.
  destruct files as [| f [| g files]].
  - now eexists.
  - inversion Hall as [| ? ? [s ->] _]; subst. simpl. now eexists.
  - destruct (map_result_total (split_of "/") Spec.isString
                (split_of_total "/") _ Hall) as [paths ->].
    simpl. now eexists.
Qed.

Lemma determineScope_total files categorization :
  Forall Spec.isString files ->
  exists scope, determineScope files categorization = Ok scope.
Proof.
  intros Hall. unfold determineScope.
  destruct files as [| f [| g files]].
  - destruct (findCommonPath_total [] Hall) as [c ->]. simpl.
    destruct (match c with Some _ => _ | None => _ end); [now eexists |].
    repeat (destruct (Nat.eqb _ _); [now eexists |]). now eexists.
  - inversion Hall as [| ? ? [s ->] _]; subst. simpl. now eexists.
  - destruct (findCommonPath_total _ Hall) as [c ->]. simpl.
    destruct (match c with Some _ => _ | None => _ end); [now eexists |].
    repeat (destruct (Nat.eqb _ _); [now eexists |]). now eexists.
Qed.

Lemma inferFeatureFromFiles_total files :
  Forall Spec.isString files ->
  exists feature, inferFeatureFromFiles files = Ok feature.
Proof.
  intros Hall. unfold inferFeatureFromFiles.
  destruct files as [| f files]; [now eexists |].
  destruct (map_result_total
              (fun f => rbind (split_of "/" f)
                          (fun parts => Ok (beforeFirstDot (pop parts))))
              Spec.isString) with (l := f :: files) as [names ->].
  - intros x [s ->]. simpl. now eexists.
  - exact Hall.
  - simpl. now eexists.
Qed.

Lemma describeMany_total categorization changeTypes files :
  Forall Spec.isString (created changeTypes) ->
  Forall Spec.isString (modified changeTypes) ->
  exists description,
    describeMany categorization changeTypes files = Ok description.
Proof.
  intros Hcreated Hmodified. unfold describeMany.
  destruct (inferFeatureFromFiles_total _ Hcreated) as [fc ->].
  destruct (inferFeatureFromFiles_total _ Hmodified) as [fm ->].
  simpl.
  repeat match goal with
         | |- context [if ?b then _ else _] => destruct b
         | |- context [match ?o with Some _ => _ | None => _ end] => destruct o
         end; now eexists.
Qed.

Lemma generateDescription_total categorization changeTypes files :
  Forall Spec.isString files ->
  Forall Spec.isString (created changeTypes) ->
  Forall Spec.isString (modified changeTypes) ->
  exists description,
    generateDescription categorization changeTypes files = Ok description.
Proof.
  intros Hfiles Hcreated Hmodified. unfold generateDescription.
  destruct files as [| f [| g files]];
    try now apply describeMany_total.
  inversion Hfiles as [| ? ? [s ->] _]; subst. simpl.
  repeat (destruct (array_includes _ _); [now eexists |]).
  now apply describeMany_total.
Qed.

Section SuggesterProperties.

Variable parseDiff : string -> list DiffFile.

(** C10. On every analysis result with [hasChanges = false],
    [generateCommitMessage] returns [null]; on every result of
    [analyzeChanges] with [hasChanges = true] it returns a string. *)
Theorem generateCommitMessage_null_or_string :
  (forall r, hasChanges r = false -> generateCommitMessage r = Ok None)
  /\ (forall git options_mode log r log',
        analyzeChanges parseDiff git options_mode log = (Ok r, log') ->
        hasChanges r = true ->
        exists message, generateCommitMessage r = Ok (Some message)).
Proof.
  split.
  - intros [n | a]; [reflexivity | discriminate].
  - intros git options_mode log [n | a] log' Hrun; [discriminate |]. intros _.
    destruct (Changed_paths _ _ _ _ _ _ Hrun) as [Hfiles [Hmod [Hcre _]]].
    simpl.
    destruct (determineScope_total (a_files a) (a_categorization a) Hfiles)
      as [scope ->].
    destruct (generateDescription_total (a_categorization a) (a_changeTypes a)
                (a_files a) Hfiles Hcre Hmod) as [description ->].
    simpl. now eexists.
Qed.

End SuggesterProperties.

(** ** Line statistics *)

Lemma countChange_fold l : forall acc,
  fold_left countChange l acc
  = (fst acc + List.length (filter (fun c => String.eqb (c_type c) "add") l),
     snd acc + List.length (filter (fun c => String.eqb (c_type c) "del") l)).
Proof.
  induction l as [| c l IH]; intros [a d]; simpl.
  - now rewrite !Nat.add_0_r.
  - rewrite IH. unfold countChange. simpl.
    destruct (String.eqb_spec (c_type c) "add") as [E | _].
    + rewrite E. simpl. f_equal; lia.
    + destruct (String.eqb (c_type c) "del"); simpl; f_equal; lia.
Qed.

Lemma countChunk_fold chunks : forall acc,
  fold_left countChunk chunks acc
  = (fst acc + Spec.taggedInFile "add"
                 {| f_chunks := Some chunks; f_additions := None;
                    f_deletions := None; f_from := None; f_to := None;
                    f_new := false; f_deleted := false; f_renamed := false |},
     snd acc + Spec.taggedInFile "del"
                 {| f_chunks := Some chunks; f_additions := None;
                    f_deletions := None; f_from := None; f_to := None;
                    f_new := false; f_deleted := false; f_renamed := false |}).
Proof.
  unfold Spec.taggedInFile. simpl.
  induction chunks as [| chunk chunks IH]; intros [a d]; simpl.
  - now rewrite !Nat.add_0_r.
  - rewrite IH. unfold countChunk. rewrite countChange_fold. simpl.
    f_equal; lia.
Qed.

Lemma countFile_sum acc file :
  countFile acc file
  = (fst acc + Spec.taggedInFile "add" file
     + match f_additions file with Some n => n | None => 0 end,
     snd acc + Spec.taggedInFile "del" file
     + match f_deletions file with Some n => n | None => 0 end).
Proof.
  destruct acc as [a d]. unfold countFile, Spec.taggedInFile.
  destruct (f_chunks file) as [chunks |].
  - rewrite countChunk_fold. unfold Spec.taggedInFile. simpl.
    destruct (f_additions file), (f_deletions file); simpl; f_equal; lia.
  - destruct (f_additions file), (f_deletions file); simpl; f_equal; lia.
Qed.

Lemma countFile_fold parsedDiff : forall acc,
  fold_left countFile parsedDiff acc
  = (fst acc + Spec.taggedAdditions parsedDiff
     + Spec.fileLevel f_additions parsedDiff,
     snd acc + Spec.taggedDeletions parsedDiff
     + Spec.fileLevel f_deletions parsedDiff).
Proof.
  unfold Spec.taggedAdditions, Spec.taggedDeletions, Spec.fileLevel.
  induction parsedDiff as [| file parsedDiff IH]; intros [a d]; simpl.
  - f_equal; lia.
  - rewrite IH, countFile_sum. simpl. f_equal; lia.
Qed.

(** What [calculateLineStats] computes: the tagged lines of the chunks plus
    the per-file counters. *)
Lemma calculateLineStats_sum parsedDiff :
  additions (calculateLineStats parsedDiff)
  = Spec.taggedAdditions parsedDiff + Spec.fileLevel f_additions parsedDiff
  /\ deletions (calculateLineStats parsedDiff)
     = Spec.taggedDeletions parsedDiff + Spec.fileLevel f_deletions parsedDiff.
Proof.
  unfold calculateLineStats. rewrite countFile_fold. simpl. split; reflexivity.
Qed.

Lemma fileLevel_consistent parsedDiff :
  Forall Spec.consistentFile parsedDiff ->
  Spec.fileLevel f_additions parsedDiff = Spec.taggedAdditions parsedDiff
  /\ Spec.fileLevel f_deletions parsedDiff = Spec.taggedDeletions parsedDiff.
Proof.
  unfold Spec.fileLevel, Spec.taggedAdditions, Spec.taggedDeletions.
  induction 1 as [| file parsedDiff [_ [Ea Ed]] _ [IHa IHd]]; simpl.
  - split; reflexivity.
  - rewrite Ea, Ed, IHa, IHd. split; reflexivity.
Qed.

(** On the records [parse-diff] builds, every tagged line is counted twice. *)
Lemma calculateLineStats_doubles parsedDiff :
  Forall Spec.consistentFile parsedDiff ->
  additions (calculateLineStats parsedDiff) = 2 * Spec.taggedAdditions parsedDiff
  /\ deletions (calculateLineStats parsedDiff)
     = 2 * Spec.taggedDeletions parsedDiff
  /\ additions (calculateLineStats parsedDiff)
     + deletions (calculateLineStats parsedDiff)
     = 2 * Spec.perFileTotal parsedDiff.
Proof.
  intros H. destruct (calculateLineStats_sum parsedDiff) as [Ea Ed].
  destruct (fileLevel_consistent parsedDiff H) as [Fa Fd].
  unfold Spec.perFileTotal. rewrite Ea, Ed, Fa, Fd. lia.
Qed.

(** C2. For the parsed diff of one file with one added line, the line
    statistics report two additions: the line tagged as addition in the chunk
    is counted, and the per-file counter is added on top.  The number of
    tagged lines and the sum of the per-file counters are both one. *)
Theorem lineStats_count_twice :
  additions (calculateLineStats [Sample.appFile]) = 2
  /\ deletions (calculateLineStats [Sample.appFile]) = 0
  /\ Spec.taggedAdditions [Sample.appFile] = 1
  /\ Spec.taggedDeletions [Sample.appFile] = 0
  /\ Spec.perFileTotal [Sample.appFile] = 1
  /\ additions (calculateLineStats [Sample.appFile])
     + deletions (calculateLineStats [Sample.appFile])
     <> Spec.perFileTotal [Sample.appFile].
Proof.
  repeat split; try reflexivity. vm_compute. discriminate.
Qed.

(** ** Unrecognized status lines *)

(** A line of at least four characters that has no rename arrow, no [M] and
    no [D] in its two status characters, and is neither [A] nor [??], leaves
    the lists [modified], [created], [deleted] and [renamed] as they are: its
    path goes to [files] only, and not even there when the index character
    is [R]. *)
Lemma statusLine_unrecognized status line
  (Hlong : Nat.ltb (String.length line) 4 = false)
  (Harrow : includes line " -> " = false)
  (HM : char_is line 0 "M" || char_is line 1 "M" = false)
  (HA : char_is line 0 "A" || char_is line 0 "?" && char_is line 1 "?" = false)
  (HD : char_is line 0 "D" || char_is line 1 "D" = false) :
  exists status',
    statusLine status line = Ok status'
    /\ st_modified status' = st_modified status
    /\ st_created status' = st_created status
    /\ st_deleted status' = st_deleted status
    /\ st_renamed status' = st_renamed status
    /\ st_files status'
       = if char_is line 0 "R" then st_files status
         else push (st_files status) (trim (slice 3 line)).
Proof.
  unfold statusLine. rewrite Hlong, Harrow, HM, HA, HD.
  destruct (char_is line 0 "R"); eexists; split; try reflexivity; simpl; auto.
Qed.

(** C6. The status line of a staged type change, [T  src/app.js], matches
    none of the recognized patterns; the status parser puts its path in
    [files] and leaves the [modified] list empty. *)
Theorem unrecognized_line_not_modified :
  parsePorcelainStatus Sample.typeChange
  = Ok {| st_modified := [];
          st_created := [];
          st_deleted := [];
          st_renamed := [];
          st_files := ["src/app.js"] |}.
Proof. reflexivity. Qed.

(** ** Concrete runs *)

Lemma parseDiffTable_blank table text :
  trim text = "" -> Sample.parseDiffTable table text = [].
Proof. intros H. unfold Sample.parseDiffTable. now rewrite H. Qed.

(** With a HEAD, a status listing that is not blank always gives
    [hasChanges = true], whatever the mode and the diff. *)
Lemma status_listing_forces_changes parseDiff git options_mode log r log'
  statusOutput
  (Hhead : exists id, raw_rev_parse_HEAD git = Ok id)
  (Hstatus : raw_status_porcelain git = Ok statusOutput)
  (Hlisting : is_empty (trim statusOutput) = false)
  (Hrun : analyzeChanges parseDiff git options_mode log = (Ok r, log')) :
  hasChanges r = true.
Proof.
  destruct Hhead as [id Hhead]. revert Hrun.
  unfold analyzeChanges, try_catch, bind.
  unfold await at 1.
  destruct (checkIsRepo git) as [[|] |]; simpl; try discriminate.
  unfold checkHasHead, try_catch, bind, await, ret.
  rewrite Hhead, Hstatus. unfold lift.
  destruct (parsePorcelainStatus statusOutput) as [status |]; [| discriminate].
  simpl.
  destruct (diffForMode git _ _) as [[scoped |] log1]; [| discriminate].
  rewrite Hlisting, andb_false_r.
  destruct (categorizeFiles _) as [c |]; [| discriminate].
  intros H. injection H as <- <-. reflexivity.
Qed.

(** C1. Mode [staged], a repository with a HEAD, an empty index diff and one
    unstaged modification in the status listing: the result has
    [hasChanges = true]; it reports one modified file although the parsed
    diff is empty. *)
Theorem staged_mode_reports_unstaged :
  exists a log',
    analyzeChanges (Sample.parseDiffTable Sample.appTable) Sample.unstagedOnly
      (Some "staged") []
    = (Ok (Changed a), log')
    /\ hasChanges (Changed a) = true
    /\ a_mode a = "staged"
    /\ a_diff a = ""
    /\ a_parsedDiff a = []
    /\ List.length (a_files a) = 1
    /\ sm_modified (a_summary a) = 1.
Proof.
  eexists. eexists. split; [vm_compute; reflexivity |].
  repeat split.
Qed.

(** *** Records of the same path *)

Lemma extendsModified_refl acc : Spec.extendsModified acc acc.
Proof. exists []. now rewrite app_nil_r. Qed.

Lemma extendsModified_trans a b c :
  Spec.extendsModified a b -> Spec.extendsModified b c -> Spec.extendsModified a c.
Proof.
  intros [x Hx] [y Hy]. exists (x ++ y). now rewrite Hy, Hx, app_assoc.
Qed.

Lemma fold_left_extends {B : Type} (step : FileChanges -> B -> FileChanges) :
  (forall acc x, Spec.extendsModified acc (step acc x)) ->
  forall l acc, Spec.extendsModified acc (fold_left step l acc).
Proof.
  intros Hstep l. induction l as [| x l IH]; intros acc; simpl.
  - apply extendsModified_refl.
  - eapply extendsModified_trans; [apply Hstep | apply IH].
Qed.

Ltac extends_step :=
  first [ apply extendsModified_refl
        | eexists; simpl; unfold push; reflexivity
        | exists []; simpl; now rewrite app_nil_r ].

Lemma diffEntry_extends acc file : Spec.extendsModified acc (diffEntry acc file).
Proof.
  unfold diffEntry.
  destruct (f_deleted file); [extends_step |].
  destruct (f_new file); [extends_step |].
  destruct (f_renamed file); extends_step.
Qed.

Lemma mergeModified_extends acc file :
  Spec.extendsModified acc (mergeModified acc file).
Proof. unfold mergeModified. destruct (negb _); extends_step. Qed.

Lemma mergeCreated_extends acc file :
  Spec.extendsModified acc (mergeCreated acc file).
Proof. unfold mergeCreated. destruct (negb _); extends_step. Qed.

Lemma mergeDeleted_extends acc file :
  Spec.extendsModified acc (mergeDeleted acc file).
Proof. unfold mergeDeleted. destruct (negb _); extends_step. Qed.

Lemma mergeRenamed_extends acc rename :
  Spec.extendsModified acc (mergeRenamed acc rename).
Proof. unfold mergeRenamed. destruct (find _ _); extends_step. Qed.

Lemma occurrences_app path l1 l2 :
  Spec.occurrences path (l1 ++ l2)
  = Spec.occurrences path l1 + Spec.occurrences path l2.
Proof. unfold Spec.occurrences. now rewrite filter_app, length_app. Qed.

Lemma occurrences_absent path l :
  ~ In (Some path) l -> Spec.occurrences path l = 0.
Proof.
  unfold Spec.occurrences. induction l as [| v l IH]; intros Hv.
  - reflexivity.
  - cbn [filter]. destruct (jsv_eqb (Some path) v) eqn:E.
    + apply jsv_eqb_eq in E. subst v. exfalso. apply Hv. now left.
    + apply IH. intros H. apply Hv. now right.
Qed.

Lemma occurrences_NoDup path l :
  NoDup l -> In (Some path) l -> Spec.occurrences path l = 1.
Proof.
  induction 1 as [| v l Hv Hl IH]; intros Hin.
  - destruct Hin.
  - unfold Spec.occurrences. cbn [filter].
    destruct (jsv_eqb (Some path) v) eqn:E.
    + apply jsv_eqb_eq in E. subst v. cbn [List.length]. f_equal.
      now apply occurrences_absent.
    + destruct Hin as [-> | Hin]; [| now apply IH].
      assert (jsv_eqb (Some path) (Some path) = true) by now apply jsv_eqb_eq.
      congruence.
Qed.

(** Two plain records of one path at the head of the parsed diff put the
    path twice in [modified] and once in [allFiles], whatever follows and
    whatever the status. *)
Lemma two_records_two_entries first second rest status path :
  Spec.plain first path -> Spec.plain second path ->
  let fileChanges := extractFileChanges (first :: second :: rest) status in
  2 <= Spec.occurrences path (modified (changeTypes fileChanges))
  /\ Spec.occurrences path (allFiles fileChanges) = 1.
Proof.
  intros [Hd1 [Hn1 [Hr1 Hp1]]] [Hd2 [Hn2 [Hr2 Hp2]]] fileChanges.
  assert (Hext : Spec.extendsModified
                   (diffEntry (diffEntry empty_changes first) second)
                   fileChanges).
  { unfold fileChanges, extractFileChanges. simpl.
    eapply extendsModified_trans;
      [apply (fold_left_extends diffEntry diffEntry_extends) |].
    eapply extendsModified_trans;
      [apply (fold_left_extends mergeModified mergeModified_extends) |].
    eapply extendsModified_trans;
      [apply (fold_left_extends mergeCreated mergeCreated_extends) |].
    eapply extendsModified_trans;
      [apply (fold_left_extends mergeDeleted mergeDeleted_extends) |].
    apply (fold_left_extends mergeRenamed mergeRenamed_extends). }
  destruct Hext as [extra Hext].
  assert (Hmod : modified (changeTypes
                             (diffEntry (diffEntry empty_changes first) second))
                 = [Some path; Some path]).
  { unfold diffEntry. rewrite Hd1, Hn1, Hr1. simpl.
    rewrite Hd2, Hn2, Hr2. simpl. now rewrite Hp1, Hp2. }
  rewrite Hmod in Hext. split.
  - rewrite Hext, occurrences_app. unfold Spec.occurrences at 1. simpl.
    rewrite String.eqb_refl. simpl. lia.
  - apply occurrences_NoDup; [apply extractFileChanges_NoDup |].
    apply (extractFileChanges_covered (first :: second :: rest) status).
    left. fold fileChanges. rewrite Hext. now left.
Qed.

(** C3. Mode [all], one file staged: the file shows in the index diff and in
    the working-tree diff, the parsed diff holds two records of the same
    path; the result lists the path once in [files] and twice in
    [modified], and its summary counts one file and two modified. *)
Theorem all_mode_lists_path_twice :
  exists a log',
    analyzeChanges (Sample.parseDiffTable Sample.appTable) Sample.stagedApp
      None []
    = (Ok (Changed a), log')
    /\ a_files a = [Some "src/app.js"]
    /\ modified (a_changeTypes a) = [Some "src/app.js"; Some "src/app.js"]
    /\ Spec.occurrences "src/app.js" (a_files a) = 1
    /\ Spec.occurrences "src/app.js" (modified (a_changeTypes a)) = 2
    /\ totalFiles (a_summary a) = 1
    /\ sm_modified (a_summary a) = 2.
Proof.
  eexists. eexists. split; [vm_compute; reflexivity |].
  repeat split.
Qed.

(** C7, as stated, fails: in a clean repository the message is the same for
    the modes [staged], [unstaged] and [all], and it does not name staged
    changes. *)
Lemma no_changes_message_not_mode_specific :
  let run mode :=
    Spec.messageOf
      (analyzeChanges (Sample.parseDiffTable []) Sample.clean mode []) in
  run (Some "staged") = Some "No changes detected since the last commit"
  /\ run (Some "unstaged") = run (Some "staged")
  /\ run None = run (Some "staged")
  /\ includes "No changes detected since the last commit" "staged" = false.
Proof. repeat split. Qed.

(** C8, as stated, fails: outside a repository the error the caller
    receives is not the not-a-repository error itself. *)
Lemma not_a_repository_not_verbatim :
  fst (analyzeChanges (Sample.parseDiffTable []) Sample.outside None [])
  <> Throw not_a_repository.
Proof. vm_compute. discriminate. Qed.

(** ** Instances *)

Lemma analyzeChanges_deterministic_instance :
  fst (analyzeChanges (Sample.parseDiffTable Sample.appTable) Sample.stagedApp
         None
         (snd (analyzeChanges (Sample.parseDiffTable Sample.appTable)
                 Sample.stagedApp None [])))
  = fst (analyzeChanges (Sample.parseDiffTable Sample.appTable)
           Sample.stagedApp None []).
Proof.
  exact (analyzeChanges_deterministic (Sample.parseDiffTable Sample.appTable)
           Sample.stagedApp None []).
Defined.

Lemma not_a_repository_wrapped_witness :
  analyzeChanges (Sample.parseDiffTable []) Sample.outside (Some "staged") []
  = (Throw "Failed to analyze git changes: Not a git repository. Please run this command inside a git repository.",
     [QCheckIsRepo]).
Proof.
  exact (not_a_repository_wrapped (Sample.parseDiffTable []) Sample.outside
           (Some "staged") [] eq_refl).
Defined.

Lemma no_changes_fixed_message_witness :
  analyzeChanges (Sample.parseDiffTable []) Sample.clean (Some "staged") []
  = (Ok (Unchanged {| n_message := "No changes detected since the last commit";
                      n_isFirstCommit := false;
                      n_mode := Some "staged";
                      n_analysisScope := "staged changes" |}),
     [QCheckIsRepo; QRevParseHead; QStatusPorcelain; QDiffCachedHead]).
Proof.
  exact (no_changes_fixed_message (Sample.parseDiffTable [])
           (parseDiffTable_blank []) Sample.clean "staged" [] ""
           eq_refl
           (ex_intro _ "9fceb02d0ae598e95dc970b74767f19372d61af8" eq_refl)
           eq_refl eq_refl eq_refl eq_refl).
Defined.

Lemma first_commit_all_created_witness :
  exists a,
    analyzeChanges (Sample.parseDiffTable Sample.appTable) Sample.fresh None []
    = (Ok (Changed a), [QCheckIsRepo; QRevParseHead; QStatusPorcelain; QDiff])
    /\ isFirstCommit (Changed a) = true
    /\ created (a_changeTypes a) = [Some "README.md"; Some "src/app.js"]
    /\ modified (a_changeTypes a) = []
    /\ deleted (a_changeTypes a) = []
    /\ renamed (a_changeTypes a) = [].
Proof.
  destruct (first_commit_all_created
              (Sample.parseDiffTable Sample.appTable) Sample.fresh None []
              ("A  README.md" ++ newline ++ "AM src/app.js" ++ newline)%string
              {| st_modified := ["src/app.js"];
                 st_created := ["README.md"];
                 st_deleted := [];
                 st_renamed := [];
                 st_files := ["README.md"; "src/app.js"] |}
              Sample.appDiff
              eq_refl
              (ex_intro _ _ eq_refl)
              eq_refl
              eq_refl
              ltac:(discriminate)
              eq_refl)
    as [a [Hrun [Hfirst [_ [Hcreated [Hmodified [Hdeleted [Hrenamed _]]]]]]]].
  exists a. repeat split; assumption.
Defined.

Lemma each_path_in_exactly_one_bucket_witness :
  exists r log',
    analyzeChanges (Sample.parseDiffTable Sample.appTable) Sample.fresh None []
    = (Ok r, log')
    /\ hasChanges r = true
    /\ exists a,
         r = Changed a
         /\ Forall Spec.isString (a_files a)
         /\ forall path,
              Spec.bucketsHolding (a_categorization a) path
              = if existsb (jsv_eqb (Some path)) (a_files a) then 1 else 0.
Proof.
  eexists. eexists.
  assert (Hrun : analyzeChanges (Sample.parseDiffTable Sample.appTable)
                   Sample.fresh None []
                 = (Ok _, _)) by (vm_compute; reflexivity).
  split; [exact Hrun |]. split; [reflexivity |].
  exact (each_path_in_exactly_one_bucket _ _ _ _ _ _ Hrun eq_refl).
Defined.

Lemma generateCommitMessage_null_or_string_witness :
  generateCommitMessage
    (Unchanged {| n_message := "No changes detected since the last commit";
                  n_isFirstCommit := false;
                  n_mode := Some "staged";
                  n_analysisScope := "staged changes" |})
  = Ok None
  /\ exists r log',
       analyzeChanges (Sample.parseDiffTable Sample.appTable) Sample.fresh
         None []
       = (Ok r, log')
       /\ hasChanges r = true
       /\ exists message, generateCommitMessage r = Ok (Some message).
Proof.
  destruct (generateCommitMessage_null_or_string
              (Sample.parseDiffTable Sample.appTable)) as [Hnull Hstring].
  split; [apply Hnull; reflexivity |].
  eexists. eexists.
  assert (Hrun : analyzeChanges (Sample.parseDiffTable Sample.appTable)
                   Sample.fresh None []
                 = (Ok _, _)) by (vm_compute; reflexivity).
  split; [exact Hrun |]. split; [reflexivity |].
  exact (Hstring _ _ _ _ _ Hrun eq_refl).
Defined.

(** ** Checks of the string primitives and of the suggester *)

Example trim_first_line :
  trim (" M src/app.js" ++ newline) = "M src/app.js".
Proof. reflexivity. Qed.

Example split_arrow :
  split " -> " "old.js -> new.js" = ["old.js"; "new.js"].
Proof. reflexivity. Qed.

Example split_arrow_at_end : split " -> " "a -> " = ["a"; ""].
Proof. reflexivity. Qed.

Example split_lines :
  split newline ("a" ++ newline ++ newline ++ "b") = ["a"; ""; "b"].
Proof. reflexivity. Qed.

Example toLowerCase_readme : toLowerCase "README.md" = "readme.md".
Proof. reflexivity. Qed.

Example rename_line :
  parsePorcelainStatus "R  old.js -> new.js"
  = Ok {| st_modified := [];
          st_created := [];
          st_deleted := [];
          st_renamed := [("old.js", "new.js")];
          st_files := ["new.js"] |}.
Proof. reflexivity. Qed.

Example wordsOf_camel : wordsOf "userLogin-form_v2" = ["user"; "login"; "form"].
Proof. reflexivity. Qed.

Example inferFeature_repeated :
  inferFeatureFromFiles [Some "src/userLogin.js"; Some "src/user-profile.js"]
  = Ok (Some "user").
Proof. reflexivity. Qed.

Example inferFeature_constructor :
  inferFeatureFromFiles [Some "a/constructor.js"; Some "b/Constructor.ts"]
  = Ok None.
Proof. reflexivity. Qed.

Example inferFeature_index_first :
  inferFeatureFromFiles [Some "src/abc-123.js"; Some "src/123_abc.js"]
  = Ok (Some "123").
Proof. reflexivity. Qed.

Example message_first_commit :
  exists r log',
    analyzeChanges (Sample.parseDiffTable Sample.appTable) Sample.fresh None []
    = (Ok r, log')
    /\ generateCommitMessage r = Ok (Some "feat: add new features").
Proof.
  eexists. eexists.
  split; [vm_compute; reflexivity | vm_compute; reflexivity].
Qed.

Example message_single_file :
  exists r log',
    analyzeChanges (Sample.parseDiffTable Sample.appTable) Sample.stagedApp
      None []
    = (Ok r, log')
    /\ generateCommitMessage r = Ok (Some "feat(app): update app.js").
Proof.
  eexists. eexists.
  split; [vm_compute; reflexivity | vm_compute; reflexivity].
Qed.

(** * Further properties of the analyzer *)

Import Facts.

(** ** The status parser: when it throws, and what [files] holds *)

Lemma split_go_nonempty sep skip cur s : split_go sep skip cur s <> [].
Proof.
  revert skip cur. induction s as [| c r IH]; intros skip cur; cbn [split_go].
  - discriminate.
  - destruct skip; [| apply IH].
    destruct (prefix sep (String c r)); [discriminate | apply IH].
Qed.

(** For a non-empty separator, [split] gives at least two pieces exactly
    when the text includes the separator. *)
Lemma split_go_two sep s :
  sep <> "" ->
  forall cur,
    includes s sep
    = match split_go sep 0 cur s with
      | _ :: _ :: _ => true
      | _ => false
      end.
Proof.
  intros Hsep. induction s as [| c r IH]; intros cur.
  - simpl. destruct sep; [congruence | reflexivity].
  - cbn [includes split_go].
    destruct (prefix sep (String c r)).
    + destruct (split_go sep (String.length sep - 1) "" r) eqn:E;
        [now apply split_go_nonempty in E | reflexivity].
    + apply IH.
Qed.

Lemma statusLine_throws status line :
  match statusLine status line with
  | Ok _ => brokenArrow line = false
  | Throw message =>
      brokenArrow line = true /\ message = TypeError_undefined "trim"
  end.
Proof.
  unfold statusLine, brokenArrow.
  destruct (Nat.ltb (String.length line) 4); [reflexivity |].
  destruct (includes line " -> ").
  - rewrite (split_go_two " -> " (trim (slice 3 line)) ltac:(discriminate) "").
    fold (split " -> " (trim (slice 3 line))).
    destruct (split " -> " (trim (slice 3 line))) as [| a [| b rest]];
      simpl; auto.
  - repeat match goal with
           | |- context [if ?b then _ else _] => destruct b
           end; reflexivity.
Qed.

Lemma for_of_statusLine_throws lines : forall status,
  match for_of statusLine lines status with
  | Ok _ => forall line, In line lines -> brokenArrow line = false
  | Throw message =>
      message = TypeError_undefined "trim"
      /\ exists line, In line lines /\ brokenArrow line = true
  end.
Proof.
  induction lines as [| l lines IH]; intros status.
  - simpl. intros line [].
  - cbn [for_of]. pose proof (statusLine_throws status l) as Hl.
    destruct (statusLine status l) as [status1 | e].
    + specialize (IH status1).
      destruct (for_of statusLine lines status1) as [status2 | e2].
      * intros line [<- | Hin]; auto.
      * destruct IH as [-> [line [Hin Hb]]]. split; [reflexivity |].
        exists line. split; [now right | exact Hb].
    + destruct Hl as [Hb ->]. split; [reflexivity |].
      exists l. split; [now left | exact Hb].
Qed.

(** The error of [parsePorcelainStatus] is always the same TypeError. *)
Lemma parsePorcelainStatus_error statusOutput message :
  parsePorcelainStatus statusOutput = Throw message ->
  message = TypeError_undefined "trim".
Proof.
  unfold parsePorcelainStatus.
  destruct (is_empty (trim statusOutput)); [discriminate |].
  pose proof (for_of_statusLine_throws (split newline (trim statusOutput))
                empty_status) as H.
  destruct (for_of statusLine _ empty_status) as [status | e];
    [discriminate |].
  intros E. injection E as <-. tauto.
Qed.

(** X1. [parsePorcelainStatus] throws exactly when some line of the trimmed
    listing has at least four characters and includes the rename arrow
    while its path part (the text from the fourth character on, trimmed)
    does not; the error is then the TypeError of reading [trim] of
    [undefined].  On every other input it returns a status object. *)
Theorem parsePorcelainStatus_throws_iff statusOutput :
  ((exists message, parsePorcelainStatus statusOutput = Throw message)
   <-> exists line,
         In line (split newline (trim statusOutput))
         /\ brokenArrow line = true)
  /\ forall message,
       parsePorcelainStatus statusOutput = Throw message ->
       message = TypeError_undefined "trim".
Proof.
  split; [| apply parsePorcelainStatus_error].
  unfold parsePorcelainStatus.
  destruct (is_empty (trim statusOutput)) eqn:Eempty.
  - split.
    + intros [message H]. discriminate.
    + destruct (trim statusOutput); [| discriminate].
      intros [line [[<- | []] Hb]]. discriminate.
  - pose proof (for_of_statusLine_throws (split newline (trim statusOutput))
                  empty_status) as H.
    destruct (for_of statusLine _ empty_status) as [status | e].
    + split.
      * intros [message Hm]. discriminate.
      * intros [line [Hin Hb]]. rewrite (H line Hin) in Hb. discriminate.
    + destruct H as [_ Hex]. split; [intros _; exact Hex | now exists e].
Qed.

Lemma statusLine_kindsWithinFiles status line status' :
  statusLine status line = Ok status' ->
  kindsWithinFiles status -> kindsWithinFiles status'.
Proof.
  unfold statusLine, kindsWithinFiles.
  intros H [Hin Hlen].
  destruct (Nat.ltb (String.length line) 4); [injection H as <-; auto |].
  destruct (includes line " -> ").
  { destruct (split " -> " (trim (slice 3 line))) as [| oldPath [| newPath rest]];
      try discriminate.
    injection H as <-. simpl. split.
    - intros path. rewrite !push_In. specialize (Hin path).
      intros [Hp | [Hp | [Hp | [o Hp]]]]; try (left; apply Hin; tauto).
      apply push_In in Hp. destruct Hp as [Hp | Hp].
      + left. apply Hin. right. right. right. now exists o.
      + injection Hp as -> ->. now right.
    - unfold push. rewrite !length_app. simpl. lia. }
  destruct (char_is line 0 "M" || char_is line 1 "M");
    [| destruct (char_is line 0 "A" || char_is line 0 "?" && char_is line 1 "?");
       [| destruct (char_is line 0 "D" || char_is line 1 "D");
          [| destruct (char_is line 0 "R")]]];
    injection H as <-; simpl; (split; [| unfold push; rewrite ?length_app; simpl; lia]);
    intros path; rewrite ?push_In; specialize (Hin path); tauto.
Qed.

(** X2. In the object [parsePorcelainStatus] returns, every path of
    [modified], [created] and [deleted] and every rename target is in
    [files], and the four kind lists together are no longer than [files]. *)
Theorem status_kinds_within_files statusOutput status
  (Hparsed : parsePorcelainStatus statusOutput = Ok status) :
  (forall path,
      In path (st_modified status) \/ In path (st_created status)
      \/ In path (st_deleted status)
      \/ (exists oldPath, In (oldPath, path) (st_renamed status)) ->
      In path (st_files status))
  /\ List.length (st_modified status) + List.length (st_created status)
     + List.length (st_deleted status) + List.length (st_renamed status)
     <= List.length (st_files status).
Proof.
  assert (Hempty : kindsWithinFiles empty_status).
  { split; [| simpl; lia]. simpl. intros path [[] | [[] | [[] | [o []]]]]. }
  revert Hparsed. unfold parsePorcelainStatus.
  destruct (is_empty (trim statusOutput)).
  - intros H. injection H as <-. exact Hempty.
  - generalize (split newline (trim statusOutput)), empty_status, Hempty.
    induction l as [| line lines IH]; intros status0 H0 H.
    + injection H as <-. exact H0.
    + cbn [for_of] in H.
      destruct (statusLine status0 line) as [status1 |] eqn:E; [| discriminate].
      exact (IH status1 (statusLine_kindsWithinFiles _ _ _ E H0) H).
Qed.

(** ** The merge: what [allFiles] holds *)

Lemma fold_left_addsKey {B : Type} (step : FileChanges -> B -> FileChanges)
  (key : B -> jsv) :
  addsKey step key ->
  forall l acc,
    targetsWithinFiles acc ->
    targetsWithinFiles (fold_left step l acc)
    /\ forall v, In v (allFiles (fold_left step l acc))
                 <-> In v (allFiles acc) \/ exists x, In x l /\ v = key x.
Proof.
  intros Hstep l. induction l as [| x l IH]; intros acc Hacc.
  - simpl. split; [exact Hacc |]. intros v. split; [tauto |].
    intros [H | [x [[] _]]]. exact H.
  - destruct (Hstep acc x Hacc) as [H1 Hv1].
    destruct (IH _ H1) as [H2 Hv2]. simpl. split; [exact H2 |].
    intros v. rewrite Hv2, Hv1. split.
    + intros [[H | ->] | [y [Hy ->]]]; eauto.
    + intros [H | [y [[-> | Hy] ->]]]; eauto.
Qed.

Ltac targets_step :=
  unfold targetsWithinFiles; simpl;
  intros Hacc; split;
  [ intros r; rewrite ?push_In, ?set_add_In;
    specialize (Hacc r); intuition (subst; auto)
  | intros v; rewrite ?set_add_In; reflexivity ].

Lemma diffEntry_addsKey : addsKey diffEntry diffPath.
Proof.
  intros acc file. unfold diffEntry, diffPath.
  destruct (f_deleted file); [targets_step |].
  destruct (f_new file); [targets_step |].
  destruct (f_renamed file); targets_step.
Qed.

Ltac guarded_step file :=
  let E := fresh "E" in
  destruct (set_has _ (Some file)) eqn:E; simpl;
  [ intros Hacc; split; [exact Hacc |];
    intros v; apply set_has_In in E; split; [tauto |];
    intros [H | ->]; assumption
  | targets_step ].

Lemma mergeModified_addsKey : addsKey mergeModified Some.
Proof. intros acc file. unfold mergeModified. guarded_step file. Qed.

Lemma mergeCreated_addsKey : addsKey mergeCreated Some.
Proof. intros acc file. unfold mergeCreated. guarded_step file. Qed.

Lemma mergeDeleted_addsKey : addsKey mergeDeleted Some.
Proof. intros acc file. unfold mergeDeleted. guarded_step file. Qed.

Lemma mergeRenamed_addsKey :
  addsKey mergeRenamed (fun rename => Some (snd rename)).
Proof.
  intros acc rename. unfold mergeRenamed.
  destruct (find _ _) as [r |] eqn:E.
  - intros Hacc. split; [exact Hacc |].
    apply find_some in E. destruct E as [Hr Eto].
    apply jsv_eqb_eq in Eto. intros v. split; [tauto |].
    intros [H | ->]; [exact H |]. rewrite <- Eto. now apply Hacc.
  - targets_step.
Qed.

(** X3. A value is in [allFiles] of [extractFileChanges] exactly when it
    is the path of a record of the parsed diff ([to] for a rename,
    [to || from] otherwise), or a path of [status.modified],
    [status.created] or [status.deleted], or the target of an entry of
    [status.renamed]. *)
Theorem allFiles_membership parsedDiff status v :
  In v (allFiles (extractFileChanges parsedDiff status))
  <-> (exists file, In file parsedDiff /\ v = diffPath file)
      \/ (exists path,
             v = Some path
             /\ (In path (st_modified status) \/ In path (st_created status)
                 \/ In path (st_deleted status)
                 \/ exists oldPath, In (oldPath, path) (st_renamed status))).
Proof.
  unfold extractFileChanges.
  assert (H0 : targetsWithinFiles empty_changes) by (intros r []).
  destruct (fold_left_addsKey _ _ diffEntry_addsKey parsedDiff _ H0)
    as [H1 V1].
  destruct (fold_left_addsKey _ _ mergeModified_addsKey (st_modified status) _ H1)
    as [H2 V2].
  destruct (fold_left_addsKey _ _ mergeCreated_addsKey (st_created status) _ H2)
    as [H3 V3].
  destruct (fold_left_addsKey _ _ mergeDeleted_addsKey (st_deleted status) _ H3)
    as [H4 V4].
  destruct (fold_left_addsKey _ _ mergeRenamed_addsKey (st_renamed status) _ H4)
    as [_ V5].
  rewrite V5, V4, V3, V2, V1. simpl. split.
  - intros [[[[[[] | H] | [p [Hp ->]]] | [p [Hp ->]]] | [p [Hp ->]]]
           | [[o p] [Hp ->]]]; eauto 8.
  - intros [H | [p [-> [Hp | [Hp | [Hp | [o Hp]]]]]]]; eauto 8.
Qed.

(** X4. In every result of the diff branch ([isFirstCommit] absent), [files]
    holds no path twice. *)
Theorem files_without_duplicates parseDiff git options_mode log a log'
  (Hrun : analyzeChanges parseDiff git options_mode log = (Ok (Changed a), log'))
  (Hhead : a_isFirstCommit a = false) :
  NoDup (a_files a).
Proof.
  apply analyzeChanges_Changed in Hrun.
  destruct Hrun as [_ [[status [Hfirst _]] | [pd [status [_ [_ [Ef _]]]]]]].
  - congruence.
  - rewrite Ef. apply extractFileChanges_NoDup.
Qed.

Lemma extractFileChanges_targets parsedDiff status :
  targetsWithinFiles (extractFileChanges parsedDiff status).
Proof.
  unfold extractFileChanges.
  assert (H0 : targetsWithinFiles empty_changes) by (intros r []).
  apply (fold_left_addsKey _ _ mergeRenamed_addsKey).
  apply (fold_left_addsKey _ _ mergeDeleted_addsKey).
  apply (fold_left_addsKey _ _ mergeCreated_addsKey).
  apply (fold_left_addsKey _ _ mergeModified_addsKey).
  now apply (fold_left_addsKey _ _ diffEntry_addsKey).
Qed.

(** X5. In every result with changes, every entry of the lists [modified],
    [created] and [deleted] and the [to] path of every entry of [renamed]
    is an entry of [files]. *)
Theorem change_lists_within_files parseDiff git options_mode log a log'
  (Hrun : analyzeChanges parseDiff git options_mode log
          = (Ok (Changed a), log')) :
  (forall v,
      In v (modified (a_changeTypes a)) \/ In v (created (a_changeTypes a))
      \/ In v (deleted (a_changeTypes a)) ->
      In v (a_files a))
  /\ forall r, In r (renamed (a_changeTypes a)) -> In (to r) (a_files a).
Proof.
  apply analyzeChanges_Changed in Hrun.
  destruct Hrun as [_ [[status [_ [Ef Ect]]] | [pd [status [_ [_ [Ef Ect]]]]]]];
    rewrite Ef, Ect.
  - simpl. split; [| intros r []].
    intros v [[] | [H | []]]. exact H.
  - split.
    + apply (extractFileChanges_covered pd status).
    + apply (extractFileChanges_targets pd status).
Qed.

(** ** The merge: the diff takes precedence *)

Lemma occurrences_push path l v :
  Spec.occurrences path (push l v)
  = Spec.occurrences path l + (if jsv_eqb (Some path) v then 1 else 0).
Proof.
  unfold push. rewrite occurrences_app. unfold Spec.occurrences at 2.
  cbn [filter]. now destruct (jsv_eqb (Some path) v).
Qed.

Ltac settled_guarded path file :=
  let E := fresh "E" in
  let Hin := fresh "Hin" in
  let Hc := fresh "Hc" in
  intros [Hin Hc];
  destruct (set_has _ (Some file)) eqn:E; simpl; [split; assumption |];
  split; [apply set_add_In; now left |];
  unfold kindCounts in *; simpl; rewrite ?occurrences_push;
  destruct (jsv_eqb (Some path) (Some file)) eqn:Ep;
  [ apply jsv_eqb_eq in Ep; injection Ep as ->;
    apply set_has_In in Hin; congruence
  | now rewrite Nat.add_0_r ].

Lemma mergeModified_settled path counts acc file :
  settled path counts acc -> settled path counts (mergeModified acc file).
Proof. unfold settled, mergeModified. settled_guarded path file. Qed.

Lemma mergeCreated_settled path counts acc file :
  settled path counts acc -> settled path counts (mergeCreated acc file).
Proof. unfold settled, mergeCreated. settled_guarded path file. Qed.

Lemma mergeDeleted_settled path counts acc file :
  settled path counts acc -> settled path counts (mergeDeleted acc file).
Proof. unfold settled, mergeDeleted. settled_guarded path file. Qed.

Lemma mergeRenamed_settled path counts acc rename :
  settled path counts acc -> settled path counts (mergeRenamed acc rename).
Proof.
  unfold settled, mergeRenamed. intros [Hin Hc].
  destruct (find _ _); [split; assumption |]. simpl.
  split; [apply set_add_In; now left | exact Hc].
Qed.

(** X6. A path that the parsed diff names keeps the kind the diff gives it:
    the numbers of its entries in [modified], [created] and [deleted] are
    those of the diff alone, whatever the status lists say about it. *)
Theorem diff_kind_takes_precedence parsedDiff status path
  (Hnamed : In (Some path)
              (allFiles (extractFileChanges parsedDiff empty_status))) :
  kindCounts path (extractFileChanges parsedDiff status)
  = kindCounts path (extractFileChanges parsedDiff empty_status).
Proof.
  unfold extractFileChanges in *. simpl in Hnamed. simpl.
  set (diffOnly := fold_left diffEntry parsedDiff empty_changes) in *.
  assert (H0 : settled path (kindCounts path diffOnly) diffOnly)
    by (split; [exact Hnamed | reflexivity]).
  apply (fold_left_invariant (settled path (kindCounts path diffOnly)));
    [intros; now apply mergeRenamed_settled |].
  apply (fold_left_invariant (settled path (kindCounts path diffOnly)));
    [intros; now apply mergeDeleted_settled |].
  apply (fold_left_invariant (settled path (kindCounts path diffOnly)));
    [intros; now apply mergeCreated_settled |].
  apply (fold_left_invariant (settled path (kindCounts path diffOnly)));
    [intros; now apply mergeModified_settled |].
  exact H0.
Qed.

(** ** Line statistics compose *)

(** X7. The line statistics of two parsed diffs put one after the other
    are the sums of their line statistics, and [total] is always
    [additions + deletions]. *)
Theorem calculateLineStats_app first second :
  additions (calculateLineStats (first ++ second))
  = additions (calculateLineStats first) + additions (calculateLineStats second)
  /\ deletions (calculateLineStats (first ++ second))
     = deletions (calculateLineStats first)
       + deletions (calculateLineStats second)
  /\ total (calculateLineStats (first ++ second))
     = additions (calculateLineStats (first ++ second))
       + deletions (calculateLineStats (first ++ second)).
Proof.
  destruct (calculateLineStats_sum (first ++ second)) as [Ea Ed].
  destruct (calculateLineStats_sum first) as [Ea1 Ed1].
  destruct (calculateLineStats_sum second) as [Ea2 Ed2].
  split; [| split; [| reflexivity]].
  - rewrite Ea, Ea1, Ea2. unfold Spec.taggedAdditions, Spec.fileLevel.
    rewrite !map_app, !list_sum_app. lia.
  - rewrite Ed, Ed1, Ed2. unfold Spec.taggedDeletions, Spec.fileLevel.
    rewrite !map_app, !list_sum_app. lia.
Qed.

(** ** Categorization: sizes and errors *)

Lemma filter_bucket_lengths (l : list string) :
  List.length (filter (fun f => Spec.Bucket_eqb (Spec.bucketOf f) Spec.Docs) l)
  + List.length (filter (fun f => Spec.Bucket_eqb (Spec.bucketOf f) Spec.Test) l)
  + List.length (filter (fun f => Spec.Bucket_eqb (Spec.bucketOf f) Spec.Config) l)
  + List.length (filter (fun f => Spec.Bucket_eqb (Spec.bucketOf f) Spec.Style) l)
  + List.length (filter (fun f => Spec.Bucket_eqb (Spec.bucketOf f) Spec.Source) l)
  = List.length l.
Proof.
  induction l as [| f l IH]; [reflexivity |].
  simpl. destruct (Spec.bucketOf f); simpl; lia.
Qed.

Lemma strings_length l :
  Forall Spec.isString l -> List.length (Spec.strings l) = List.length l.
Proof.
  induction 1 as [| v l [s ->] _ IH]; simpl; [reflexivity | now rewrite IH].
Qed.

(** X8. When [categorizeFiles] returns, the sizes of the five buckets add
    up to the number of files: every file is put in a bucket once, also a
    file that occurs several times. *)
Theorem bucket_sizes_add_up files c
  (Hcat : categorizeFiles files = Ok c) :
  List.length (docs c) + List.length (test c) + List.length (config c)
  + List.length (style c) + List.length (source c)
  = List.length files.
Proof.
  apply categorizeFiles_buckets in Hcat. destruct Hcat as [Hall Hb].
  change (docs c) with (Spec.bucket c Spec.Docs).
  change (test c) with (Spec.bucket c Spec.Test).
  change (config c) with (Spec.bucket c Spec.Config).
  change (style c) with (Spec.bucket c Spec.Style).
  change (source c) with (Spec.bucket c Spec.Source).
  rewrite !Hb, filter_bucket_lengths. now apply strings_length.
Qed.

Lemma for_of_categorizeFile_error files : forall c0 message,
  for_of categorizeFile files c0 = Throw message ->
  message = TypeError_undefined "toLowerCase" /\ In None files.
Proof.
  induction files as [| [file |] files IH]; intros c0 message H.
  - discriminate.
  - cbn [for_of] in H.
    destruct (categorizeFile_bucket c0 file) as [c1 [E _]]. rewrite E in H.
    destruct (IH _ _ H) as [-> Hin]. split; [reflexivity | now right].
  - simpl in H. injection H as <-. split; [reflexivity | now left].
Qed.

(** X9. [categorizeFiles] throws exactly when the array holds [undefined],
    and the error is the TypeError of reading [toLowerCase] of
    [undefined]. *)
Theorem categorizeFiles_throws_iff files :
  (categorizeFiles files = Throw (TypeError_undefined "toLowerCase")
   <-> In None files)
  /\ forall message,
       categorizeFiles files = Throw message ->
       message = TypeError_undefined "toLowerCase".
Proof.
  split; [| intros message H; now apply for_of_categorizeFile_error in H].
  split.
  - intros H. now apply for_of_categorizeFile_error in H.
  - intros Hin. destruct (categorizeFiles files) as [c | message] eqn:E.
    + apply categorizeFiles_buckets in E. destruct E as [Hall _].
      rewrite Forall_forall in Hall. destruct (Hall None Hin) as [s Hs].
      discriminate.
    + apply for_of_categorizeFile_error in E. now destruct E as [-> _].
Qed.

(** ** The summary of a result *)

Lemma set_add_length s x :
  List.length (set_add s x) <= S (List.length s).
Proof.
  unfold set_add, push. destruct (set_has s x); [lia |].
  rewrite length_app. simpl. lia.
Qed.

Ltac cover_step :=
  unfold kindsCoverFiles; simpl; intros Hacc;
  match goal with
  | |- context [set_add ?s ?x] => pose proof (set_add_length s x)
  end;
  unfold push; rewrite ?length_app; simpl; lia.

Lemma extractFileChanges_cover parsedDiff status :
  kindsCoverFiles (extractFileChanges parsedDiff status).
Proof.
  unfold extractFileChanges.
  apply fold_left_invariant.
  { intros acc r. unfold mergeRenamed. destruct (find _ _); [auto | cover_step]. }
  apply fold_left_invariant.
  { intros acc f. unfold mergeDeleted. destruct (negb _); [cover_step | auto]. }
  apply fold_left_invariant.
  { intros acc f. unfold mergeCreated. destruct (negb _); [cover_step | auto]. }
  apply fold_left_invariant.
  { intros acc f. unfold mergeModified. destruct (negb _); [cover_step | auto]. }
  apply fold_left_invariant.
  { intros acc f. unfold diffEntry.
    destruct (f_deleted f); [cover_step |].
    destruct (f_new f); [cover_step |].
    destruct (f_renamed f); cover_step. }
  unfold kindsCoverFiles. simpl. lia.
Qed.

(** The summary of a result is computed from its lists and line
    statistics. *)
Lemma Changed_summary parseDiff git options_mode log a log' :
  analyzeChanges parseDiff git options_mode log = (Ok (Changed a), log') ->
  a_summary a
  = {| totalFiles := List.length (a_files a);
       sm_modified := List.length (modified (a_changeTypes a));
       sm_created := List.length (created (a_changeTypes a));
       sm_deleted := List.length (deleted (a_changeTypes a));
       sm_renamed := List.length (renamed (a_changeTypes a));
       linesAdded := additions (a_lineStats a);
       linesDeleted := deletions (a_lineStats a);
       linesChanged := total (a_lineStats a) |}
  /\ a_lineStats a = calculateLineStats (a_parsedDiff a).
Proof.
  unfold analyzeChanges, try_catch, bind.
  unfold await at 1.
  destruct (checkIsRepo git) as [[|] |]; simpl; try discriminate.
  unfold checkHasHead, try_catch, bind, await, ret.
  destruct (raw_rev_parse_HEAD git) as [id | e];
    (destruct (raw_status_porcelain git) as [statusOutput |];
     [| discriminate]);
    unfold lift;
    (destruct (parsePorcelainStatus statusOutput) as [status |];
     [| discriminate]); simpl.
  - destruct (diffForMode git _ _) as [[scoped |] log1]; [| discriminate].
    destruct (_ && _); [discriminate |].
    destruct (categorizeFiles _) as [c |]; [| discriminate].
    intros H. injection H as <- <-. simpl. split; reflexivity.
  - unfold analyzeFirstCommit, bind, lift, await, ret.
    destruct (Nat.eqb (List.length (st_files status)) 0); [discriminate |].
    destruct (categorizeFiles _) as [c |]; [| discriminate].
    destruct (diff_plain git) as [d |]; [| discriminate].
    intros H. injection H as <- <-. simpl. rewrite !length_map.
    split; reflexivity.
Qed.

(** X10. In every result with changes, the summary counts are the lengths
    of the lists of the result, [linesChanged] is
    [linesAdded + linesDeleted], and the four per-kind counts add up to at
    least [totalFiles]. *)
Theorem summary_counts_cover_files parseDiff git options_mode log a log'
  (Hrun : analyzeChanges parseDiff git options_mode log
          = (Ok (Changed a), log')) :
  totalFiles (a_summary a) = List.length (a_files a)
  /\ sm_modified (a_summary a) = List.length (modified (a_changeTypes a))
  /\ sm_created (a_summary a) = List.length (created (a_changeTypes a))
  /\ sm_deleted (a_summary a) = List.length (deleted (a_changeTypes a))
  /\ sm_renamed (a_summary a) = List.length (renamed (a_changeTypes a))
  /\ linesChanged (a_summary a)
     = linesAdded (a_summary a) + linesDeleted (a_summary a)
  /\ totalFiles (a_summary a)
     <= sm_modified (a_summary a) + sm_created (a_summary a)
        + sm_deleted (a_summary a) + sm_renamed (a_summary a).
Proof.
  destruct (Changed_summary _ _ _ _ _ _ Hrun) as [Es El].
  rewrite Es. simpl. repeat (split; [reflexivity |]).
  split; [rewrite El; reflexivity |].
  apply analyzeChanges_Changed in Hrun.
  destruct Hrun as [_ [[status [_ [Ef Ect]]] | [pd [status [_ [_ [Ef Ect]]]]]]];
    rewrite Ef, Ect.
  - simpl. lia.
  - apply extractFileChanges_cover.
Qed.

(** ** The commit type *)

(** X11. [determinePrimaryType] returns one of the seven types feat, fix,
    refactor, docs, test, style and chore. *)
Theorem determinePrimaryType_range categorization changeTypes :
  In (determinePrimaryType categorization changeTypes)
    ["feat"; "fix"; "refactor"; "docs"; "test"; "style"; "chore"].
Proof.
  unfold determinePrimaryType.
  repeat match goal with
         | |- context [if ?b then _ else _] => destruct b
         end; simpl; tauto.
Qed.

(** X12. When at least one source file is changed, at least one file is
    created and none is modified, the type is feat, whatever the names of
    the files: the rule on created files comes before the rules that look
    for fix, bug, patch or refactor in the paths. *)
Theorem created_source_is_feat categorization changeTypes
  (Hsource : source categorization <> [])
  (Hcreated : created changeTypes <> [])
  (Hmodified : modified changeTypes = []) :
  determinePrimaryType categorization changeTypes = "feat".
Proof.
  unfold determinePrimaryType. rewrite Hmodified.
  destruct (source categorization) as [| s ss]; [congruence |].
  destruct (created changeTypes) as [| c cs]; [congruence |].
  cbn [List.length Nat.eqb Nat.ltb Nat.leb].
  rewrite !andb_false_r. reflexivity.
Qed.

(** X13. The type is docs exactly when some documentation file is changed
    and no source and no test file is. *)
Theorem docs_type_iff categorization changeTypes :
  determinePrimaryType categorization changeTypes = "docs"
  <-> docs categorization <> []
      /\ source categorization = [] /\ test categorization = [].
Proof.
  unfold determinePrimaryType.
  destruct (docs categorization) as [| d ds],
           (source categorization) as [| s ss],
           (test categorization) as [| t ts];
    cbn [List.length Nat.eqb Nat.ltb Nat.leb andb];
    repeat match goal with
           | |- context [if ?b then _ else _] => destruct b
           end;
    split; intros H; try discriminate; try reflexivity;
    try (destruct H as (? & ? & ?); congruence);
    repeat split; congruence.
Qed.

(** * Further properties of the suggester *)

(** ** The common path *)

Lemma str_app_assoc (a b c : string) : ((a ++ b) ++ c = a ++ (b ++ c))%string.
Proof. induction a as [| x a IH]; simpl; [reflexivity | now rewrite IH]. Qed.

Lemma str_app_nil_r (a : string) : (a ++ "" = a)%string.
Proof. induction a as [| x a IH]; simpl; [reflexivity | now rewrite IH]. Qed.

Lemma prefix_app (a b : string) : prefix a (a ++ b) = true.
Proof.
  induction a as [| x a IH]; simpl; [now destruct b |].
  destruct (ascii_dec x x); [exact IH | congruence].
Qed.

Lemma join_cons sep x l :
  l <> [] -> join sep (x :: l) = (x ++ sep ++ join sep l)%string.
Proof. destruct l; [congruence | reflexivity]. Qed.

Lemma join_app sep a b :
  a <> [] -> b <> [] ->
  join sep (a ++ b) = (join sep a ++ sep ++ join sep b)%string.
Proof.
  intros Ha Hb. induction a as [| x a IH]; [congruence |].
  destruct a as [| y a].
  - simpl app. now rewrite join_cons.
  - change ((x :: y :: a) ++ b) with (x :: ((y :: a) ++ b)).
    rewrite join_cons by discriminate. rewrite IH by discriminate.
    rewrite (join_cons sep x (y :: a)) by discriminate.
    now rewrite !str_app_assoc.
Qed.

(** Joining the pieces of a split on [/] gives the text back. *)
Lemma join_split_go_slash s : forall cur,
  join "/" (split_go "/" 0 cur s) = (cur ++ s)%string.
Proof.
  induction s as [| c r IH]; intros cur.
  - simpl. now rewrite str_app_nil_r.
  - cbn [split_go prefix].
    destruct (ascii_dec "/" c) as [<- | Hc].
    + replace (prefix "" r) with true by now destruct r.
      rewrite join_cons by apply split_go_nonempty.
      cbn [String.length Nat.sub]. now rewrite IH.
    + rewrite IH, str_app_assoc. reflexivity.
Qed.

Lemma join_split_slash s : join "/" (split "/" s) = s.
Proof. unfold split. now rewrite join_split_go_slash. Qed.

Lemma skipn_nth_error {A : Type} (l : list A) : forall i x,
  nth_error l i = Some x -> skipn i l = x :: skipn (S i) l.
Proof.
  induction l as [| y l IH]; intros [| i] x H; try discriminate.
  - now injection H as ->.
  - simpl in H. apply IH in H. exact H.
Qed.

(** The parts the loop of [findCommonPath] collects are, in every path,
    the components that follow index [i]. *)
Lemma commonParts_prefix paths p : In p paths ->
  forall parts i, exists rest, skipn i p = commonParts paths i parts ++ rest.
Proof.
  intros Hin parts. induction parts as [| part parts IH]; intros i.
  - now exists (skipn i p).
  - cbn [commonParts].
    destruct (forallb _ paths) eqn:E; [| now exists (skipn i p)].
    rewrite forallb_forall in E. specialize (E p Hin).
    destruct (nth_error p i) as [x |] eqn:En; [| discriminate].
    apply String.eqb_eq in E. subst x.
    destruct (IH (S i)) as [rest Hrest].
    exists rest. rewrite (skipn_nth_error _ _ _ En), Hrest. reflexivity.
Qed.

Lemma map_result_split_of sep (files : list string) :
  map_result (split_of sep) (map Some files) = Ok (map (split sep) files).
Proof.
  induction files as [| f files IH]; [reflexivity |].
  simpl. rewrite IH. reflexivity.
Qed.

(** X14. For two or more files, the common path [findCommonPath] returns
    is a directory prefix of every file: a file either is the common path
    itself or starts with the common path followed by [/]. *)
Theorem findCommonPath_is_prefix (files : list string) commonPath
  (Hmany : 2 <= List.length files)
  (Hcommon : findCommonPath (map Some files) = Ok (Some commonPath)) :
  forall file,
    In file files ->
    file = commonPath \/ prefix (commonPath ++ "/") file = true.
Proof.
  intros file Hin. unfold findCommonPath in Hcommon.
  destruct files as [| f [| g files]]; simpl in Hmany; try lia.
  change (map Some (f :: g :: files))
    with (Some f :: Some g :: map Some files) in Hcommon.
  change (Some f :: Some g :: map Some files)
    with (map Some (f :: g :: files)) in Hcommon at 2.
  cbv beta iota in Hcommon.
  rewrite map_result_split_of in Hcommon. cbn [rbind] in Hcommon.
  set (paths := map (split "/") (f :: g :: files)) in *.
  set (common := commonParts paths 0 (removelast (hd [] paths))) in *.
  destruct (Nat.ltb 0 (List.length common)) eqn:Elen; [| discriminate].
  injection Hcommon as <-.
  assert (Hne : common <> []) by (destruct common; [discriminate | discriminate]).
  destruct (commonParts_prefix paths (split "/" file)
              (in_map _ _ _ Hin) (removelast (hd [] paths)) 0)
    as [rest Hrest].
  fold common in Hrest. simpl skipn in Hrest.
  rewrite <- (join_split_slash file) at 1 2. rewrite Hrest.
  destruct rest as [| r rest].
  - left. now rewrite app_nil_r.
  - right. rewrite join_app by (assumption || discriminate).
    rewrite <- str_app_assoc. apply prefix_app.
Qed.

(** ** The inferred feature *)

Lemma own_In wordCount w :
  match own wordCount w with
  | Some c => In (w, c) wordCount
  | None => ~ In w (map fst wordCount)
  end.
Proof.
  induction wordCount as [| [k v] r IH]; simpl; [tauto |].
  destruct (String.eqb_spec k w) as [-> | Hk]; [now left |].
  destruct (own r w); [now right | intros [H | H]; auto].
Qed.

Lemma In_own wordCount w c :
  NoDup (map fst wordCount) -> In (w, c) wordCount -> own wordCount w = Some c.
Proof.
  intros Hnd Hin. pose proof (own_In wordCount w) as H.
  destruct (own wordCount w) as [c' |].
  - f_equal. revert Hnd Hin H. clear.
    induction wordCount as [| [k v] r IH]; simpl; [tauto |].
    intros Hnd. inversion Hnd as [| ? ? Hk Hr]; subst.
    intros [E | Hin] [E' | Hin'].
    + congruence.
    + injection E as -> ->. exfalso. apply Hk.
      now apply (in_map fst) in Hin'.
    + injection E' as -> ->. exfalso. apply Hk.
      now apply (in_map fst) in Hin.
    + now apply IH.
  - exfalso. apply H. now apply (in_map fst) in Hin.
Qed.

Lemma assign_keys wordCount x n :
  map fst (assign wordCount x n)
  = match own wordCount x with
    | Some _ => map fst wordCount
    | None => map fst wordCount ++ [x]
    end.
Proof.
  induction wordCount as [| [k v] r IH]; simpl; [reflexivity |].
  destruct (String.eqb k x); simpl; [reflexivity |].
  rewrite IH. now destruct (own r x).
Qed.

Lemma assign_In wordCount x n w c :
  NoDup (map fst wordCount) ->
  In (w, c) (assign wordCount x n)
  <-> (w = x /\ c = n) \/ (w <> x /\ In (w, c) wordCount).
Proof.
  induction wordCount as [| [k v] r IH]; intros Hnd.
  - simpl. split.
    + intros [E | []]. injection E as -> ->. now left.
    + intros [[-> ->] | [_ []]]. now left.
  - inversion Hnd as [| ? ? Hk Hr]; subst. simpl.
    destruct (String.eqb_spec k x) as [-> | Hkx]; simpl.
    + split.
      * intros [E | Hin]; [injection E as <- <-; now left |].
        right. split; [| now right].
        intros ->. apply Hk. now apply (in_map fst) in Hin.
      * intros [[-> ->] | [Hw [E | Hin]]]; [now left | | now right].
        injection E as ->. congruence.
    + rewrite (IH Hr). split.
      * intros [E | [[-> ->] | [Hw Hin]]]; auto.
        injection E as <- <-. right. split; [exact Hkx | now left].
      * intros [[-> ->] | [Hw [E | Hin]]]; auto.
Qed.

Lemma occ_snoc w ws x :
  occ w (ws ++ [x]) = occ w ws + (if String.eqb x w then 1 else 0).
Proof.
  unfold occ. rewrite count_occ_app. simpl.
  destruct (string_dec x w) as [-> | H].
  - now rewrite String.eqb_refl.
  - apply String.eqb_neq in H. now rewrite H.
Qed.

Lemma countWord_counted ws wordCount x :
  counted ws wordCount -> counted (ws ++ [x]) (countWord wordCount x).
Proof.
  intros [Hnd [Hall Hc]]. unfold countWord.
  pose proof (own_In wordCount x) as Hown.
  repeat split.
  - rewrite assign_keys. destruct (own wordCount x); [exact Hnd |].
    apply NoDup_app; [exact Hnd | repeat constructor; intros [] |].
    intros k Hk [<- | []]. contradiction.
  - intros w Hw. rewrite assign_keys. apply in_app_or in Hw.
    destruct Hw as [Hw | [<- | []]].
    + destruct (own wordCount x); [auto | apply in_or_app; auto].
    + destruct (own wordCount x) as [c |].
      * now apply (in_map fst) in Hown.
      * apply in_or_app. right. now left.
  - intros w c Hin. apply (assign_In _ _ _ _ _ Hnd) in Hin.
    destruct Hin as [[-> ->] | [Hw Hin]].
    + destruct (own wordCount x) as [c0 |].
      * specialize (Hc x c0 Hown). unfold inherited.
        destruct (String.eqb x "constructor").
        -- destruct Hc as [s [-> Hs]].
           destruct s as [| a s]; [congruence |]. simpl.
           eexists. split; [reflexivity | discriminate].
        -- destruct Hc as [-> Hpos]. rewrite occ_snoc, String.eqb_refl.
           split; [reflexivity | lia].
      * unfold inherited. destruct (String.eqb x "constructor").
        -- simpl. eexists. split; [reflexivity | discriminate].
        -- rewrite occ_snoc, String.eqb_refl.
           assert (occ x ws = 0).
           { unfold occ. apply count_occ_not_In. intros H. apply Hown.
             now apply Hall. }
           split; [f_equal; lia | lia].
    + specialize (Hc w c Hin). destruct (String.eqb w "constructor").
      * exact Hc.
      * rewrite occ_snoc. apply not_eq_sym in Hw.
        apply String.eqb_neq in Hw. rewrite Hw. now rewrite Nat.add_0_r.
Qed.

Lemma fold_countWord_counted rest : forall done wordCount,
  counted done wordCount ->
  counted (done ++ rest) (fold_left countWord rest wordCount).
Proof.
  induction rest as [| x rest IH]; intros done wordCount H.
  - now rewrite app_nil_r.
  - simpl. replace (done ++ x :: rest) with ((done ++ [x]) ++ rest)
      by now rewrite <- app_assoc.
    apply IH. now apply countWord_counted.
Qed.

Lemma insertIndexed_In i e l x :
  In x (insertIndexed i e l) <-> x = (i, e) \/ In x l.
Proof.
  induction l as [| [j e'] r IH]; simpl.
  - intuition congruence.
  - destruct (N.leb i j); simpl; [intuition congruence |].
    rewrite IH. intuition congruence.
Qed.

Lemma indexedEntries_In wordCount i e :
  In (i, e) (indexedEntries wordCount)
  <-> In e wordCount /\ arrayIndex (fst e) = Some i.
Proof.
  induction wordCount as [| [w c] r IH]; simpl; [tauto |].
  destruct (arrayIndex w) as [j |] eqn:E.
  - rewrite insertIndexed_In, IH. split.
    + intros [H | [H1 H2]]; [injection H as -> ->; auto | auto].
    + intros [[<- | H1] H2]; [left; simpl in H2; congruence | auto].
  - rewrite IH. split; [tauto |].
    intros [[<- | H1] H2]; [simpl in H2; congruence | auto].
Qed.

Lemma entries_In wordCount e : In e (entries wordCount) <-> In e wordCount.
Proof.
  unfold entries. rewrite in_app_iff, in_map_iff, filter_In. split.
  - intros [[[i e'] [<- H]] | [H _]]; [| exact H].
    now apply indexedEntries_In in H.
  - intros H. destruct (arrayIndex (fst e)) as [i |] eqn:E.
    + left. exists (i, e). split; [reflexivity |].
      now apply indexedEntries_In.
    + right. split; [exact H | reflexivity].
Qed.

(** The loop that selects the word keeps the largest count above one seen
    so far, with a word that has it. *)
Lemma fold_selectWord es : forall maxCount commonWord,
  let final := fold_left selectWord es (maxCount, commonWord) in
  maxCount <= fst final
  /\ (forall w n, In (w, Num n) es -> 1 < n -> n <= fst final)
  /\ ((final = (maxCount, commonWord))
      \/ exists w, snd final = Some w
                   /\ In (w, Num (fst final)) es /\ 1 < fst final).
Proof.
  induction es as [| [w c] es IH]; intros maxCount commonWord; simpl.
  - split; [lia |]. split; [intros w n [] | now left].
  - destruct c as [count | s].
    + replace (selectWord (maxCount, commonWord) (w, Num count))
        with (if Nat.ltb maxCount count && Nat.ltb 1 count
              then (count, Some w) else (maxCount, commonWord))
        by reflexivity.
      destruct (Nat.ltb maxCount count && Nat.ltb 1 count) eqn:E.
      * apply andb_prop in E. destruct E as [E1 E2].
        apply Nat.ltb_lt in E1, E2.
        destruct (IH count (Some w)) as [H1 [H2 H3]].
        split; [lia |]. split.
        -- intros w' n [E | Hin] Hn; [injection E as -> ->; lia | eauto].
        -- right. destruct H3 as [-> | [w' [Hs [Hin Hn]]]].
           ++ exists w. simpl. auto.
           ++ exists w'. auto.
      * destruct (IH maxCount commonWord) as [H1 [H2 H3]].
        split; [exact H1 |]. split.
        -- intros w' n [E' | Hin] Hn; [| eauto].
           injection E' as -> ->.
           apply andb_false_iff in E.
           destruct E as [E | E]; apply Nat.ltb_ge in E; lia.
        -- destruct H3 as [-> | [w' [Hs [Hin Hn]]]]; [now left |].
           right. exists w'. auto.
    + change (selectWord (maxCount, commonWord) (w, Text s))
        with (maxCount, commonWord).
      destruct (IH maxCount commonWord) as [H1 [H2 H3]].
      split; [exact H1 |]. split.
      * intros w' n [E' | Hin] Hn; [discriminate | eauto].
      * destruct H3 as [-> | [w' [Hs [Hin Hn]]]]; [now left |].
        right. exists w'. auto.
Qed.

Lemma toLowerCase_length s : String.length (toLowerCase s) = String.length s.
Proof. induction s as [| c s IH]; simpl; [reflexivity | now rewrite IH]. Qed.

Lemma featureWords_long files w :
  In w (featureWords files) -> 2 < String.length w.
Proof.
  unfold featureWords. rewrite in_flat_map. intros [name [_ Hw]].
  unfold wordsOf in Hw. apply in_map_iff in Hw.
  destruct Hw as [v [<- Hv]]. apply filter_In in Hv. destruct Hv as [_ Hv].
  rewrite toLowerCase_length. now apply Nat.ltb_lt.
Qed.

Lemma inferFeatureFromFiles_strings (files : list string) :
  inferFeatureFromFiles (map Some files)
  = Ok (match files with
        | [] => None
        | _ =>
            snd (fold_left selectWord
                   (entries (fold_left countWord (featureWords files) []))
                   (0, None))
        end).
Proof.
  destruct files as [| f files]; [reflexivity |].
  unfold inferFeatureFromFiles, featureWords.
  change (map Some (f :: files)) with (Some f :: map Some files).
  change (Some f :: map Some files) with (map Some (f :: files)) at 2.
  cbv beta iota.
  assert (E : forall l : list string,
             map_result
               (fun v => rbind (split_of "/" v)
                           (fun parts => Ok (beforeFirstDot (pop parts))))
               (map Some l)
             = Ok (map (fun s => beforeFirstDot (pop (split "/" s))) l)).
  { induction l as [| x l IH]; [reflexivity |]. simpl. now rewrite IH. }
  rewrite E. reflexivity.
Qed.

(** X15. On an array of paths, [inferFeatureFromFiles] never throws.  The
    word it returns occurs at least twice among the counted words, is
    longer than two characters, is not the word constructor, and no other
    counted word except constructor occurs more often.  It returns [null]
    only when no counted word except constructor occurs twice. *)
Theorem inferFeature_most_frequent (files : list string) :
  match inferFeatureFromFiles (map Some files) with
  | Ok (Some w) =>
      2 <= occ w (featureWords files)
      /\ 2 < String.length w
      /\ w <> "constructor"
      /\ forall w', w' <> "constructor" ->
                    occ w' (featureWords files) <= occ w (featureWords files)
  | Ok None =>
      files = []
      \/ forall w', w' <> "constructor" -> occ w' (featureWords files) <= 1
  | Throw _ => False
  end.
Proof.
  rewrite inferFeatureFromFiles_strings.
  destruct files as [| f files]; [now left |].
  set (words := featureWords (f :: files)).
  set (wordCount := fold_left countWord words []).
  assert (Hcounted : counted words wordCount).
  { apply (fold_countWord_counted words [] []).
    repeat split; [constructor | intros w [] | intros w c []]. }
  destruct Hcounted as [Hnd [Hall Hc]].
  assert (Hnum : forall w', w' <> "constructor" ->
                            In w' words ->
                            In (w', Num (occ w' words)) (entries wordCount)).
  { intros w' Hw' Hin. apply entries_In.
    apply Hall, in_map_iff in Hin. destruct Hin as [[k c] [Ek Hin]].
    simpl in Ek. subst k. specialize (Hc w' c Hin).
    apply String.eqb_neq in Hw'. rewrite Hw' in Hc. now destruct Hc as [-> _]. }
  destruct (fold_selectWord (entries wordCount) 0 None) as [_ [Hmax Hsel]].
  cbv zeta in Hmax, Hsel.
  destruct (fold_left selectWord (entries wordCount) (0, None))
    as [maxCount commonWord]. simpl in *.
  assert (Hle : forall w', w' <> "constructor" ->
                           1 < occ w' words -> occ w' words <= maxCount).
  { intros w' Hw' Hocc. apply (Hmax w'); [| exact Hocc].
    apply Hnum; [exact Hw' |]. unfold occ in Hocc.
    apply (count_occ_In string_dec). lia. }
  destruct Hsel as [E | [w [-> [Hin Hgt]]]].
  - injection E as -> ->. right. intros w' Hw'.
    destruct (Nat.le_gt_cases (occ w' words) 1) as [H | H]; [exact H |].
    specialize (Hle w' Hw' H). lia.
  - apply (proj1 (entries_In _ _)) in Hin. specialize (Hc w _ Hin).
    destruct (String.eqb w "constructor") eqn:Ew.
    { destruct Hc as [s [Hs _]]. discriminate. }
    assert (Hw : w <> "constructor") by now apply String.eqb_neq.
    destruct Hc as [Hn Hpos]. injection Hn as Hn.
    assert (Hw_in : In w words)
      by (apply (count_occ_In string_dec); unfold occ in Hpos; lia).
    repeat split.
    + lia.
    + now apply (featureWords_long (f :: files)).
    + exact Hw.
    + intros w' Hw'.
      destruct (Nat.le_gt_cases (occ w' words) 1) as [H | H]; [lia |].
      specialize (Hle w' Hw' H). lia.
Qed.

(** ** The alternatives *)

Lemma string_set_add_head a s x :
  exists rest, Alternatives.string_set_add (a :: s) x = a :: rest.
Proof.
  unfold Alternatives.string_set_add, push.
  destruct (existsb _ _); eexists; reflexivity.
Qed.

Lemma unique_from_head l : forall a s,
  exists rest, fold_left Alternatives.string_set_add l (a :: s) = a :: rest.
Proof.
  induction l as [| x l IH]; intros a s; simpl; [now eexists |].
  destruct (string_set_add_head a s x) as [rest ->]. apply IH.
Qed.

Lemma string_set_add_spec s x :
  NoDup s ->
  NoDup (Alternatives.string_set_add s x)
  /\ List.length (Alternatives.string_set_add s x) <= S (List.length s)
  /\ forall m, In m (Alternatives.string_set_add s x) <-> In m s \/ m = x.
Proof.
  intros Hs. unfold Alternatives.string_set_add, push.
  destruct (existsb (String.eqb x) s) eqn:E.
  - split; [exact Hs |]. split; [lia |].
    apply existsb_exists in E. destruct E as [y [Hy Exy]].
    apply String.eqb_eq in Exy. subst y.
    intros m. split; [tauto | intros [H | ->]; assumption].
  - split; [| split].
    + apply NoDup_app; [exact Hs | repeat constructor; intros [] |].
      intros m Hm [Hx | []]. subst m.
      assert (existsb (String.eqb x) s = true); [| congruence].
      apply existsb_exists. exists x. split; [exact Hm | apply String.eqb_refl].
    + rewrite length_app. simpl. lia.
    + intros m. rewrite in_app_iff. simpl. intuition congruence.
Qed.

Lemma fold_string_set_add l : forall s,
  NoDup s ->
  NoDup (fold_left Alternatives.string_set_add l s)
  /\ List.length (fold_left Alternatives.string_set_add l s)
     <= List.length s + List.length l
  /\ forall m, In m (fold_left Alternatives.string_set_add l s)
               <-> In m s \/ In m l.
Proof.
  induction l as [| x l IH]; intros s Hs; simpl.
  - split; [exact Hs |]. split; [lia | tauto].
  - destruct (string_set_add_spec s x Hs) as [H1 [H2 H3]].
    destruct (IH _ H1) as [G1 [G2 G3]].
    split; [exact G1 |]. split; [lia |].
    intros m. rewrite G3, H3. intuition congruence.
Qed.

Lemma is_empty_app (a b : string) :
  is_empty (a ++ b) = is_empty a && is_empty b.
Proof. destruct a; [now destruct b | reflexivity]. Qed.

Lemma determinePrimaryType_nonempty categorization changeTypes :
  is_empty (determinePrimaryType categorization changeTypes) = false.
Proof.
  unfold determinePrimaryType.
  repeat match goal with
         | |- context [if ?b then _ else _] => destruct b
         end; reflexivity.
Qed.

(** X16. On a result without changes [generateAlternatives] returns the
    empty array.  On a result of [analyzeChanges] with changes it returns
    one to three messages without duplicates; the first one is the message
    of [generateCommitMessage], and every one starts with the commit type
    of [determinePrimaryType]. *)
Theorem generateAlternatives_shape parseDiff :
  (forall r,
      hasChanges r = false -> Alternatives.generateAlternatives r = Ok [])
  /\ forall git options_mode log a log',
       analyzeChanges parseDiff git options_mode log
       = (Ok (Changed a), log') ->
       exists primary rest,
         generateCommitMessage (Changed a) = Ok (Some primary)
         /\ Alternatives.generateAlternatives (Changed a)
            = Ok (primary :: rest)
         /\ NoDup (primary :: rest)
         /\ List.length rest <= 2
         /\ forall message,
              In message (primary :: rest) ->
              prefix (determinePrimaryType (a_categorization a)
                        (a_changeTypes a)) message = true.
Proof.
  split.
  - intros [n | a]; [reflexivity | discriminate].
  - intros git options_mode log a log' Hrun.
    destruct (Changed_paths _ _ _ _ _ _ Hrun) as [Hfiles [Hmod [Hcre _]]].
    destruct (determineScope_total (a_files a) (a_categorization a) Hfiles)
      as [scope Es].
    destruct (generateDescription_total (a_categorization a) (a_changeTypes a)
                (a_files a) Hfiles Hcre Hmod) as [desc Ed].
    set (commitType := determinePrimaryType (a_categorization a)
                         (a_changeTypes a)).
    set (headText := match scope with
                     | Some s => if is_empty s then commitType
                                 else (commitType ++ "(" ++ s ++ ")")%string
                     | None => commitType
                     end).
    set (primary := (headText ++ ": " ++ desc)%string).
    assert (Hprimary : generateCommitMessage (Changed a) = Ok (Some primary)).
    { unfold generateCommitMessage. rewrite Es. cbn [rbind]. rewrite Ed.
      reflexivity. }
    assert (Hhead : exists tail, headText = (commitType ++ tail)%string).
    { unfold headText. destruct scope as [s |].
      - destruct (is_empty s); [exists ""; now rewrite str_app_nil_r |].
        now eexists.
      - exists "". now rewrite str_app_nil_r. }
    assert (Hne : is_empty primary = false).
    { unfold primary. destruct Hhead as [tail ->].
      rewrite !is_empty_app. unfold commitType.
      now rewrite determinePrimaryType_nonempty. }
    set (messages :=
           if Nat.ltb 1 (List.length (a_files a))
           then push [primary; (commitType ++ ": " ++ desc)%string]
                  (commitType ++ ": update "
                   ++ Summarizer.decimal (List.length (a_files a))
                   ++ " files")%string
           else [primary; (commitType ++ ": " ++ desc)%string]).
    assert (Halt : Alternatives.generateAlternatives (Changed a)
                   = Ok (Alternatives.unique messages)).
    { unfold Alternatives.generateAlternatives. rewrite Hprimary.
      cbn [rbind]. rewrite Hne. fold commitType. rewrite Ed. reflexivity. }
    assert (Hshape : exists others,
               messages = primary :: others
               /\ List.length others <= 2
               /\ forall m, In m others -> prefix commitType m = true).
    { unfold messages. destruct (Nat.ltb 1 (List.length (a_files a))).
      - eexists. split; [reflexivity |]. split; [simpl; lia |].
        intros m [<- | [<- | []]]; apply prefix_app.
      - eexists. split; [reflexivity |]. split; [simpl; lia |].
        intros m [<- | []]; apply prefix_app. }
    destruct Hshape as [others [Emsg [Hlen Hpre]]].
    unfold Alternatives.unique in Halt. rewrite Emsg in Halt. simpl in Halt.
    destruct (unique_from_head others primary []) as [rest Erest].
    change (Alternatives.string_set_add [] primary) with [primary] in Halt.
    destruct (fold_string_set_add others [primary])
      as [Hnd [Hsize Hmem]]; [repeat constructor; intros [] |].
    rewrite Erest in Halt, Hnd, Hsize, Hmem.
    exists primary, rest. repeat split; try assumption.
    + simpl in Hsize. lia.
    + intros message Hm. apply Hmem in Hm.
      destruct Hm as [[<- | []] | Hm]; [| now apply Hpre].
      unfold primary. destruct Hhead as [tail ->].
      rewrite str_app_assoc. apply prefix_app.
Qed.

(** ** The summary of a result without changes *)

(** X17. For a result of [analyzeChanges] without changes,
    [getChangeSummary] returns the message of the result: "No changes
    detected in the repository" when there is no HEAD, "No changes detected
    since the last commit" otherwise. *)
Theorem summary_of_unchanged parseDiff git options_mode log r log'
  (Hrun : analyzeChanges parseDiff git options_mode log = (Ok r, log'))
  (Hunchanged : hasChanges r = false) :
  Summarizer.getChangeSummary r
  = if isFirstCommit r then "No changes detected in the repository"
    else "No changes detected since the last commit".
Proof.
  destruct r as [n | a]; [| discriminate]. clear Hunchanged. revert Hrun.
  unfold analyzeChanges, try_catch, bind.
  unfold await at 1.
  destruct (checkIsRepo git) as [[|] |]; simpl; try discriminate.
  unfold checkHasHead, try_catch, bind, await, ret.
  destruct (raw_rev_parse_HEAD git) as [id | e];
    (destruct (raw_status_porcelain git) as [statusOutput |];
     [| discriminate]);
    unfold lift;
    (destruct (parsePorcelainStatus statusOutput) as [status |];
     [| discriminate]); simpl.
  - destruct (diffForMode git _ _) as [[scoped |] log1]; [| discriminate].
    destruct (_ && _).
    + intros H. injection H as <- <-. reflexivity.
    + destruct (categorizeFiles _) as [c |]; discriminate.
  - unfold analyzeFirstCommit, bind, lift, await, ret.
    destruct (Nat.eqb (List.length (st_files status)) 0).
    + intros H. injection H as <- <-. reflexivity.
    + destruct (categorizeFiles _) as [c |]; [| discriminate].
      destruct (diff_plain git) as [d |]; discriminate.
Qed.

(** * Further properties of [analyzeChanges] *)

Ltac query_cases :=
  repeat match goal with
         | |- context [match ?x with _ => _ end] =>
             match type of x with
             | result _ => destruct x eqn:?
             | bool => destruct x eqn:?
             end
         | |- context [if ?x then _ else _] => destruct x eqn:?
         end.

Section Queries.

Variable parseDiff : string -> list DiffFile.

(** X22. The queries one run of [analyzeChanges] sends are, in this
    order, an initial segment of: the repository check, the resolution of
    HEAD, the status listing and the diff queries of the mode (the index
    diff for staged, the working-tree diff for unstaged, both for any other
    mode); or, when HEAD does not resolve, these first three followed by
    the plain diff. *)
Theorem queries_in_order git options_mode log :
  exists queries,
    snd (analyzeChanges parseDiff git options_mode log) = log ++ queries
    /\ ((exists rest,
            queries ++ rest
            = Spec.queriesFor (match options_mode with
                               | Some m => m
                               | None => "all"
                               end))
        \/ (queries = [QCheckIsRepo; QRevParseHead; QStatusPorcelain; QDiff]
            /\ exists e, raw_rev_parse_HEAD git = Throw e)).
Proof.
  unfold analyzeChanges, analyzeFirstCommit, diffForMode, checkHasHead,
    try_catch, bind, await, lift, ret, throw, Spec.queriesFor.
  set (mode := match options_mode with Some m => m | None => "all" end).
  query_cases; simpl in *; try discriminate;
    (eexists; split; [rewrite <- ?app_assoc; cbn [app]; reflexivity |]);
    first [ left; eexists; cbn [app]; reflexivity
          | right; split; [reflexivity | eexists; reflexivity] ].
Qed.

(** Once the handle is built, every error comes out of the [try] block and
    is "Failed to analyze git changes: " followed by its cause; the cause
    is the not-a-repository message, the message with which the tool
    rejected the repository check, the status listing or a diff query, or
    the TypeError of one of the two property reads on [undefined]. *)
Lemma errors_inside_try_are_wrapped git options_mode log e log'
  (Hrun : analyzeChanges parseDiff git options_mode log = (Throw e, log')) :
  exists cause,
    e = (failed_prefix ++ cause)%string
    /\ (cause = not_a_repository
        \/ checkIsRepo git = Throw cause
        \/ raw_status_porcelain git = Throw cause
        \/ diff_cached_HEAD git = Throw cause
        \/ diff_HEAD git = Throw cause
        \/ diff_plain git = Throw cause
        \/ cause = TypeError_undefined "trim"
        \/ cause = TypeError_undefined "toLowerCase").
Proof.
  revert Hrun.
  unfold analyzeChanges, analyzeFirstCommit, diffForMode, checkHasHead,
    try_catch, bind, await, lift, ret, throw.
  query_cases; simpl in *; intros H; try discriminate; injection H as <- _;
    eexists; (split; [reflexivity |]);
    repeat match goal with
           | H : parsePorcelainStatus _ = Throw _ |- _ =>
               apply parsePorcelainStatus_error in H; subst
           | H : categorizeFiles _ = Throw _ |- _ =>
               apply for_of_categorizeFile_error in H;
               destruct H as [-> _]
           end;
    tauto.
Qed.

(** X23. The errors of [analyzeChanges(repoPath, options)].  The call
    rejects in three ways only.  With [null] for [options] it rejects with
    the TypeError of the destructuring, as it is, before the handle is
    built.  When [simpleGit(repoPath)] throws (a directory that does not
    exist), it rejects with that error, as it is: both statements stand
    before the [try].  In both cases no query is sent.  Once the handle is
    built, the error is "Failed to analyze git changes: " followed by its
    cause, and the cause is the not-a-repository message, the message with
    which the tool rejected the repository check, the status listing or a
    diff query, or the TypeError of one of the two property reads on
    [undefined].  The rejection of the resolution of HEAD is never among
    the causes. *)
Theorem analyzeChanges_call_errors options simpleGit log e log'
  (Hrun : Calls.analyzeChanges parseDiff options simpleGit log
          = (Throw e, log')) :
  (options = Calls.OptionsNull
   /\ e = Calls.TypeError_destructure
   /\ log' = log)
  \/ (exists mode,
        options = Calls.OptionsObject mode
        /\ simpleGit = Throw e
        /\ log' = log)
  \/ (exists mode git cause,
        options = Calls.OptionsObject mode
        /\ simpleGit = Ok git
        /\ e = (failed_prefix ++ cause)%string
        /\ (cause = not_a_repository
            \/ checkIsRepo git = Throw cause
            \/ raw_status_porcelain git = Throw cause
            \/ diff_cached_HEAD git = Throw cause
            \/ diff_HEAD git = Throw cause
            \/ diff_plain git = Throw cause
            \/ cause = TypeError_undefined "trim"
            \/ cause = TypeError_undefined "toLowerCase")).
Proof.
  destruct options as [| mode].
  - left. unfold Calls.analyzeChanges, throw in Hrun.
    injection Hrun as <- <-. auto.
  - right. destruct simpleGit as [git | message].
    + right. cbn [Calls.analyzeChanges] in Hrun.
      destruct (errors_inside_try_are_wrapped _ _ _ _ _ Hrun)
        as [cause [He Hcause]].
      exists mode, git, cause. auto.
    + left. unfold Calls.analyzeChanges, throw in Hrun.
      injection Hrun as <- <-. exists mode. auto.
Qed.

End Queries.

(** ** The scope *)

Lemma uses_app c (a b : string) :
  uses c (a ++ b) = uses c a || uses c b.
Proof.
  induction a as [| x a IH]; simpl; [reflexivity |].
  rewrite IH. now rewrite orb_assoc.
Qed.

(** A piece of a split on one character holds no character that is neither
    in the piece being read nor in the text, and never the separator,
    unless the piece being read holds it. *)
Lemma split_go_pieces d c s : forall cur piece,
  In piece (split_go (String d "") 0 cur s) ->
  uses c piece = true ->
  uses c cur = true \/ (uses c s = true /\ c <> d).
Proof.
  induction s as [| x s IH]; intros cur piece Hin Hc.
  - destruct Hin as [<- | []]. now left.
  - cbn [split_go prefix] in Hin.
    destruct (ascii_dec d x) as [<- | Hd].
    + replace (prefix "" s) with true in Hin by now destruct s.
      cbn [String.length Nat.sub] in Hin.
      destruct Hin as [<- | Hin]; [now left |].
      destruct (IH _ _ Hin Hc) as [H | [H Hcd]]; [discriminate |].
      right. split; [| exact Hcd]. simpl. rewrite H. apply orb_true_r.
    + destruct (IH _ _ Hin Hc) as [H | [H Hcd]].
      * rewrite uses_app in H. simpl in H. rewrite orb_false_r in H.
        apply orb_prop in H. destruct H as [H | H]; [now left |].
        right. apply Ascii.eqb_eq in H. subst x. split.
        -- simpl. now rewrite Ascii.eqb_refl.
        -- congruence.
      * right. split; [| exact Hcd]. simpl. rewrite H. apply orb_true_r.
Qed.

Lemma split_pieces d c s piece :
  In piece (split (String d "") s) ->
  uses c piece = true -> uses c s = true /\ c <> d.
Proof.
  intros Hin Hc. destruct (split_go_pieces d c s "" piece Hin Hc) as [H | H].
  - discriminate.
  - exact H.
Qed.

Lemma last_In {A : Type} (l : list A) d : l <> [] -> In (last l d) l.
Proof.
  induction l as [| x l IH]; [congruence |]. intros _.
  destruct l as [| y l]; [now left |]. right. apply IH. discriminate.
Qed.

Lemma lower_char_slash c : Ascii.eqb "/" (lower_char c) = Ascii.eqb "/" c.
Proof.
  destruct c as [[] [] [] [] [] [] [] []]; reflexivity.
Qed.

Lemma uses_toLowerCase_slash s : uses "/" (toLowerCase s) = uses "/" s.
Proof.
  induction s as [| c s IH]; cbn [uses toLowerCase]; [reflexivity |].
  now rewrite lower_char_slash, IH.
Qed.

(** X24. The scope [determineScope] returns never holds a slash: it is a
    file name up to its first dot, one directory name of the common path,
    or one of docs, tests and config. *)
Theorem scope_has_no_slash files categorization scope
  (Hscope : determineScope files categorization = Ok (Some scope)) :
  uses "/" scope = false.
Proof.
  assert (Hpiece : forall s piece,
             In piece (split "/" s) -> uses "/" piece = false).
  { intros s piece Hin. destruct (uses "/" piece) eqn:E; [| reflexivity].
    destruct (split_pieces "/" "/" s piece Hin E) as [_ H]. congruence. }
  assert (Hnonempty : forall sep s, split sep s <> [])
    by (intros; apply split_go_nonempty).
  unfold determineScope in Hscope.
  destruct files as [| f [| g files]].
  - cbn in Hscope.
    repeat match type of Hscope with
           | context [if ?b then _ else _] => destruct b
           end; try discriminate; now injection Hscope as <-.
  - destruct f as [f |]; [| discriminate]. cbn [split_of rbind] in Hscope.
    injection Hscope as <-. rewrite uses_toLowerCase_slash.
    destruct (uses "/" (beforeFirstDot (pop (split "/" f)))) eqn:E;
      [| reflexivity].
    assert (Hin : In (beforeFirstDot (pop (split "/" f)))
                    (split "." (pop (split "/" f)))).
    { unfold beforeFirstDot.
      destruct (split "." (pop (split "/" f))) as [| p ps] eqn:Es;
        [now apply Hnonempty in Es | now left]. }
    destruct (split_pieces "." "/" _ _ Hin E) as [H _].
    rewrite (Hpiece f (pop (split "/" f))) in H; [discriminate |].
    apply last_In, Hnonempty.
  - destruct (findCommonPath (f :: g :: files)) as [commonPath | e];
      [| discriminate].
    cbn [rbind] in Hscope.
    destruct commonPath as [c |].
    + destruct (negb (is_empty c) && negb (String.eqb c ".")).
      * destruct (Nat.ltb 0 (List.length
                               (filter (fun p => negb (is_empty p))
                                  (split "/" c)))) eqn:El.
        -- injection Hscope as <-.
           apply (Hpiece c).
           assert (Hin : In (pop (filter (fun p => negb (is_empty p))
                                    (split "/" c)))
                           (filter (fun p => negb (is_empty p)) (split "/" c))).
           { apply last_In. intros E. rewrite E in El. discriminate. }
           apply filter_In in Hin. tauto.
        -- repeat match type of Hscope with
                  | context [if ?b then _ else _] => destruct b
                  end; try discriminate; now injection Hscope as <-.
      * repeat match type of Hscope with
               | context [if ?b then _ else _] => destruct b
               end; try discriminate; now injection Hscope as <-.
    + repeat match type of Hscope with
             | context [if ?b then _ else _] => destruct b
             end; try discriminate; now injection Hscope as <-.
Qed.

(** * Properties of the process: two calls in a row *)

Section ProcessProperties.

Variable parseDiff : string -> list DiffFile.

(** ** Computations that leave [CONFIG] alone and ignore the history *)

Lemma steady_ret {A : Type} (a : A) : Process.steady (Process.ret a).
Proof. intros w. split; [reflexivity | intros w' _; reflexivity]. Qed.

Lemma steady_throw {A : Type} (message : string) :
  Process.steady (@Process.throw A message).
Proof. intros w. split; [reflexivity | intros w' _; reflexivity]. Qed.

Lemma steady_lift {A : Type} (r : result A) : Process.steady (Process.lift r).
Proof. intros w. split; [reflexivity | intros w' _; reflexivity]. Qed.

Lemma steady_readConfig : Process.steady Process.readConfig.
Proof.
  intros w. split; [reflexivity |].
  intros w' Hw. unfold Process.readConfig. simpl. now rewrite Hw.
Qed.

Lemma steady_await {A : Type} (q : Query) (answer : list Query -> result A)
  (Hfixed : forall log1 log2, answer log1 = answer log2) :
  Process.steady (Process.await q answer).
Proof.
  intros w. split; [reflexivity |].
  intros w' _. unfold Process.await. simpl. apply Hfixed.
Qed.

Lemma steady_bind {A B : Type} (m : Process.Run A) (k : A -> Process.Run B)
  (Hm : Process.steady m) (Hk : forall a, Process.steady (k a)) :
  Process.steady (Process.bind m k).
Proof.
  intros w. unfold Process.bind.
  destruct (Hm w) as [Hconfig Hsame].
  split.
  - destruct (m w) as [[a | e] w1] eqn:Erun; simpl in *.
    + rewrite (proj1 (Hk a w1)). exact Hconfig.
    + exact Hconfig.
  - intros w' Hw'.
    specialize (Hsame w' Hw').
    pose proof (proj1 (Hm w')) as Hconfig'.
    destruct (m w) as [[a | e] w1] eqn:Erun;
      destruct (m w') as [[a' | e'] w1'] eqn:Erun'; simpl in *;
      try discriminate.
    + injection Hsame as ->.
      apply (proj2 (Hk a w1)). congruence.
    + injection Hsame as ->. reflexivity.
Qed.

Lemma steady_try_catch {A : Type} (m : Process.Run A)
  (handler : string -> Process.Run A)
  (Hm : Process.steady m) (Hh : forall e, Process.steady (handler e)) :
  Process.steady (Process.try_catch m handler).
Proof.
  intros w. unfold Process.try_catch.
  destruct (Hm w) as [Hconfig Hsame].
  split.
  - destruct (m w) as [[a | e] w1] eqn:Erun; simpl in *.
    + exact Hconfig.
    + rewrite (proj1 (Hh e w1)). exact Hconfig.
  - intros w' Hw'.
    specialize (Hsame w' Hw').
    pose proof (proj1 (Hm w')) as Hconfig'.
    destruct (m w) as [[a | e] w1] eqn:Erun;
      destruct (m w') as [[a' | e'] w1'] eqn:Erun'; simpl in *;
      try discriminate.
    + exact Hsame.
    + injection Hsame as ->.
      apply (proj2 (Hh e w1)). congruence.
Qed.

Lemma steady_if {A : Type} (b : bool) (m1 m2 : Process.Run A)
  (H1 : Process.steady m1) (H2 : Process.steady m2) :
  Process.steady (if b then m1 else m2).
Proof. destruct b; assumption. Qed.

Lemma steady_for_each {A S : Type} (body : S -> A -> Process.Run S)
  (Hbody : forall s x, Process.steady (body s x)) (l : list A) :
  forall s, Process.steady (Process.for_each body l s).
Proof.
  induction l as [| x r IH]; intros s; cbn [Process.for_each].
  - apply steady_ret.
  - apply steady_bind; [apply Hbody | exact IH].
Qed.

Ltac steady_step :=
  first
    [ apply steady_ret
    | apply steady_throw
    | apply steady_lift
    | apply steady_readConfig
    | apply steady_bind; [| intros ?]
    | apply steady_try_catch; [| intros ?]
    | apply steady_if ].

Lemma categorizeFile_steady categories file :
  Process.steady (Process.categorizeFile categories file).
Proof.
  destruct file as [file |]; cbn [Process.categorizeFile]; repeat steady_step.
Qed.

Lemma categorizeFiles_steady files :
  Process.steady (Process.categorizeFiles files).
Proof.
  unfold Process.categorizeFiles.
  apply steady_for_each. apply categorizeFile_steady.
Qed.

Section FixedResponses.

Variable tool : Process.Tool.
Hypothesis Hfixed : Process.fixedResponses tool.

Lemma fixed_checkIsRepo log1 log2 :
  Process.t_checkIsRepo tool log1 = Process.t_checkIsRepo tool log2.
Proof. apply (Hfixed log1 log2). Qed.

Lemma fixed_rev_parse_HEAD log1 log2 :
  Process.t_rev_parse_HEAD tool log1 = Process.t_rev_parse_HEAD tool log2.
Proof. apply (Hfixed log1 log2). Qed.

Lemma fixed_status_porcelain log1 log2 :
  Process.t_status_porcelain tool log1 = Process.t_status_porcelain tool log2.
Proof. apply (Hfixed log1 log2). Qed.

Lemma fixed_diff_cached_HEAD log1 log2 :
  Process.t_diff_cached_HEAD tool log1 = Process.t_diff_cached_HEAD tool log2.
Proof. apply (Hfixed log1 log2). Qed.

Lemma fixed_diff_HEAD log1 log2 :
  Process.t_diff_HEAD tool log1 = Process.t_diff_HEAD tool log2.
Proof. apply (Hfixed log1 log2). Qed.

Lemma fixed_diff_plain log1 log2 :
  Process.t_diff_plain tool log1 = Process.t_diff_plain tool log2.
Proof. apply (Hfixed log1 log2). Qed.

Ltac steady_query :=
  first
    [ apply steady_await;
      first [ exact fixed_checkIsRepo | exact fixed_rev_parse_HEAD
            | exact fixed_status_porcelain | exact fixed_diff_cached_HEAD
            | exact fixed_diff_HEAD | exact fixed_diff_plain ]
    | apply categorizeFiles_steady
    | steady_step ].

Lemma checkHasHead_steady : Process.steady (Process.checkHasHead tool).
Proof. unfold Process.checkHasHead. repeat steady_query. Qed.

Lemma analyzeFirstCommit_steady status :
  Process.steady (Process.analyzeFirstCommit parseDiff tool status).
Proof. unfold Process.analyzeFirstCommit. repeat steady_query. Qed.

Lemma diffForMode_steady mode :
  Process.steady (Process.diffForMode tool mode).
Proof. unfold Process.diffForMode. repeat steady_query. Qed.

Lemma analyzeChanges_steady options_mode :
  Process.steady (Process.analyzeChanges parseDiff tool options_mode).
Proof.
  unfold Process.analyzeChanges.
  repeat first
    [ apply checkHasHead_steady
    | apply analyzeFirstCommit_steady
    | apply diffForMode_steady
    | steady_query ].
Qed.

(** ** The process against the analysis over constant answers *)

Lemma simulates_ret {A : Type} (a : A) :
  Process.simulates (Process.ret a) (ret a).
Proof. intros w _. destruct w; reflexivity. Qed.

Lemma simulates_throw {A : Type} (message : string) :
  Process.simulates (@Process.throw A message) (throw message).
Proof. intros w _. destruct w; reflexivity. Qed.

Lemma simulates_lift {A : Type} (r : result A) :
  Process.simulates (Process.lift r) (lift r).
Proof. intros w _. destruct w; reflexivity. Qed.

Lemma simulates_await {A : Type} (q : Query)
  (answer : list Query -> result A) (r : result A)
  (Hanswer : forall log, answer log = r) :
  Process.simulates (Process.await q answer) (await q r).
Proof.
  intros w _. unfold Process.await, await. simpl. now rewrite Hanswer.
Qed.

Lemma simulates_bind {A B : Type} (m : Process.Run A) (a : Async A)
  (k : A -> Process.Run B) (f : A -> Async B)
  (Hm : Process.simulates m a)
  (Hk : forall x, Process.simulates (k x) (f x)) :
  Process.simulates (Process.bind m k) (bind a f).
Proof.
  intros w Hw. unfold Process.bind, bind. rewrite (Hm w Hw).
  destruct (a (Process.w_sent w)) as [[x | e] log']; simpl.
  - exact (Hk x {| Process.w_config := Process.w_config w;
                   Process.w_sent := log' |} Hw).
  - reflexivity.
Qed.

Lemma simulates_try_catch {A : Type} (m : Process.Run A) (a : Async A)
  (handler : string -> Process.Run A) (h : string -> Async A)
  (Hm : Process.simulates m a)
  (Hh : forall e, Process.simulates (handler e) (h e)) :
  Process.simulates (Process.try_catch m handler) (try_catch a h).
Proof.
  intros w Hw. unfold Process.try_catch, try_catch. rewrite (Hm w Hw).
  destruct (a (Process.w_sent w)) as [[x | e] log']; simpl.
  - reflexivity.
  - exact (Hh e {| Process.w_config := Process.w_config w;
                   Process.w_sent := log' |} Hw).
Qed.

Lemma simulates_if {A : Type} (b : bool) (m1 m2 : Process.Run A)
  (a1 a2 : Async A)
  (H1 : Process.simulates m1 a1) (H2 : Process.simulates m2 a2) :
  Process.simulates (if b then m1 else m2) (if b then a1 else a2).
Proof. destruct b; assumption. Qed.

(** With [CONFIG] as the module defines it, the body of the loop reads the
    patterns of the pure categorizer. *)
Lemma categorizeFile_initial categories file w
  (Hw : Process.w_config w = Process.initial) :
  Process.categorizeFile categories file w
  = (categorizeFile categories file, w).
Proof.
  destruct file as [file |]; [| reflexivity].
  unfold Process.categorizeFile, categorizeFile, Process.bind,
    Process.readConfig, Process.ret.
  cbv beta iota. rewrite Hw.
  change (Process.filePatterns_docs Process.initial)
    with CONFIG.filePatterns_docs.
  destruct (matches CONFIG.filePatterns_docs (toLowerCase file));
    [reflexivity |].
  cbv beta iota. rewrite Hw.
  change (Process.filePatterns_test Process.initial)
    with CONFIG.filePatterns_test.
  destruct (matches CONFIG.filePatterns_test (toLowerCase file));
    [reflexivity |].
  cbv beta iota. rewrite Hw.
  change (Process.filePatterns_config Process.initial)
    with CONFIG.filePatterns_config.
  destruct (matches CONFIG.filePatterns_config (toLowerCase file));
    [reflexivity |].
  cbv beta iota. rewrite Hw.
  change (Process.filePatterns_style Process.initial)
    with CONFIG.filePatterns_style.
  destruct (matches CONFIG.filePatterns_style (toLowerCase file));
    reflexivity.
Qed.

Lemma categorizeFiles_initial files :
  Process.simulates (Process.categorizeFiles files)
    (lift (categorizeFiles files)).
Proof.
  unfold Process.categorizeFiles, categorizeFiles.
  generalize empty_categories.
  induction files as [| x r IH]; intros s w Hw.
  - destruct w; reflexivity.
  - cbn [Process.for_each for_of]. unfold Process.bind.
    rewrite (categorizeFile_initial s x w Hw).
    destruct (categorizeFile s x) as [s' | e].
    + exact (IH s' w Hw).
    + destruct w; reflexivity.
Qed.

Ltac simulates_step :=
  first
    [ apply simulates_ret
    | apply simulates_throw
    | apply simulates_lift
    | apply categorizeFiles_initial
    | apply simulates_await; intros ?; apply Hfixed
    | apply simulates_bind; [| intros ?]
    | apply simulates_try_catch; [| intros ?]
    | apply simulates_if ].

Lemma checkHasHead_simulates :
  Process.simulates (Process.checkHasHead tool)
    (checkHasHead (Process.answersOf tool)).
Proof. unfold Process.checkHasHead, checkHasHead. repeat simulates_step. Qed.

Lemma analyzeFirstCommit_simulates status :
  Process.simulates (Process.analyzeFirstCommit parseDiff tool status)
    (analyzeFirstCommit parseDiff (Process.answersOf tool) status).
Proof.
  unfold Process.analyzeFirstCommit, analyzeFirstCommit.
  repeat simulates_step.
Qed.

Lemma diffForMode_simulates mode :
  Process.simulates (Process.diffForMode tool mode)
    (diffForMode (Process.answersOf tool) mode).
Proof. unfold Process.diffForMode, diffForMode. repeat simulates_step. Qed.

Lemma analyzeChanges_simulates options_mode :
  Process.simulates (Process.analyzeChanges parseDiff tool options_mode)
    (analyzeChanges parseDiff (Process.answersOf tool) options_mode).
Proof.
  unfold Process.analyzeChanges, analyzeChanges.
  repeat first
    [ apply checkHasHead_simulates
    | apply analyzeFirstCommit_simulates
    | apply diffForMode_simulates
    | simulates_step ].
Qed.

End FixedResponses.

(** C9. Two invocations of [analyzeChanges] in one process, the second
    after the first.  Between them persist the object [CONFIG], which the
    categorizer reads, and the tool, which has seen the queries of the first
    invocation.  For every mode and every tool whose responses are fixed
    (no answer depends on the queries sent before), the second invocation
    has the outcome of the first, the same analysis result or the same
    error, and [CONFIG] is after each invocation what it was before.  With
    [CONFIG] as the module defines it, this outcome is the analysis of the
    responses: the function [Analyzer.analyzeChanges] of the mode and of the
    six answers. *)
Theorem two_invocations_identical tool options_mode w
  (Hfixed : Process.fixedResponses tool) :
  let first := Process.analyzeChanges parseDiff tool options_mode w in
  let second :=
    Process.analyzeChanges parseDiff tool options_mode (snd first) in
  fst second = fst first
  /\ Process.w_config (snd first) = Process.w_config w
  /\ Process.w_config (snd second) = Process.w_config w
  /\ (Process.w_config w = Process.initial ->
      forall log,
        fst first
        = fst (analyzeChanges parseDiff (Process.answersOf tool)
                 options_mode log)).
Proof.
  intros first second.
  pose proof (analyzeChanges_steady tool Hfixed options_mode) as Hsteady.
  destruct (Hsteady w) as [Hconfig Hsame].
  split; [| split; [| split]].
  - apply Hsame. exact Hconfig.
  - exact Hconfig.
  - unfold second. rewrite (proj1 (Hsteady (snd first))). exact Hconfig.
  - intros Hinitial log. unfold first.
    rewrite (analyzeChanges_simulates tool Hfixed options_mode w Hinitial).
    cbn [fst]. apply analyzeChanges_oblivious.
Qed.

End ProcessProperties.

(** The fixed responses are needed: against a repository that is edited
    between the two invocations, the first reports no change and the second
    reports one. *)
Example changing_responses_differ :
  let first :=
    Process.analyzeChanges (Sample.parseDiffTable []) CallSample.editedBetween
      None CallSample.start in
  let second :=
    Process.analyzeChanges (Sample.parseDiffTable []) CallSample.editedBetween
      None (snd first) in
  match fst first, fst second with
  | Ok r1, Ok r2 => hasChanges r1 = false /\ hasChanges r2 = true
  | _, _ => False
  end.
Proof. vm_compute. split; reflexivity. Qed.

Lemma two_invocations_identical_witness :
  let tool := Process.always Sample.stagedApp in
  let parseDiff := Sample.parseDiffTable Sample.appTable in
  let first := Process.analyzeChanges parseDiff tool None CallSample.start in
  let second := Process.analyzeChanges parseDiff tool None (snd first) in
  Process.fixedResponses tool
  /\ fst second = fst first
  /\ Process.w_config (snd first) = Process.initial
  /\ fst first = fst (analyzeChanges parseDiff Sample.stagedApp None []).
Proof.
  intros tool parseDiff first second.
  assert (Hfixed : Process.fixedResponses tool)
    by (intros log1 log2; repeat split; reflexivity).
  destruct (two_invocations_identical parseDiff tool None CallSample.start
              Hfixed) as [Hsame [Hconfig [_ Hresult]]].
  split; [exact Hfixed |].
  split; [exact Hsame |].
  split; [exact Hconfig |].
  exact (Hresult eq_refl []).
Defined.

(** * Properties of the runner *)

Import Runner.

(** X18. When staging fails, [executeGitWorkflow] sends [add] only and
    throws "Failed to stage changes: " followed by the tool's message; when
    staging succeeds and the commit fails, it sends [add] and [commit]
    only and throws "Failed to commit changes: " followed by the tool's
    message.  In both cases nothing is pushed. *)
Theorem workflow_stops_at_first_failure git commitMessage log :
  (forall e,
      g_add git log = Throw e ->
      executeGitWorkflow git commitMessage log
      = (Throw ("Failed to stage changes: " ++ e)%string, log ++ [CAdd]))
  /\ forall e,
       g_add git log = Ok tt ->
       g_commit git (log ++ [CAdd]) commitMessage = Throw e ->
       executeGitWorkflow git commitMessage log
       = (Throw ("Failed to commit changes: " ++ e)%string,
          log ++ [CAdd; CCommit commitMessage]).
Proof.
  split.
  - intros e Hadd.
    unfold executeGitWorkflow, try_catch, bind, await, throw.
    rewrite Hadd. reflexivity.
  - intros e Hadd Hcommit.
    unfold executeGitWorkflow, try_catch, bind, await, throw.
    rewrite Hadd, Hcommit. rewrite <- app_assoc. reflexivity.
Qed.

(** The commands a run adds to the log. *)
Lemma executeGitWorkflow_log git commitMessage log :
  exists commands,
    snd (executeGitWorkflow git commitMessage log) = log ++ commands
    /\ ((exists branch,
            In (CPush branch) commands \/ In (CPushUpstream branch) commands) ->
        g_add git log = Ok tt
        /\ exists commitResult,
             g_commit git (log ++ [CAdd]) commitMessage = Ok commitResult).
Proof.
  unfold executeGitWorkflow, try_catch, bind, await, throw, Runner.ret.
  destruct (g_add git log) as [[] | e].
  2: { exists [CAdd]. split; [reflexivity |].
       intros [b [[H | []] | [H | []]]]; discriminate. }
  destruct (g_commit git (log ++ [CAdd]) commitMessage) as [cr | e].
  2: { exists [CAdd; CCommit commitMessage].
       split; [simpl; now rewrite <- app_assoc |].
       intros [b [[H | [H | []]] | [H | [H | []]]]]; discriminate. }
  match goal with
  | |- context [let (r, log') := ?run in _] =>
      destruct run as [outcome log1] eqn:E
  end.
  assert (Hlog : exists commands, log1 = log ++ commands).
  { revert E. unfold tryPush, pushFailed, try_catch, bind, await, Runner.ret.
    repeat match goal with
           | |- context [match ?x with _ => _ end] =>
               match type of x with
               | result _ => destruct x
               | bool => destruct x
               | unit => destruct x
               end
           end;
      intros E; injection E as _ <-;
      rewrite <- ?app_assoc; eexists; reflexivity. }
  destruct Hlog as [commands ->].
  exists commands. split.
  - destruct outcome; reflexivity.
  - intros _. split; [reflexivity | now exists cr].
Qed.

(** X19. [executeGitWorkflow] sends a push command, with or without [-u],
    only after [add] and [commit] have both succeeded. *)
Theorem push_only_after_commit git commitMessage log commands
  (Hcommands : snd (executeGitWorkflow git commitMessage log) = log ++ commands)
  (Hpush : exists branch,
      In (CPush branch) commands \/ In (CPushUpstream branch) commands) :
  g_add git log = Ok tt
  /\ exists commitResult,
       g_commit git (log ++ [CAdd]) commitMessage = Ok commitResult.
Proof.
  destruct (executeGitWorkflow_log git commitMessage log)
    as [commands' [E H]].
  rewrite E in Hcommands. apply app_inv_head in Hcommands. subst commands'.
  exact (H Hpush).
Qed.

Ltac answer_cases :=
  repeat match goal with
         | |- context [match ?x with _ => _ end] =>
             match type of x with
             | result _ => destruct x eqn:?
             | bool => destruct x eqn:?
             | unit => destruct x
             end
         end.

(** X20. Once [add] and [commit] have succeeded, [executeGitWorkflow]
    returns a results object that records both, whatever happens to the
    push: [results.push] is set, and [results.errors] is empty exactly when
    the push succeeded or was skipped.  It throws in one case only: a
    [status] query sent after the push step has failed is rejected; the
    error thrown is the one of that query. *)
Theorem after_commit_outcome git commitMessage log commitResult
  (Hadd : g_add git log = Ok tt)
  (Hcommit : g_commit git (log ++ [CAdd]) commitMessage = Ok commitResult) :
  match executeGitWorkflow git commitMessage log with
  | (Ok results, _) =>
      r_add results = Some staged
      /\ r_commit results = Some (committed commitResult)
      /\ exists outcome,
           r_push results = Some outcome
           /\ (r_errors results = []
               <-> ps_success outcome = true \/ ps_skipped outcome = true)
  | (Throw e, log') =>
      exists sent,
        log' = (log ++ CAdd :: CCommit commitMessage :: CStatus :: sent)
               ++ [CStatus]
        /\ g_status git (log ++ CAdd :: CCommit commitMessage :: CStatus :: sent)
           = Throw e
  end.
Proof.
  unfold executeGitWorkflow, try_catch, bind, await, throw, Runner.ret.
  rewrite Hadd, Hcommit.
  unfold tryPush, pushFailed, try_catch, bind, await, Runner.ret.
  rewrite <- !app_assoc. cbn [app].
  answer_cases;
    try (repeat split; eexists; split; [reflexivity |]; simpl;
         split; [intros H; try discriminate; auto
                | intros [H | H]; (discriminate || reflexivity)]);
    try (eexists; split;
         [f_equal; rewrite <- ?app_assoc; cbn [app]; reflexivity
         | rewrite <- ?app_assoc in *; cbn [app] in *; eassumption]).
Qed.

(** The [try] block of [dryRun] over one handle: every failure inside it
    comes back as an invalid result, and a valid result is reported only
    when [checkIsRepo] answered [true] and the status read by the conflict
    check lists no conflicted file and has neither flag set. *)
Lemma dryRun_with_handle_returns git log :
  exists outcome log',
    dryRun git log = (Ok outcome, log')
    /\ forall status branchInfo,
         outcome = Valid status branchInfo ->
         g_checkIsRepo git log = Ok true
         /\ g_status git (log ++ [CCheckIsRepo]) = Ok status
         /\ exists seen,
              g_status git (log ++ [CCheckIsRepo; CStatus]) = Ok seen
              /\ conflicted seen = []
              /\ isInMerge seen = false
              /\ isRebasing seen = false.
Proof.
  unfold dryRun, checkForConflicts, getBranchInfo, try_catch, bind, await,
    throw, Runner.ret.
  rewrite <- ?app_assoc. cbn [app].
  destruct (g_checkIsRepo git log) as [[|] | e] eqn:Erepo; cbn [negb];
    try (eexists; eexists; split; [reflexivity | discriminate]).
  destruct (g_status git (log ++ [CCheckIsRepo])) as [status | e] eqn:Est;
    try (eexists; eexists; split; [reflexivity | discriminate]).
  rewrite <- ?app_assoc. cbn [app].
  destruct (g_status git (log ++ [CCheckIsRepo; CStatus])) as [seen | e]
    eqn:Eseen;
    try (eexists; eexists; split; [reflexivity | discriminate]).
  destruct (conflicted seen) as [| f fs] eqn:Econf; cbn [List.length Nat.ltb Nat.leb];
    try (eexists; eexists; split; [reflexivity | discriminate]).
  destruct (isInMerge seen) eqn:Emerge;
    try (eexists; eexists; split; [reflexivity | discriminate]).
  destruct (isRebasing seen) eqn:Erebase;
    try (eexists; eexists; split; [reflexivity | discriminate]).
  cbn [hasConflicts]. rewrite <- ?app_assoc. cbn [app].
  answer_cases;
    (eexists; eexists; split; [reflexivity |]);
    try discriminate.
  intros st bi E. injection E as <- _.
  repeat split; try reflexivity. exists seen. auto.
Qed.

(** With a construction that always gives the same handle, the call is the
    [try] block over that handle. *)
Lemma dryRun_call_same_handle git log :
  Calls.dryRun (fun _ => Ok git) log = dryRun git log.
Proof. reflexivity. Qed.

(** X21. [dryRun(repoPath)] rejects in one case only: when its first
    statement, [simpleGit(repoPath)], throws (a directory that does not
    exist); the error is that one and no command is sent.  Once that handle
    is built, the call always returns an object: every later failure, also
    a throw of [simpleGit(repoPath)] inside [checkForConflicts] or
    [getBranchInfo], comes back as an invalid result.  A valid result is
    returned only when [checkIsRepo] answered [true], its [status] is the
    answer to the first status query, and the status read by
    [checkForConflicts] lists no conflicted file and has neither the
    [isInMerge] nor the [isRebasing] property set. *)
Theorem dryRun_rejects_only_at_construction simpleGit log :
  match simpleGit log with
  | Throw e => Calls.dryRun simpleGit log = (Throw e, log)
  | Ok git =>
      exists outcome log',
        Calls.dryRun simpleGit log = (Ok outcome, log')
        /\ forall status branchInfo,
             outcome = Valid status branchInfo ->
             g_checkIsRepo git log = Ok true
             /\ g_status git (log ++ [CCheckIsRepo]) = Ok status
             /\ exists git' seen,
                  simpleGit (log ++ [CCheckIsRepo; CStatus]) = Ok git'
                  /\ g_status git' (log ++ [CCheckIsRepo; CStatus]) = Ok seen
                  /\ conflicted seen = []
                  /\ isInMerge seen = false
                  /\ isRebasing seen = false
  end.
Proof.
  unfold Calls.dryRun, Calls.checkForConflicts, Calls.getBranchInfo,
    Calls.construct.
  destruct (simpleGit log) as [git | e] eqn:Ehandle; [| reflexivity].
  unfold checkForConflicts, getBranchInfo, try_catch, bind, await,
    throw, Runner.ret.
  rewrite <- ?app_assoc. cbn [app].
  destruct (g_checkIsRepo git log) as [[|] | e] eqn:Erepo; cbn [negb];
    try (eexists; eexists; split; [reflexivity | discriminate]).
  destruct (g_status git (log ++ [CCheckIsRepo])) as [status | e] eqn:Est;
    try (eexists; eexists; split; [reflexivity | discriminate]).
  rewrite <- ?app_assoc. cbn [app].
  destruct (simpleGit (log ++ [CCheckIsRepo; CStatus])) as [git' | e]
    eqn:Ehandle';
    try (eexists; eexists; split; [reflexivity | discriminate]).
  destruct (g_status git' (log ++ [CCheckIsRepo; CStatus])) as [seen | e]
    eqn:Eseen;
    try (eexists; eexists; split; [reflexivity | discriminate]).
  destruct (conflicted seen) as [| f fs] eqn:Econf; cbn [List.length Nat.ltb Nat.leb];
    try (eexists; eexists; split; [reflexivity | discriminate]).
  destruct (isInMerge seen) eqn:Emerge;
    try (eexists; eexists; split; [reflexivity | discriminate]).
  destruct (isRebasing seen) eqn:Erebase;
    try (eexists; eexists; split; [reflexivity | discriminate]).
  cbn [hasConflicts]. rewrite <- ?app_assoc. cbn [app].
  answer_cases;
    (eexists; eexists; split; [reflexivity |]);
    try discriminate.
  intros st bi E. injection E as <- _.
  repeat split; try reflexivity. exists git', seen. auto.
Qed.

(** * Instances of the further properties *)

Lemma parsePorcelainStatus_throws_iff_witness :
  exists message, parsePorcelainStatus "M  -> x" = Throw message.
Proof.
  apply (proj2 (proj1 (parsePorcelainStatus_throws_iff "M  -> x"))).
  exists "M  -> x". split; [now left | reflexivity].
Defined.

Lemma status_kinds_within_files_witness :
  exists status,
    parsePorcelainStatus
      ("M  src/app.js" ++ newline ++ "R  old.js -> new.js" ++ newline
       ++ "?? notes.txt")
    = Ok status
    /\ In "new.js" (st_files status)
    /\ List.length (st_modified status) + List.length (st_created status)
       + List.length (st_deleted status) + List.length (st_renamed status)
       <= List.length (st_files status).
Proof.
  eexists.
  assert (Hparsed : parsePorcelainStatus
                      ("M  src/app.js" ++ newline ++ "R  old.js -> new.js"
                       ++ newline ++ "?? notes.txt")
                    = Ok _) by (vm_compute; reflexivity).
  split; [exact Hparsed |].
  destruct (status_kinds_within_files _ _ Hparsed) as [Hin Hlen].
  split; [| exact Hlen].
  apply Hin. right. right. right. exists "old.js". simpl. now left.
Defined.

Lemma allFiles_membership_witness :
  In (Some "src/app.js")
    (allFiles (extractFileChanges [Sample.appFile] empty_status)).
Proof.
  apply (proj2 (allFiles_membership [Sample.appFile] empty_status
                  (Some "src/app.js"))).
  left. exists Sample.appFile. split; [now left | reflexivity].
Defined.

Lemma files_without_duplicates_witness :
  exists a log',
    analyzeChanges (Sample.parseDiffTable Sample.appTable) Sample.stagedApp
      None []
    = (Ok (Changed a), log')
    /\ NoDup (a_files a).
Proof.
  eexists. eexists.
  assert (Hrun : analyzeChanges (Sample.parseDiffTable Sample.appTable)
                   Sample.stagedApp None []
                 = (Ok (Changed _), _)) by (vm_compute; reflexivity).
  split; [exact Hrun |].
  exact (files_without_duplicates _ _ _ _ _ _ Hrun eq_refl).
Defined.

Lemma change_lists_within_files_witness :
  exists a log',
    analyzeChanges (Sample.parseDiffTable Sample.appTable) Sample.stagedApp
      None []
    = (Ok (Changed a), log')
    /\ forall v, In v (modified (a_changeTypes a)) -> In v (a_files a).
Proof.
  eexists. eexists.
  assert (Hrun : analyzeChanges (Sample.parseDiffTable Sample.appTable)
                   Sample.stagedApp None []
                 = (Ok (Changed _), _)) by (vm_compute; reflexivity).
  split; [exact Hrun |].
  intros v Hv.
  apply (proj1 (change_lists_within_files _ _ _ _ _ _ Hrun)). now left.
Defined.

Lemma diff_kind_takes_precedence_witness :
  kindCounts "src/app.js"
    (extractFileChanges [Sample.appFile]
       {| st_modified := []; st_created := ["src/app.js"];
          st_deleted := []; st_renamed := [];
          st_files := ["src/app.js"] |})
  = kindCounts "src/app.js"
      (extractFileChanges [Sample.appFile] empty_status).
Proof.
  apply diff_kind_takes_precedence. simpl. now left.
Defined.

Lemma bucket_sizes_add_up_witness :
  exists c,
    categorizeFiles [Some "README.md"; Some "src/app.js"; Some "README.md"]
    = Ok c
    /\ List.length (docs c) + List.length (test c) + List.length (config c)
       + List.length (style c) + List.length (source c) = 3.
Proof.
  eexists.
  assert (Hcat : categorizeFiles
                   [Some "README.md"; Some "src/app.js"; Some "README.md"]
                 = Ok _) by (vm_compute; reflexivity).
  split; [exact Hcat |].
  exact (bucket_sizes_add_up _ _ Hcat).
Defined.

Lemma categorizeFiles_throws_iff_witness :
  categorizeFiles [Some "README.md"; None]
  = Throw (TypeError_undefined "toLowerCase").
Proof.
  apply (proj2 (proj1 (categorizeFiles_throws_iff [Some "README.md"; None]))).
  right. now left.
Defined.

Lemma summary_counts_cover_files_witness :
  exists a log',
    analyzeChanges (Sample.parseDiffTable Sample.appTable) Sample.stagedApp
      None []
    = (Ok (Changed a), log')
    /\ totalFiles (a_summary a)
       <= sm_modified (a_summary a) + sm_created (a_summary a)
          + sm_deleted (a_summary a) + sm_renamed (a_summary a).
Proof.
  eexists. eexists.
  assert (Hrun : analyzeChanges (Sample.parseDiffTable Sample.appTable)
                   Sample.stagedApp None []
                 = (Ok (Changed _), _)) by (vm_compute; reflexivity).
  split; [exact Hrun |].
  apply (summary_counts_cover_files _ _ _ _ _ _ Hrun).
Defined.

Lemma created_source_is_feat_witness :
  determinePrimaryType
    {| docs := []; test := []; config := []; style := [];
       source := ["src/bugfix.js"] |}
    {| modified := []; created := [Some "src/bugfix.js"]; deleted := [];
       renamed := [] |}
  = "feat".
Proof.
  apply created_source_is_feat; simpl; (discriminate || reflexivity).
Defined.

Lemma findCommonPath_is_prefix_witness :
  prefix "src/" "src/lib/util.js" = true.
Proof.
  destruct (findCommonPath_is_prefix ["src/app.js"; "src/lib/util.js"] "src"
              ltac:(simpl; lia) eq_refl "src/lib/util.js"
              ltac:(simpl; auto)) as [H | H].
  - discriminate.
  - exact H.
Defined.

Lemma generateAlternatives_shape_witness :
  exists a log' primary rest,
    analyzeChanges (Sample.parseDiffTable Sample.appTable) Sample.fresh None []
    = (Ok (Changed a), log')
    /\ Alternatives.generateAlternatives (Changed a) = Ok (primary :: rest)
    /\ NoDup (primary :: rest).
Proof.
  eexists. eexists.
  assert (Hrun : analyzeChanges (Sample.parseDiffTable Sample.appTable)
                   Sample.fresh None []
                 = (Ok (Changed _), _)) by (vm_compute; reflexivity).
  destruct (proj2 (generateAlternatives_shape
                     (Sample.parseDiffTable Sample.appTable))
              _ _ _ _ _ Hrun)
    as [primary [rest [_ [Halt [Hnd _]]]]].
  exists primary, rest. split; [exact Hrun |]. split; assumption.
Defined.

Lemma summary_of_unchanged_witness :
  exists r log',
    analyzeChanges (Sample.parseDiffTable []) Sample.clean (Some "staged") []
    = (Ok r, log')
    /\ Summarizer.getChangeSummary r
       = "No changes detected since the last commit".
Proof.
  eexists. eexists.
  assert (Hrun : analyzeChanges (Sample.parseDiffTable []) Sample.clean
                   (Some "staged") []
                 = (Ok _, _)) by (vm_compute; reflexivity).
  split; [exact Hrun |].
  exact (summary_of_unchanged _ _ _ _ _ _ Hrun eq_refl).
Defined.

Lemma workflow_stops_at_first_failure_witness :
  executeGitWorkflow RunnerSample.locked "feat: add app" []
  = (Throw "Failed to stage changes: fatal: Unable to create '.git/index.lock': File exists.",
     [CAdd]).
Proof.
  exact (proj1 (workflow_stops_at_first_failure RunnerSample.locked
                  "feat: add app" []) _ eq_refl).
Defined.

Lemma push_only_after_commit_witness :
  g_add RunnerSample.working [] = Ok tt
  /\ exists commitResult,
       g_commit RunnerSample.working [CAdd] "feat: add app" = Ok commitResult.
Proof.
  apply (push_only_after_commit RunnerSample.working "feat: add app" []
           [CAdd; CCommit "feat: add app"; CStatus; CGetRemotes false;
            CPush (Some "main")]).
  - reflexivity.
  - exists (Some "main"). left. do 4 right. now left.
Defined.

Lemma after_commit_outcome_witness :
  exists results log',
    executeGitWorkflow RunnerSample.working "feat: add app" []
    = (Ok results, log')
    /\ r_add results = Some staged
    /\ r_errors results = [].
Proof.
  pose proof (after_commit_outcome RunnerSample.working "feat: add app" []
                _ eq_refl eq_refl) as H.
  destruct (executeGitWorkflow RunnerSample.working "feat: add app" [])
    as [[results | e] log'] eqn:E.
  - exists results, log'. split; [reflexivity |].
    destruct H as [Hadd [_ [outcome [Hpush Herr]]]].
    split; [exact Hadd |].
    vm_compute in E. injection E as <- _. reflexivity.
  - vm_compute in E. discriminate.
Defined.

Lemma errors_inside_try_are_wrapped_instance :
  exists cause,
    "Failed to analyze git changes: Not a git repository. Please run this command inside a git repository."
    = (failed_prefix ++ cause)%string.
Proof.
  destruct (errors_inside_try_are_wrapped (Sample.parseDiffTable [])
              Sample.outside None [] _ _ eq_refl) as [cause [E _]].
  exists cause. exact E.
Defined.

Lemma analyzeChanges_call_errors_witness :
  Calls.analyzeChanges (Sample.parseDiffTable []) (Calls.OptionsObject None)
    (Throw CallSample.missingDirectory) []
  = (Throw CallSample.missingDirectory, [])
  /\ ((Calls.OptionsObject None = Calls.OptionsNull
       /\ CallSample.missingDirectory = Calls.TypeError_destructure
       /\ @nil Query = [])
      \/ (exists mode,
            Calls.OptionsObject None = Calls.OptionsObject mode
            /\ @Throw SimpleGit CallSample.missingDirectory
               = Throw CallSample.missingDirectory
            /\ @nil Query = [])
      \/ (exists mode git cause,
            Calls.OptionsObject None = Calls.OptionsObject mode
            /\ Throw CallSample.missingDirectory = Ok git
            /\ CallSample.missingDirectory
               = (failed_prefix ++ cause)%string
            /\ (cause = not_a_repository
                \/ checkIsRepo git = Throw cause
                \/ raw_status_porcelain git = Throw cause
                \/ diff_cached_HEAD git = Throw cause
                \/ diff_HEAD git = Throw cause
                \/ diff_plain git = Throw cause
                \/ cause = TypeError_undefined "trim"
                \/ cause = TypeError_undefined "toLowerCase"))).
Proof.
  split; [reflexivity |].
  exact (analyzeChanges_call_errors (Sample.parseDiffTable [])
           (Calls.OptionsObject None)
           (Throw CallSample.missingDirectory) [] _ _ eq_refl).
Defined.

(** The directory vanishes after the first handle is built: the throw of
    [simpleGit(repoPath)] inside [checkForConflicts] is caught by [dryRun]. *)
Example dryRun_vanishing_directory :
  Calls.dryRun CallSample.vanishing []
  = (Ok (Invalid CallSample.missingDirectory), [CCheckIsRepo; CStatus]).
Proof. vm_compute. reflexivity. Qed.

Example dryRun_working_directory :
  Calls.dryRun (fun _ => Ok RunnerSample.working) []
  = (Ok (Valid RunnerSample.onMain
           {| bi_current := Some "main";
              bi_tracking := Some "origin/main";
              bi_ahead := 1;
              bi_behind := 0;
              bi_remotes :=
                [ {| ri_name := "origin";
                     ri_url := "https://github.com/user/repo.git" |} ] |}),
     [CCheckIsRepo; CStatus; CStatus; CStatus; CGetRemotes true]).
Proof. vm_compute. reflexivity. Qed.

Example analyzeChanges_null_options :
  Calls.analyzeChanges (Sample.parseDiffTable []) Calls.OptionsNull
    (Ok Sample.clean) []
  = (Throw "Cannot destructure property 'mode' of 'options' as it is null.",
     []).
Proof. reflexivity. Qed.

Lemma dryRun_rejects_only_at_construction_witness :
  Calls.dryRun (fun _ => Throw CallSample.missingDirectory) []
  = (Throw CallSample.missingDirectory, []).
Proof.
  exact (dryRun_rejects_only_at_construction
           (fun _ => Throw CallSample.missingDirectory) []).
Defined.

Lemma scope_has_no_slash_witness : uses "/" "app" = false.
Proof.
  exact (scope_has_no_slash [Some "src/lib/App.test.js"] empty_categories
           "app" eq_refl).
Defined.
